(** * VCFMIX: a shallow embedding of [vcfScan.py]

    The development follows the layout of the Python module: one Rocq module
    per class ([BinomialTest], [vcfScan], [lineageScan],
    [FastaMixtureMarker]), preceded by the fragment of Python's built-in
    behaviour the code relies on (exceptions, string splitting, [int()],
    list indexing, [float()]).

    Modelling conventions.
    - Python [int] is [Z]; Python [float] is IEEE binary64, i.e. Rocq's
      primitive [float]; [str] is [string] (one [ascii] per character, so
      the model covers the ASCII range); [dict] and [set] are stdpp's [gmap]
      and [gset], an association list where the insertion order is read.
    - An attribute of [self] that a method mutates is a field of a record
      that the method takes and returns.
    - A raised exception is an explicit outcome.  Where the exception can be
      caught after the object was mutated, the mutated object is returned
      next to it.
    - Library functions are parameters with the properties that the code
      can rely on: [scipy.stats.binom_test] and [math.log] in [Numerics],
      the column means of pandas in [Means], the sort of [sort_values],
      which leaves the order of equal keys open, in [lineageScan.Sorting]. *)

From Stdlib Require Import ZArith QArith Floats String Ascii List Lia.
From stdpp Require Import gmap strings list pretty sorting.

Local Open Scope string_scope.
Local Open Scope list_scope.
Local Open Scope Z_scope.

(** ** Python built-ins used by [vcfScan.py] *)

Module Py.

(** The exception classes that [vcfScan.py] raises or can receive from the
    built-ins it calls. *)
Inductive exn : Type :=
| ValueError
| KeyError
| TypeError
| IndexError
| EOFError
| AttributeError
| UnboundLocalError
| OverflowError.

Global Instance exn_eq_dec : EqDecision exn.
Proof. solve_decision. Defined.

(** What running a piece of code gives: a value, a raised exception, or
    no answer at all for a loop that never exits. *)
Inductive outcome (A : Type) : Type :=
| Return (a : A)
| Raise (e : exn)
| Diverge.
Global Arguments Return {A} a.
Global Arguments Raise {A} e.
Global Arguments Diverge {A}.

Definition bind {A B : Type} (m : outcome A) (k : A → outcome B) : outcome B :=
  match m with
  | Return a => k a
  | Raise e => Raise e
  | Diverge => Diverge
  end.

Global Instance outcome_ret : MRet outcome := @Return.
Global Instance outcome_bind : MBind outcome := λ A B k m, bind m k.

(** A dictionary lookup [d[k]]. *)
Definition getitem `{Countable K} {V : Type} (d : gmap K V) (k : K) : outcome V :=
  match d !! k with
  | Some v => Return v
  | None => Raise KeyError
  end.

(** The values that reach the places of the code where the dynamic type
    matters: the argument of [BinomialTest.__init__], the pair that
    [BinomialTest.compute] returns, the return value of [parse]. *)
Inductive value : Type :=
| PyNone
| PyBool (b : bool)
| PyInt (z : Z)
| PyFloat (x : float)
| PyStr (s : string).

(** *** Strings *)

(** [str.isspace] on one ASCII character: tab, line feed, vertical tab,
    form feed, carriage return, the four separators 0x1c..0x1f, space. *)
Definition is_space (c : ascii) : bool :=
  let n := nat_of_ascii c in
  ((9 <=? n)%nat && (n <=? 13)%nat) || ((28 <=? n)%nat && (n <=? 32)%nat).

Fixpoint lstrip (s : string) : string :=
  match s with
  | String c s' => if is_space c then lstrip s' else s
  | EmptyString => EmptyString
  end.

Fixpoint rstrip (s : string) : string :=
  match s with
  | String c s' =>
      match rstrip s' with
      | EmptyString => if is_space c then EmptyString else String c EmptyString
      | r => String c r
      end
  | EmptyString => EmptyString
  end.

(** [s.strip()] *)
Definition strip (s : string) : string := rstrip (lstrip s).

(** [s.split()]: the maximal runs of non-space characters, [cur] being the
    run read so far. *)
Fixpoint split_go (cur : string) (s : string) : list string :=
  match s with
  | String c s' =>
      if is_space c
      then (if decide (cur = "") then [] else [cur]) ++ split_go "" s'
      else split_go (cur +:+ String c "") s'
  | EmptyString => if decide (cur = "") then [] else [cur]
  end.

Definition split (s : string) : list string := split_go "" s.

(** [s.split(sep)] for a one-character separator: never empty, and
    adjacent separators delimit empty strings. *)
Fixpoint split_on (sep : ascii) (s : string) : list string :=
  match s with
  | String c s' =>
      if Ascii.eqb c sep then "" :: split_on sep s'
      else match split_on sep s' with
           | w :: ws => String c w :: ws
           | [] => [String c ""]
           end
  | EmptyString => [""]
  end.

(** [sub in s] *)
Fixpoint contains (sub s : string) : bool :=
  String.prefix sub s ||
  match s with
  | String _ s' => contains sub s'
  | EmptyString => false
  end.

(** *** [int(s)] on a string without surrounding white space

    An optional sign, then decimal digits, where single underscores may
    separate digits.  [None] stands for the [ValueError]. *)
Definition digit (c : ascii) : option Z :=
  let n := Z.of_nat (nat_of_ascii c) in
  if (48 <=? n) && (n <=? 57) then Some (n - 48) else None.

Fixpoint int_digits (acc : Z) (after_digit : bool) (s : string) : option Z :=
  match s with
  | String c s' =>
      match digit c with
      | Some d => int_digits (10 * acc + d) true s'
      | None =>
          if Ascii.eqb c "_" && after_digit then int_digits acc false s'
          else None
      end
  | EmptyString => if after_digit then Some acc else None
  end.

Definition int (s : string) : option Z :=
  match s with
  | String "-" s' => Z.opp <$> int_digits 0 false s'
  | String "+" s' => int_digits 0 false s'
  | _ => int_digits 0 false s
  end.

(** [list(map(int, l))]: the first failure raises. *)
Definition ints (l : list string) : option (list Z) := mapM int l.

(** *** Lists *)

(** [l[i]] for [i >= 0] *)
Definition index {A : Type} (l : list A) (i : nat) : outcome A :=
  match l !! i with
  | Some x => Return x
  | None => Raise IndexError
  end.

(** [l[i] = x] with Python's index rule: a negative index counts from the
    end, an index outside [-len(l) .. len(l)-1] raises. *)
Definition setitem {A : Type} (l : list A) (i : Z) (x : A) : outcome (list A) :=
  let n := Z.of_nat (length l) in
  if (0 <=? i) && (i <? n) then Return (<[Z.to_nat i := x]> l)
  else if (- n <=? i) && (i <? 0) then Return (<[Z.to_nat (n + i) := x]> l)
  else Raise IndexError.

(** [l.index(x)] *)
Fixpoint list_index (x : string) (l : list string) : outcome nat :=
  match l with
  | y :: l' => if decide (x = y) then Return 0%nat
               else n ← list_index x l'; Return (S n)
  | [] => Raise ValueError
  end.

(** *** Floats *)

(** [float(z)]: the nearest binary64 number, ties to even;
    [OverflowError] beyond the largest finite one. *)
Definition float_of_int (z : Z) : outcome float :=
  let x := SF2Prim (binary_normalize prec emax z 0 false) in
  if PrimFloat.is_infinity x then Raise OverflowError else Return x.

End Py.

Import Py.

(** ** The numerical library

    [scipy.stats.binom_test(x, n, p)] and [math.log(x, base)] are not code of
    this repository.  They enter the model as parameters of which the model
    states what the code can meet.
    - [binom_test] checks its own arguments before it computes: it raises
      [ValueError] ("n must be >= x") when [n < x], and [ValueError] ("p must
      be in range [0,1]") when [p > 1.0 or p < 0.0].  For [0 <= x <= n],
      [n > 0] and [0 <= p <= 1] it returns a number, which is not negative
      (the memory that the computation takes is not modelled).
      Nothing is stated of what it does elsewhere: for a negative [x], for a
      [p] that is NaN, or for integers beyond the range of a C [long], to
      which it converts [x] and [n].
    - [math.log(x, 10)] is called on p-values other than 0; on these,
      positive or NaN, it returns a float. *)

(** The integers that a C [long] holds. *)
Definition c_long (z : Z) : Prop := - 2 ^ 63 ≤ z < 2 ^ 63.

(** What [binom_test] finds its argument [p] to be. *)
Inductive rate_kind : Type :=
| Probability
| OutOfRange
| NotANumber.

(** [0 <= p <= 1], or else [p > 1.0 or p < 0.0]; neither holds of NaN. *)
Definition rate_kind_of (p : float) : rate_kind :=
  if PrimFloat.leb 0 p && PrimFloat.leb p 1 then Probability
  else if PrimFloat.ltb 1 p || PrimFloat.ltb p 0 then OutOfRange
  else NotANumber.

Class Numerics : Type := {
  binom_test : Z → Z → float → outcome float;
  math_log : float → float → float;
  binom_test_n_lt_x (x n : Z) (p : float) :
    c_long x → c_long n → n < x → binom_test x n p = Raise ValueError;
  binom_test_p_range (x n : Z) (p : float) :
    c_long x → c_long n → x ≤ n → rate_kind_of p = OutOfRange →
    binom_test x n p = Raise ValueError;
  binom_test_returns (x n : Z) (p : float) :
    c_long n → 0 ≤ x ≤ n → 0 < n → rate_kind_of p = Probability →
    ∃ v, binom_test x n p = Return v;
  binom_test_not_negative (x n : Z) (p v : float) :
    binom_test x n p = Return v → PrimFloat.ltb v 0 = false
}.

(** ** class BinomialTest *)

Module BinomialTest.

(** The attributes of an instance.  [tests_run] is not an attribute of the
    Python object: it records, for the statements below, the arguments of
    every call of [stats.binom_test] by the instance that has returned,
    oldest first. *)
Record t : Type := {
  expectedErrorRate : float;
  p_values : gmap string float;
  tests_run : list (Z * Z)
}.

(** [isinstance(expectedErrorRate, float)] is the only test made. *)
Definition __init__ (expectedErrorRate : value) : outcome t :=
  match expectedErrorRate with
  | PyFloat x =>
      Return {| expectedErrorRate := x; p_values := ∅; tests_run := [] |}
  | _ => Raise TypeError
  end.

(** ["{0},{1}".format(minor_variant_count, depth)] *)
Definition key (minor_variant_count depth : Z) : string :=
  pretty minor_variant_count +:+ "," +:+ pretty depth.

(** [self.p_values[key] = stats.binom_test(x=.., n=.., p=..)]: when
    [binom_test] raises, nothing is stored. *)
Definition run_test `{Numerics} (self : t) (minor_variant_count depth : Z)
  : outcome unit * t :=
  match binom_test minor_variant_count depth (expectedErrorRate self) with
  | Return p_value =>
      (Return tt,
       {| expectedErrorRate := expectedErrorRate self;
          p_values := <[key minor_variant_count depth := p_value]> (p_values self);
          tests_run := tests_run self ++ [(minor_variant_count, depth)] |})
  | Raise e => (Raise e, self)
  | Diverge => (Diverge, self)
  end.

(** The score of a stored p-value.  The stored values are floats, so of
    the three branches of the source the one for [None] is never taken. *)
Definition minus_log_p `{Numerics} (p_value : float) : value :=
  if PrimFloat.eqb p_value 0%float then PyInt 250
  else PyFloat (PrimFloat.opp (math_log p_value 10%float)).

(** [compute(minor_variant_count, depth)]: the pair returned or the
    exception raised, and the instance afterwards.  The second lookup of
    the key cannot fail; it is kept as the source has it. *)
Definition compute `{Numerics} (self : t) (minor_variant_count depth : Z)
  : outcome (value * value) * t :=
  if depth =? 0 then (Return (PyNone, PyNone), self)
  else if minor_variant_count =? depth then (Return (PyInt 1, PyInt 0), self)
  else
    let '(stored, self) :=
      match p_values self !! key minor_variant_count depth with
      | Some _ => (Return tt, self)
      | None => run_test self minor_variant_count depth
      end in
    (_ ← stored;
     p_value ← getitem (p_values self) (key minor_variant_count depth);
     Return (PyFloat p_value, minus_log_p p_value),
     self).

End BinomialTest.

(** ** class vcfScan *)

Module vcfScan.

(** One entry of [resDict], i.e. one row of [self.bases]. *)
Record base_row : Type := {
  roi_name : string;
  pos : Z;
  ref : string;
  depth : Z;
  base_a : Z;
  base_c : Z;
  base_g : Z;
  base_t : Z;
  maf : option float;
  mlp : value
}.

(** The attributes of a [vcfScan] object.  [self.region_stats], the
    per-region summary that [_parse] derives from [self.bases] with pandas,
    is left out. *)
Record t : Type := {
  roi2psn : gmap string (gset Z);
  psn2roi : gmap Z (gset string);
  infotag : option string;
  fieldtag : option string;
  report_minimum_maf : float;
  compute_pvalue : bool;
  expectedErrorRate : value;
  bt : BinomialTest.t;
  guid : option string;
  bases : option (list base_row)
}.

Definition __init__ (expectedErrorRate : value) (infotag : option string)
    (report_minimum_maf : float) (compute_pvalue : bool) : outcome t :=
  bt ← BinomialTest.__init__ expectedErrorRate;
  Return {| roi2psn := ∅; psn2roi := ∅;
            infotag := infotag; fieldtag := None;
            report_minimum_maf := report_minimum_maf;
            compute_pvalue := compute_pvalue;
            expectedErrorRate := expectedErrorRate;
            bt := bt; guid := None; bases := None |}.

Definition set_roi2psn (m : gmap string (gset Z)) (self : t) : t :=
  {| roi2psn := m; psn2roi := psn2roi self; infotag := infotag self;
     fieldtag := fieldtag self; report_minimum_maf := report_minimum_maf self;
     compute_pvalue := compute_pvalue self;
     expectedErrorRate := expectedErrorRate self; bt := bt self;
     guid := guid self; bases := bases self |}.

Definition set_psn2roi (m : gmap Z (gset string)) (self : t) : t :=
  {| roi2psn := roi2psn self; psn2roi := m; infotag := infotag self;
     fieldtag := fieldtag self; report_minimum_maf := report_minimum_maf self;
     compute_pvalue := compute_pvalue self;
     expectedErrorRate := expectedErrorRate self; bt := bt self;
     guid := guid self; bases := bases self |}.

Definition set_tags (infotag fieldtag : option string) (self : t) : t :=
  {| roi2psn := roi2psn self; psn2roi := psn2roi self; infotag := infotag;
     fieldtag := fieldtag; report_minimum_maf := report_minimum_maf self;
     compute_pvalue := compute_pvalue self;
     expectedErrorRate := expectedErrorRate self; bt := bt self;
     guid := guid self; bases := bases self |}.

Definition set_bt (b : BinomialTest.t) (self : t) : t :=
  {| roi2psn := roi2psn self; psn2roi := psn2roi self; infotag := infotag self;
     fieldtag := fieldtag self; report_minimum_maf := report_minimum_maf self;
     compute_pvalue := compute_pvalue self;
     expectedErrorRate := expectedErrorRate self; bt := b;
     guid := guid self; bases := bases self |}.

Definition set_guid (g : option string) (self : t) : t :=
  {| roi2psn := roi2psn self; psn2roi := psn2roi self; infotag := infotag self;
     fieldtag := fieldtag self; report_minimum_maf := report_minimum_maf self;
     compute_pvalue := compute_pvalue self;
     expectedErrorRate := expectedErrorRate self; bt := bt self;
     guid := g; bases := bases self |}.

Definition set_bases (b : option (list base_row)) (self : t) : t :=
  {| roi2psn := roi2psn self; psn2roi := psn2roi self; infotag := infotag self;
     fieldtag := fieldtag self; report_minimum_maf := report_minimum_maf self;
     compute_pvalue := compute_pvalue self;
     expectedErrorRate := expectedErrorRate self; bt := bt self;
     guid := guid self; bases := b |}.

(** *** add_roi *)

(** One turn of the loop of [add_roi] for a position that is not 0:
    [self.roi2psn[roi_name].add(roi_position)], then the update of
    [self.psn2roi].  The entry [roi2psn[roi_name]] exists when the loop
    runs, [add_roi] has just assigned it. *)
Definition add_position (roi_name : string) (self : t) (roi_position : Z) : t :=
  let self :=
    set_roi2psn (alter (λ s, s ∪ {[roi_position]}) roi_name (roi2psn self)) self in
  match psn2roi self !! roi_position with
  | Some s => set_psn2roi (<[roi_position := s ∪ {[roi_name]}]> (psn2roi self)) self
  | None => set_psn2roi (<[roi_position := {[roi_name]}]> (psn2roi self)) self
  end.

(** The loop over [roi_positions], in iteration order.  The object is
    returned as the loop left it, with [Some ValueError] when the loop
    raised. *)
Fixpoint add_positions (roi_name : string) (self : t) (roi_positions : list Z)
  : t * option exn :=
  match roi_positions with
  | [] => (self, None)
  | roi_position :: rest =>
      if roi_position =? 0 then (self, Some ValueError)
      else add_positions roi_name (add_position roi_name self roi_position) rest
  end.

(** [self.roi2psn[roi_name] = set([])] is an assignment: it cannot raise
    [KeyError], so the handler of the source is never entered and the
    entry is replaced by the empty set also when it existed. *)
Definition add_roi (self : t) (roi_name : string) (roi_positions : list Z)
  : t * option exn :=
  add_positions roi_name (set_roi2psn (<[roi_name := ∅]> (roi2psn self)) self)
    roi_positions.

(** *** _parse *)

(** The file as the loop [for line in f] sees it: the lines it yields
    (decoded), and whether the iteration then ends or raises [EOFError], as
    [gzip] does on a truncated file. *)
Record vcf_file : Type := {
  lines : list string;
  truncated : bool
}.

Inductive warning : Type :=
| ZeroPosition
| GapObserved (pos sought_now : Z)
| IntConversionFailed (pos : Z).

Global Instance warning_eq_dec : EqDecision warning.
Proof. solve_decision. Defined.

Definition is_gap (w : warning) : bool :=
  match w with GapObserved _ _ => true | _ => false end.

(** The object and the local variables of [_parse] that the loop over the
    lines reads and writes.  [nAdded] is the length of [resDict], whose rows
    are kept in the order of their keys.  [emitted] collects the warnings,
    oldest first. *)
Record scan : Type := {
  self : t;
  sought_now : Z;
  sought_psns : list Z;
  warning_emitted : bool;
  resDict : list base_row;
  emitted : list warning
}.

Definition set_self (s : t) (st : scan) : scan :=
  {| self := s; sought_now := sought_now st; sought_psns := sought_psns st;
     warning_emitted := warning_emitted st; resDict := resDict st;
     emitted := emitted st |}.

Definition set_sought (now : Z) (psns : list Z) (st : scan) : scan :=
  {| self := self st; sought_now := now; sought_psns := psns;
     warning_emitted := warning_emitted st; resDict := resDict st;
     emitted := emitted st |}.

Definition warn (w : warning) (st : scan) : scan :=
  {| self := self st; sought_now := sought_now st; sought_psns := sought_psns st;
     warning_emitted := warning_emitted st; resDict := resDict st;
     emitted := emitted st ++ [w] |}.

Definition set_warning_emitted (st : scan) : scan :=
  {| self := self st; sought_now := sought_now st; sought_psns := sought_psns st;
     warning_emitted := true; resDict := resDict st;
     emitted := emitted st |}.

Definition add_row (r : base_row) (st : scan) : scan :=
  {| self := self st; sought_now := sought_now st; sought_psns := sought_psns st;
     warning_emitted := warning_emitted st; resDict := resDict st ++ [r];
     emitted := emitted st |}.

(** Code that runs on the scan state and may raise: the state comes back
    in every case, as the handlers at the end of [_parse] still use it. *)
Definition M (A : Type) : Type := scan → outcome A * scan.

Definition ret {A : Type} (a : A) : M A := λ st, (Return a, st).
Definition raise {A : Type} (e : exn) : M A := λ st, (Raise e, st).
Definition lift {A : Type} (o : outcome A) : M A := λ st, (o, st).
Definition get : M scan := λ st, (Return st, st).
Definition modify (f : scan → scan) : M unit := λ st, (Return tt, f st).
Definition bindM {A B : Type} (m : M A) (k : A → M B) : M B := λ st,
  match m st with
  | (Return a, st') => k a st'
  | (Raise e, st') => (Raise e, st')
  | (Diverge, st') => (Diverge, st')
  end.

Notation "x <- m ;; k" := (bindM m (λ x, k))
  (at level 100, m at next level, right associativity, only parsing).
Notation "m ;;; k" := (bindM m (λ _, k))
  (at level 100, right associativity, only parsing).

(** [1e12], which compares and hashes as the integer 10^12. *)
Definition unreachable : Z := 10 ^ 12.

(** The loop [while sought_now <= pos], by recursion on the queue.  Once the
    queue is empty every further turn assigns [1e12] again, so the loop
    exits if [pos < 1e12] and never otherwise. *)
Fixpoint catch_up (pos now : Z) (psns : list Z) : outcome (Z * list Z) :=
  if now <=? pos then
    match psns with
    | next :: rest => catch_up pos next rest
    | [] => if unreachable <=? pos then Diverge else Return (unreachable, [])
    end
  else Return (now, psns).

(** [if not pos <= sought_now: ...] *)
Definition adjust_scan (pos : Z) : M unit := λ st,
  if pos <=? sought_now st then (Return tt, st)
  else
    let st :=
      if warning_emitted st then st
      else set_warning_emitted (warn (GapObserved pos (sought_now st)) st) in
    match catch_up pos (sought_now st) (sought_psns st) with
    | Return (now, psns) => (Return tt, set_sought now psns st)
    | Raise e => (Raise e, st)
    | Diverge => (Diverge, st)
    end.

(** [dict(item.split("=") for item in items)]: an item that does not split
    in two raises [ValueError]; a repeated key keeps the last value. *)
Fixpoint info_dict (items : list string) (acc : gmap string string)
  : outcome (gmap string string) :=
  match items with
  | [] => Return acc
  | item :: rest =>
      match split_on "=" item with
      | [k; v] => info_dict rest (<[k := v]> acc)
      | _ => Raise ValueError
      end
  end.

(** The block [if self.infotag == 'auto'] *)
Definition autodetect (infos : gmap string string) (fields : list string) : M unit :=
  st <- get ;;
  if decide (infotag (self st) = Some "auto") then
    if decide ("AD" ∈ fields) then
      modify (set_self (set_tags None (Some "AD") (self st)))
    else if decide (is_Some (infos !! "AD")) then
      modify (set_self (set_tags (Some "AD") (fieldtag (self st)) (self st)))
    else if decide (is_Some (infos !! "BaseCounts4")) then
      modify (set_self (set_tags (Some "BaseCounts4") (fieldtag (self st)) (self st)))
    else raise KeyError
  else ret tt.

(** The block [if self.infotag is not None]; [None] when the branch is not
    taken and [baseCounts] stays unbound. *)
Definition info_counts (pos : Z) (infos : gmap string string) : M (option (list Z)) :=
  st <- get ;;
  match infotag (self st) with
  | Some tag =>
      v <- lift (getitem infos tag) ;;
      match ints (split_on "," v) with
      | Some baseCounts => ret (Some baseCounts)
      | None =>
          modify (warn (IntConversionFailed pos)) ;;;
          ret (Some [0; 0; 0; 0])
      end
  | None => ret None
  end.

(** The block [if self.fieldtag == 'AD'].  [fields.index] raises
    [ValueError] and the subscript of [sampleInfo] raises [IndexError];
    neither is the [KeyError] that the source handles. *)
Definition field_counts (fields sampleInfo : list string)
    (baseCounts : option (list Z)) : M (option (list Z)) :=
  st <- get ;;
  if decide (fieldtag (self st) = Some "AD") then
    i <- lift (list_index "AD" fields) ;;
    v <- lift (index sampleInfo i) ;;
    match ints (split_on "," v) with
    | Some baseCounts => ret (Some baseCounts)
    | None => raise ValueError
    end
  else ret baseCounts.

(** [for alt in alts: counter += 1; basedict[alt] = baseCounts[counter]] *)
Fixpoint scatter (alts : list string) (counter : nat) (baseCounts : list Z)
    (basedict : gmap string Z) : outcome (gmap string Z) :=
  match alts with
  | [] => Return basedict
  | alt :: rest =>
      let counter := S counter in
      c ← index baseCounts counter;
      scatter rest counter baseCounts (<[alt := c]> basedict)
  end.

(** The block [if self.infotag == 'AD' or self.fieldtag == 'AD'] *)
Definition allele_depths (ref : string) (alts : list string) (baseCounts : list Z)
  : outcome (list Z) :=
  let basedict : gmap string Z := {[ "A" := 0; "C" := 0; "G" := 0; "T" := 0 ]} in
  c ← index baseCounts 0;
  basedict ← scatter alts 0 baseCounts (<[ref := c]> basedict);
  a ← getitem basedict "A";
  c ← getitem basedict "C";
  g ← getitem basedict "G";
  t ← getitem basedict "T";
  Return [a; c; g; t].

Definition samtools_counts (ref : string) (alts : list string)
    (baseCounts : option (list Z)) : M (option (list Z)) :=
  st <- get ;;
  if decide (infotag (self st) = Some "AD" ∨ fieldtag (self st) = Some "AD") then
    match baseCounts with
    | Some baseCounts =>
        baseCounts <- lift (allele_depths ref alts baseCounts) ;;
        ret (Some baseCounts)
    | None => raise UnboundLocalError
    end
  else ret baseCounts.

(** [baseFreqs.sort(reverse=True)] *)
Definition sort_reverse (l : list Z) : list Z := merge_sort (flip Z.le) l.

(** [if self.compute_pvalue: pvalue, mlp = self.bt.compute(...)].  Only
    [mlp] is used afterwards. *)
Definition score `{Numerics} (nonmajor depth : Z) : M value := λ st,
  if compute_pvalue (self st) then
    match BinomialTest.compute (bt (self st)) nonmajor depth with
    | (Return (_, mlp), bt') => (Return mlp, set_self (set_bt bt' (self st)) st)
    | (Raise e, bt') => (Raise e, set_self (set_bt bt' (self st)) st)
    | (Diverge, bt') => (Diverge, set_self (set_bt bt' (self st)) st)
    end
  else (Return PyNone, st).

(** The value of [report_base] for one region. *)
Definition report_base (report_minimum_maf : float) (maf : option float) : bool :=
  match maf with
  | None => negb (PrimFloat.ltb 0%float report_minimum_maf)
  | Some maf => negb (PrimFloat.ltb maf report_minimum_maf)
  end.

(** [for roi_name in self.psn2roi[sought_now]].  A Python set of strings
    has no specified iteration order; the model takes the order of
    [elements]. *)
Fixpoint report (roi_names : list string) (row : string → base_row) : M unit :=
  match roi_names with
  | [] => ret tt
  | roi_name :: rest =>
      st <- get ;;
      (if report_base (report_minimum_maf (self st)) (maf (row roi_name))
       then modify (add_row (row roi_name))
       else ret tt) ;;;
      report rest row
  end.

(** How one turn of [for line in f] ends. *)
Inductive ctl : Type := Next | Break.

(** The body of [if pos == sought_now]. *)
Definition found `{Numerics} (pos : Z) (ref alts infos fields sampleInfo : string)
  : M ctl :=
  let alts := filter (λ i, i ∈ ["A"; "T"; "C"; "G"]) (split_on "," alts) in
  infos <- lift (info_dict (split_on ";" infos) ∅) ;;
  let fields := split_on ":" fields in
  let sampleInfo := split_on ":" sampleInfo in
  autodetect infos fields ;;;
  baseCounts <- info_counts pos infos ;;
  baseCounts <- field_counts fields sampleInfo baseCounts ;;
  baseCounts <- samtools_counts ref alts baseCounts ;;
  match baseCounts with
  | None => raise UnboundLocalError
  | Some baseCounts =>
      let baseFreqs := sort_reverse baseCounts in
      match baseFreqs, baseCounts with
      | [_; f1; f2; f3], [a; c; g; t] =>
          let depth := a + c + g + t in
          mlp <- score (f1 + f2 + f3) depth ;;
          maf <- lift (if 0 <? depth
                       then x ← float_of_int f1; y ← float_of_int depth;
                            Return (Some (PrimFloat.div x y))
                       else Return None) ;;
          st <- get ;;
          roi_names <- lift (getitem (psn2roi (self st)) (sought_now st)) ;;
          report (elements roi_names)
            (λ roi_name,
               {| roi_name := roi_name; pos := pos; ref := ref; depth := depth;
                  base_a := a; base_c := c; base_g := g; base_t := t;
                  maf := maf; mlp := mlp |}) ;;;
          st <- get ;;
          match sought_psns st with
          | next :: rest => modify (set_sought next rest) ;;; ret Next
          | [] => ret Break
          end
      | _, _ =>
          (* the message of the [TypeError] reads [self.infos], an attribute
             that no [vcfScan] object has *)
          raise AttributeError
      end
  end.

(** The body of [for line in f]. *)
Definition process_line `{Numerics} (line : string) : M ctl :=
  match line with
  | EmptyString => raise IndexError
  | String c _ =>
      if Ascii.eqb c "#" then ret Next
      else if contains "INDEL" line then ret Next
      else
        match split (strip line) with
        | [chrom; pos; varID; ref; alts; score; filterx; infos; fields; sampleInfo] =>
            match int pos with
            | Some pos =>
                adjust_scan pos ;;;
                st <- get ;;
                if pos =? sought_now st
                then found pos ref alts infos fields sampleInfo
                else ret Next
            | None => raise ValueError
            end
        | _ => raise ValueError
        end
  end.

(** [for line in f: ...] *)
Fixpoint scan_lines `{Numerics} (lines : list string) (truncated : bool) : M unit :=
  match lines with
  | [] => if truncated then raise EOFError else ret tt
  | line :: rest =>
      c <- process_line line ;;
      match c with
      | Next => scan_lines rest truncated
      | Break => ret tt
      end
  end.

(** [sorted(self.psn2roi.keys())] *)
Definition sorted_positions (self : t) : list Z :=
  merge_sort Z.le (elements (dom (psn2roi self))).

(** The [try] block of [_parse]: [sought_psns.popleft()] on an empty queue
    raises the [IndexError] that the first handler is written for. *)
Definition scan_file `{Numerics} (self : t) (vcffile : vcf_file) : outcome unit * scan :=
  let st := {| self := self; sought_now := 0; sought_psns := sorted_positions self;
               warning_emitted := false; resDict := []; emitted := [] |} in
  match sought_psns st with
  | [] => (Raise IndexError, st)
  | now :: rest =>
      let st := set_sought now rest st in
      let st := if now =? 0 then warn ZeroPosition st else st in
      scan_lines (lines vcffile) (truncated vcffile) st
  end.

(** [_parse]: the value returned (or the exception that leaves the method),
    the object afterwards, and the warnings emitted. *)
Definition _parse `{Numerics} (self : t) (vcffile : vcf_file)
  : outcome value * t * list warning :=
  let self := set_bases None self in
  let '(r, st) := scan_file self vcffile in
  match r with
  | Return _ | Raise IndexError =>
      (Return (PyBool true), set_bases (Some (resDict st)) (vcfScan.self st), emitted st)
  | Raise EOFError => (Return (PyBool false), vcfScan.self st, emitted st)
  | Raise e => (Raise e, vcfScan.self st, emitted st)
  | Diverge => (Diverge, vcfScan.self st, emitted st)
  end.

(** [parse]: the result of [self._parse(vcffile)] is dropped, and a method
    that ends without [return] gives [None]. *)
Definition parse `{Numerics} (self : t) (vcffile : vcf_file) (guid : option string)
  : outcome value * t * list warning :=
  let self := set_guid guid self in
  match _parse self vcffile with
  | (Return _, self, ws) => (Return PyNone, self, ws)
  | r => r
  end.

End vcfScan.

(** ** class lineageScan *)

Module lineageScan.

(** One row of [self.region_stats].  A missing [mean_maf] is NaN. *)
Record region_summary : Type := {
  roi_name : string;
  mean_depth : float;
  min_depth : Z;
  max_depth : Z;
  start : Z;
  stop : Z;
  length : Z;
  mean_maf : float;
  total_depth : Z;
  total_nonmajor_depth : Z;
  guid : string
}.

(** The dictionary that [f_statistics] returns.  [F2] and [F47] are
    quotients of two integer column sums; the model keeps the exact
    quotient where numpy rounds it to the nearest binary64 number. *)
Record f_stats : Type := {
  mixture_quality : string;
  F2 : option Q;
  F47 : option Q
}.

Definition bad : f_stats :=
  {| mixture_quality := "bad"; F2 := None; F47 := None |}.

(** The order of [sort_values(by='mean_maf', ascending=False)]: larger
    values first, NaN last. *)
Definition maf_before (x y : float) : bool :=
  PrimFloat.is_nan y || (negb (PrimFloat.is_nan x) && PrimFloat.leb y x).

(** [r1] may stand before [r2] in the sorted table. *)
Definition ranks_before (r1 r2 : region_summary) : Prop :=
  maf_before (mean_maf r1) (mean_maf r2) = true.

Global Instance ranks_before_dec : RelDecision ranks_before.
Proof. intros r1 r2. unfold ranks_before. apply _. Defined.

(** [r] has no [mean_maf]. *)
Definition missing (r : region_summary) : Prop := PrimFloat.is_nan (mean_maf r) = true.

(** [self.region_stats.sort_values(by='mean_maf', ascending=False)].  No
    [kind] is given, so pandas sorts with numpy's quicksort, which is not
    stable: the table does not determine the order among rows of equal
    [mean_maf].  The sort is therefore a parameter, with what pandas gives
    for every table: the rows are those of the table, each may stand before
    the next (larger [mean_maf] first, rows without one last), and the rows
    without [mean_maf], which pandas appends as they stand, keep their
    order. *)
Class Sorting : Type := {
  sort_values : list region_summary → list region_summary;
  sort_values_rows (rows : list region_summary) : sort_values rows ≡ₚ rows;
  sort_values_order (rows : list region_summary) :
    Sorted ranks_before (sort_values rows);
  sort_values_missing (rows : list region_summary) :
    filter missing (sort_values rows) = filter missing rows
}.

(** [df.head(n)] and [df.tail(n)] *)
Definition head {A : Type} (n : nat) (rows : list A) : list A := take n rows.
Definition tail {A : Type} (n : nat) (rows : list A) : list A :=
  drop (List.length rows - n) rows.

(** [sum(column)] *)
Definition sum (column : list Z) : Z := foldr Z.add 0 column.

(** [f_statistics(filename=None)].  The result is [None] when
    [self.region_stats] is [None]: the method then ends without [return]. *)
Definition f_statistics `{Sorting} (region_stats : option (list region_summary))
  : option f_stats :=
  match region_stats with
  | None => None
  | Some region_stats =>
      if (List.length region_stats <? 58)%nat then Some bad
      else
        let sorted_region_stats := sort_values region_stats in
        let f2_denominator := sum (total_depth <$> head 2 sorted_region_stats) in
        let f47_denominator := sum (total_depth <$> tail 47 sorted_region_stats) in
        if (f2_denominator =? 0) || (f47_denominator =? 0) then Some bad
        else
          let f2 :=
            (inject_Z (sum (total_nonmajor_depth <$> head 2 sorted_region_stats))
             / inject_Z f2_denominator)%Q in
          let f47 :=
            (inject_Z (sum (total_nonmajor_depth <$> tail 47 sorted_region_stats))
             / inject_Z f47_denominator)%Q in
          Some {| mixture_quality := "OK"; F2 := Some f2; F47 := Some f47 |}
  end.

End lineageScan.

(** ** class FastaMixtureMarker *)

Module FastaMixtureMarker.

Record t : Type := {
  expectedErrorRate : value;
  mlp_cutoff : float;
  min_maf : float;
  clustering_cutoff : option Z;
  bt : BinomialTest.t
}.

Definition iupac : gmap string ascii :=
  list_to_map
    [("AG", "r"%char); ("GA", "R"%char);
     ("AT", "w"%char); ("TA", "W"%char);
     ("CT", "y"%char); ("TC", "Y"%char);
     ("AC", "m"%char); ("CA", "M"%char);
     ("CG", "s"%char); ("GC", "S"%char);
     ("GT", "k"%char); ("TG", "K"%char)].

Definition __init__ (expectedErrorRate : value) (mlp_cutoff : float)
    (clustering_cutoff : option Z) (min_maf : float) : outcome t :=
  bt ← BinomialTest.__init__ expectedErrorRate;
  Return {| expectedErrorRate := expectedErrorRate; mlp_cutoff := mlp_cutoff;
            min_maf := min_maf; clustering_cutoff := clustering_cutoff;
            bt := bt |}.

Definition set_bt (b : BinomialTest.t) (self : t) : t :=
  {| expectedErrorRate := expectedErrorRate self; mlp_cutoff := mlp_cutoff self;
     min_maf := min_maf self; clustering_cutoff := clustering_cutoff self;
     bt := b |}.

(** One row of the table read from [mixed_bases_file], [pos] being its
    index label.  An empty [mlp] cell is NaN. *)
Record call_row : Type := {
  pos : Z;
  depth : Z;
  base_a : Z;
  base_c : Z;
  base_g : Z;
  base_t : Z;
  maf : float;
  mlp : float;
  nonmajor : Z
}.

(** [variants_to_update]: the key is the 0-indexed position, which is also
    the ['pos'] entry of the value, so an entry is the key and the
    ['base'].  The entries are kept in insertion order, the order of the
    rows of the data frame built from the dictionary. *)
Definition calls : Type := list (Z * ascii).

(** [d[k] = v] on a dictionary kept in insertion order *)
Fixpoint dict_set (k : Z) (v : ascii) (d : calls) : calls :=
  match d with
  | [] => [(k, v)]
  | (k', v') :: d' => if k' =? k then (k, v) :: d' else (k', v') :: dict_set k v d'
  end.

(** [d[k]] *)
Fixpoint dict_get (k : Z) (d : calls) : outcome ascii :=
  match d with
  | [] => Raise KeyError
  | (k', v') :: d' => if k' =? k then Return v' else dict_get k d'
  end.

(** [base.sort_values(by='depth', ascending=False)] on the four rows
    A, C, G, T: larger depths first, equal depths in the order they had. *)
Fixpoint insert_by_depth (x : string * Z) (l : list (string * Z)) : list (string * Z) :=
  match l with
  | [] => [x]
  | y :: l' => if snd y <? snd x then x :: y :: l' else y :: insert_by_depth x l'
  end.

Definition sort_by_depth (l : list (string * Z)) : list (string * Z) :=
  foldl (λ acc x, insert_by_depth x acc) [] l.

(** [''.join(base.head(2)['base'].tolist())] *)
Definition top2 (r : call_row) : string :=
  let base := sort_by_depth [("A", base_a r); ("C", base_c r);
                             ("G", base_g r); ("T", base_t r)] in
  foldr (λ x s, fst x +:+ s) "" (take 2 base).

(** [mlp >= self.mlp_cutoff] for the [mlp] that [compute] returned *)
Definition ge_cutoff (mlp : value) (cutoff : float) : outcome bool :=
  match mlp with
  | PyFloat x => Return (PrimFloat.leb cutoff x)
  | PyInt z => x ← float_of_int z; Return (PrimFloat.leb cutoff x)
  | PyBool b => Return (PrimFloat.leb cutoff (if b then 1 else 0)%float)
  | PyNone | PyStr _ => Raise TypeError
  end.

(** The body of [for ix in df.index] for the row [r], [index] being all
    labels of the table.  With a repeated label [df.loc[ix, 'maf']] is a
    Series, whose truth value [if] refuses with [ValueError]. *)
Definition collect_row `{Numerics} (index : list Z) (r : call_row)
    (acc : calls * t) : outcome calls * t :=
  let '(variants_to_update, self) := acc in
  let ix := pos r in
  if (1 <? List.length (filter (λ j, j = ix) index))%nat then (Raise ValueError, self)
  else if PrimFloat.leb (min_maf self) (maf r) then
    let '(mlp, self) :=
      if PrimFloat.is_nan (mlp r) then
        match BinomialTest.compute (bt self) (nonmajor r) (depth r) with
        | (Return (_, mlp), bt') => (Return mlp, set_bt bt' self)
        | (Raise e, bt') => (Raise e, set_bt bt' self)
        | (Diverge, bt') => (Diverge, set_bt bt' self)
        end
      else (Return (PyFloat (mlp r)), self) in
    (mlp ← mlp;
     above ← ge_cutoff mlp (mlp_cutoff self);
     if above : bool then
       base ← getitem iupac (top2 r);
       Return (dict_set (ix - 1) base variants_to_update)
     else Return variants_to_update,
     self)
  else (Return variants_to_update, self).

(** [for ix in df.index: ...] *)
Fixpoint collect_rows `{Numerics} (index : list Z) (rows : list call_row)
    (acc : calls * t) : outcome calls * t :=
  match rows with
  | [] => (Return (fst acc), snd acc)
  | r :: rest =>
      match collect_row index r acc with
      | (Return variants_to_update, self) =>
          collect_rows index rest (variants_to_update, self)
      | res => res
      end
  end.

Definition collect `{Numerics} (self : t) (df : list call_row) : outcome calls * t :=
  collect_rows (pos <$> df) df ([], self).

(** [bases = sorted(variants_to_update.keys())] *)
Definition sorted_keys (variants_to_update : calls) : list Z :=
  merge_sort Z.le (fst <$> variants_to_update).

(** [range(1, len(bases) - 1)] *)
Definition interior (bases : list Z) : list nat := seq 1 (List.length bases - 2).

(** The body of the clustering loop for one [i]. *)
Definition suppress (cutoff : Z) (bases : list Z) (variants_to_update : calls)
    (i : nat) : calls :=
  let v1 :=
    if bases !!! i - bases !!! (i - 1)%nat <=? cutoff
    then dict_set (bases !!! i) "N"%char variants_to_update
    else variants_to_update in
  if bases !!! (i + 1)%nat - bases !!! i <=? cutoff
  then dict_set (bases !!! i) "N"%char v1
  else v1.

(** [if self.clustering_cutoff is not None: for i in range(...): ...] *)
Definition eliminate_clustered (clustering_cutoff : option Z) (bases : list Z)
    (variants_to_update : calls) : calls :=
  match clustering_cutoff with
  | Some cutoff => foldl (suppress cutoff bases) variants_to_update (interior bases)
  | None => variants_to_update
  end.

(** [for i in range(1, len(bases) - 1): seq[bases[i]] = ...['base']] *)
Fixpoint write_calls (bases : list Z) (variants_to_update : calls)
    (range : list nat) (seq : list ascii) : outcome (list ascii) :=
  match range with
  | [] => Return seq
  | i :: rest =>
      base ← dict_get (bases !!! i) variants_to_update;
      seq ← setitem seq (bases !!! i) base;
      write_calls bases variants_to_update rest seq
  end.

(** The two [df.query] filters.  A data frame built from an empty
    dictionary has no rows, and stays as it is. *)
Definition accepted (variants_to_update : calls) : calls :=
  filter (λ e, snd e ≠ "N"%char ∧ 0 < fst e) variants_to_update.

(** The part of [mark_mixed] after the loop over the table. *)
Definition annotate (clustering_cutoff : option Z) (variants_to_update : calls)
    (seq : list ascii) : outcome (calls * string) :=
  let bases := sorted_keys variants_to_update in
  let variants_to_update := eliminate_clustered clustering_cutoff bases variants_to_update in
  seq ← write_calls bases variants_to_update (interior bases) seq;
  Return (accepted variants_to_update, string_of_list_ascii seq).

(** [mark_mixed], from the point where the sequence has been read: [seq]
    is the sequence of the record, [df] the table read from
    [mixed_bases_file], [None] when [read_csv] raised [EmptyDataError]. *)
Definition mark_mixed `{Numerics} (self : t) (seq : string) (df : option (list call_row))
  : outcome (option calls * string) * t :=
  match df with
  | None => (Return (None, seq), self)
  | Some df =>
      match collect self df with
      | (Return variants_to_update, self) =>
          ('(df, seq) ← annotate (clustering_cutoff self) variants_to_update
                          (list_ascii_of_string seq);
           Return (Some df, seq),
           self)
      | (Raise e, self) => (Raise e, self)
      | (Diverge, self) => (Diverge, self)
      end
  end.

End FastaMixtureMarker.

(** ** vcfScan._parse, continued: the summary by region *)

(** The means that pandas computes in binary64 arithmetic: the mean of an
    integer column, and the mean of a float column in which missing values
    are skipped (NaN when all are missing). *)
Class Means : Type := {
  mean : list Z → float;
  mean_skipna : list (option float) → float
}.

Module summary.

(** The order in which [groupby] arranges its keys: strings compare by
    code point. *)
Definition name_le (x y : string) : Prop := String.leb x y = true.

Global Instance name_le_dec : RelDecision name_le.
Proof. intros x y. unfold name_le. apply _. Defined.

(** The keys of [self.bases.groupby(['roi_name'])], in ascending order. *)
Definition group_keys (bases : list vcfScan.base_row) : list string :=
  merge_sort name_le (remove_dups (vcfScan.roi_name <$> bases)).

(** The rows of one group, in the order of the table. *)
Definition group (bases : list vcfScan.base_row) (name : string)
  : list vcfScan.base_row :=
  filter (λ r, vcfScan.roi_name r = name) bases.

(** [min()] and [max()] of a column of a group; a group has a row. *)
Definition minimum (column : list Z) : Z :=
  match column with
  | [] => 0
  | x :: rest => foldl Z.min x rest
  end.

Definition maximum (column : list Z) : Z :=
  match column with
  | [] => 0
  | x :: rest => foldl Z.max x rest
  end.

(** [self.bases[['base_a', 'base_c', 'base_g', 'base_t']].max(axis=1)] *)
Definition most_common (r : vcfScan.base_row) : Z :=
  Z.max (Z.max (vcfScan.base_a r) (vcfScan.base_c r))
        (Z.max (vcfScan.base_g r) (vcfScan.base_t r)).

(** [self.bases['depth'] - self.bases['most_common']] *)
Definition nonmajor (r : vcfScan.base_row) : Z := vcfScan.depth r - most_common r.

(** [groupby(['roi_name'])['maf'].mean()] for one group.  When no row of the
    table has a [maf], the column holds no number, [mean] raises the
    [DataError] that the source handles, and [mean_maf] is [None] for every
    group. *)
Definition group_mean_maf `{Means} (bases rows : list vcfScan.base_row) : float :=
  if forallb (λ r, bool_decide (vcfScan.maf r = None)) bases then nan
  else mean_skipna (vcfScan.maf <$> rows).

(** The row of [df] for the group [name]; [guid] is the column that
    [lineageScan.parse] adds. *)
Definition summarise `{Means} (guid : string) (bases : list vcfScan.base_row)
    (name : string) : lineageScan.region_summary :=
  let rows := group bases name in
  {| lineageScan.roi_name := name;
     lineageScan.mean_depth := mean (vcfScan.depth <$> rows);
     lineageScan.min_depth := minimum (vcfScan.depth <$> rows);
     lineageScan.max_depth := maximum (vcfScan.depth <$> rows);
     lineageScan.start := minimum (vcfScan.pos <$> rows);
     lineageScan.stop := maximum (vcfScan.pos <$> rows);
     lineageScan.length := Z.of_nat (List.length rows);
     lineageScan.mean_maf := group_mean_maf bases rows;
     lineageScan.total_depth := lineageScan.sum (vcfScan.depth <$> rows);
     lineageScan.total_nonmajor_depth := lineageScan.sum (nonmajor <$> rows);
     lineageScan.guid := guid |}.

(** [self.region_stats] as the end of [_parse] computes it from
    [self.bases]: [None] when the table has no row. *)
Definition region_stats `{Means} (guid : string) (bases : list vcfScan.base_row)
  : option (list lineageScan.region_summary) :=
  match bases with
  | [] => None
  | _ => Some (summarise guid bases <$> group_keys bases)
  end.

End summary.

(** ** lineageScan.parse *)

Module lineage.

(** [self.lineage_defining['lineage'].unique()]: the names in the order of
    their first appearance, [seen] being the names met before. *)
Fixpoint unique (seen : list string) (names : list string) : list string :=
  match names with
  | [] => []
  | name :: rest =>
      if decide (name ∈ seen) then unique seen rest
      else name :: unique (name :: seen) rest
  end.

(** The positions of the lineage [roi_name] in the table of lineage
    defining positions, whose rows are pairs of a lineage and a position,
    less the excluded ones. *)
Definition roi_psns (lineage_defining : list (string * Z)) (excluded : gset Z)
    (roi_name : string) : gset Z :=
  list_to_set (snd <$> filter (λ row, fst row = roi_name) lineage_defining) ∖ excluded.

(** [for roi_name in ...: self.add_roi(roi_name, roi_psns)].  A Python set
    has no specified iteration order; the model takes the order of
    [elements]. *)
Fixpoint add_lineages (lineage_defining : list (string * Z)) (excluded : gset Z)
    (self : vcfScan.t) (names : list string) : vcfScan.t * option exn :=
  match names with
  | [] => (self, None)
  | roi_name :: rest =>
      match vcfScan.add_roi self roi_name
              (elements (roi_psns lineage_defining excluded roi_name)) with
      | (self, None) => add_lineages lineage_defining excluded self rest
      | raised => raised
      end
  end.

(** [lineageScan.__init__], from the point where the two files have been
    read: [lineage_defining] is the table of the lineage definition file,
    [excluded] the set of positions of the exclusion file, empty without
    such a file.  [self.bt] is assigned last; while the regions are added
    the field holds a tester that no code reads. *)
Definition __init__ (expectedErrorRate : value) (lineage_defining : list (string * Z))
    (excluded : gset Z) (infotag : option string) : outcome vcfScan.t :=
  let self :=
    {| vcfScan.roi2psn := ∅; vcfScan.psn2roi := ∅;
       vcfScan.infotag := infotag; vcfScan.fieldtag := None;
       vcfScan.report_minimum_maf := 0%float; vcfScan.compute_pvalue := true;
       vcfScan.expectedErrorRate := expectedErrorRate;
       vcfScan.bt := {| BinomialTest.expectedErrorRate := 0%float;
                        BinomialTest.p_values := ∅;
                        BinomialTest.tests_run := [] |};
       vcfScan.guid := None; vcfScan.bases := None |} in
  match add_lineages lineage_defining excluded self
          (unique [] (fst <$> lineage_defining)) with
  | (self, None) =>
      bt ← BinomialTest.__init__ expectedErrorRate;
      Return (vcfScan.set_bt bt self)
  | (_, Some e) => Raise e
  end.

(** [lineageScan.parse]: the value returned or the exception raised,
    [self.region_stats] afterwards, the object and the warnings.  When
    [_parse] returns [False] it has left [self.region_stats] at [None], as
    it does for a table without rows; the assignment of the [guid] column
    to [None] raises [TypeError]. *)
Definition parse `{Numerics} `{Means} (self : vcfScan.t) (vcffile : vcfScan.vcf_file)
    (guid : string)
  : outcome value * option (list lineageScan.region_summary) * vcfScan.t
    * list vcfScan.warning :=
  match vcfScan._parse self vcffile with
  | (Return _, self, ws) =>
      match vcfScan.bases self ≫= summary.region_stats guid with
      | Some region_stats => (Return PyNone, Some region_stats, self, ws)
      | None => (Raise TypeError, None, self, ws)
      end
  | (Raise e, self, ws) => (Raise e, None, self, ws)
  | (Diverge, self, ws) => (Diverge, None, self, ws)
  end.

End lineage.

(** * Statements *)

(** ** Vocabulary of the statements *)

(** [0.001], the default of [expectedErrorRate], as the binary64 number that
    Python reads. *)
Definition default_error_rate : float := 0x1.0624dd2f1a9fcp-10%float.

(** [vcfScan()] with the defaults of its arguments. *)
Definition default_scanner : vcfScan.t :=
  {| vcfScan.roi2psn := ∅; vcfScan.psn2roi := ∅;
     vcfScan.infotag := Some "BaseCounts4"; vcfScan.fieldtag := None;
     vcfScan.report_minimum_maf := 0%float; vcfScan.compute_pvalue := true;
     vcfScan.expectedErrorRate := PyFloat default_error_rate;
     vcfScan.bt := {| BinomialTest.expectedErrorRate := default_error_rate;
                      BinomialTest.p_values := ∅;
                      BinomialTest.tests_run := [] |};
     vcfScan.guid := None; vcfScan.bases := None |}.

(** A real number of the open interval (0,1), as a Python value. *)
Definition in_open_unit_interval (v : value) : bool :=
  match v with
  | PyFloat x => PrimFloat.ltb 0%float x && PrimFloat.ltb x 1%float
  | _ => false
  end.

(** [isinstance(v, float)] *)
Definition is_float (v : value) : bool :=
  match v with PyFloat _ => true | _ => false end.

(** The two directions of the region index agree. *)
Definition consistent (self : vcfScan.t) : Prop :=
  ∀ (r : string) (p : Z),
    (∃ ps, vcfScan.roi2psn self !! r = Some ps ∧ p ∈ ps) ↔
    (∃ rs, vcfScan.psn2roi self !! p = Some rs ∧ r ∈ rs).

(** No comma occurs in [s]. *)
Fixpoint comma_free (s : string) : bool :=
  match s with
  | EmptyString => true
  | String c s' => negb (Ascii.eqb c ",") && comma_free s'
  end.

(** [BinomialTest(x)] *)
Definition new_tester (x : float) : BinomialTest.t :=
  {| BinomialTest.expectedErrorRate := x;
     BinomialTest.p_values := ∅;
     BinomialTest.tests_run := [] |}.

(** The instance [BinomialTest(x)] after the calls [compute(m, d)] for the
    pairs [(m, d)] of [calls], in this order. *)
Definition tester_after `{Numerics} (x : float) (calls : list (Z * Z)) : BinomialTest.t :=
  foldl (λ self c, (BinomialTest.compute self c.1 c.2).2) (new_tester x) calls.

(** What the cache holds: the result of the test for every pair the test
    was run for, nothing else, and no pair twice. *)
Definition cache_sound `{Numerics} (self : BinomialTest.t) : Prop :=
  (∀ k p, BinomialTest.p_values self !! k = Some p →
     ∃ m d, k = BinomialTest.key m d ∧ (m, d) ∈ BinomialTest.tests_run self ∧
            binom_test m d (BinomialTest.expectedErrorRate self) = Return p) ∧
  (∀ m d, (m, d) ∈ BinomialTest.tests_run self →
     is_Some (BinomialTest.p_values self !! BinomialTest.key m d)) ∧
  NoDup (BinomialTest.tests_run self).

(** A line of a VCF file: the ten columns separated by tabs, and the line
    feed. *)
Definition vcf_line (chrom pos varID ref alts score filterx infos fields sampleInfo : string)
  : string :=
  let tab := String "009"%char "" in
  chrom +:+ tab +:+ pos +:+ tab +:+ varID +:+ tab +:+ ref +:+ tab +:+ alts +:+ tab
  +:+ score +:+ tab +:+ filterx +:+ tab +:+ infos +:+ tab +:+ fields +:+ tab
  +:+ sampleInfo +:+ String "010"%char "".

(** A record of a single-sample file that carries the four depths in
    [BaseCounts4]. *)
Definition sample_line (chrom pos infos : string) : string :=
  vcf_line chrom pos "." "A" "G" "50" "PASS" infos "GT" "0/1".

(** A stand-in for the numerical library in closed examples. *)
Definition sample_numerics : Numerics.
Proof.
  refine {| binom_test := λ x n p,
              if n <? x then Raise ValueError
              else match rate_kind_of p with
                   | Probability => Return 0.5%float
                   | OutOfRange => Raise ValueError
                   | NotANumber => Return nan
                   end;
            math_log := λ x _, x |}.
  - intros x n p _ _ Hlt. by destruct (Z.ltb_spec n x); [|lia].
  - intros x n p _ _ Hle Hp. destruct (Z.ltb_spec n x); [lia|]. by rewrite Hp.
  - intros x n p _ Hx _ Hp. destruct (Z.ltb_spec n x); [lia|]. rewrite Hp. by eexists.
  - intros x n p v. destruct (n <? x); [done|].
    destruct (rate_kind_of p); [|done|]; by intros [= <-].
Defined.

(** The lines that the loop passes over before it reads any column: a line
    that starts with [#], a line in which [INDEL] occurs. *)
Definition skipped (line : string) : bool :=
  match line with
  | String c _ => Ascii.eqb c "#" || contains "INDEL" line
  | EmptyString => false
  end.

(** The position of a line that splits into ten columns, the second of which
    reads as an integer. *)
Definition record_position (line : string) : option Z :=
  match split (strip line) with
  | [_; pos; _; _; _; _; _; _; _; _] => int pos
  | _ => None
  end.

(** A line that cannot match a sought position of [self]: it is passed over,
    or it is a record at a legal coordinate which no region refers to. *)
Definition absent (self : vcfScan.t) (line : string) : Prop :=
  skipped line = true ∨
  ∃ pos, record_position line = Some pos ∧ pos < vcfScan.unreachable ∧
         pos ∉ dom (vcfScan.psn2roi self).

(** The number of gap warnings among the warnings emitted. *)
Definition gap_warnings (ws : list vcfScan.warning) : nat :=
  List.length (List.filter vcfScan.is_gap ws).

(** The position of the first record among [lines] that lies beyond
    [now]. *)
Fixpoint first_beyond (now : Z) (lines : list string) : option Z :=
  match lines with
  | [] => None
  | line :: rest =>
      if skipped line then first_beyond now rest
      else
        match record_position line with
        | Some pos => if now <? pos then Some pos else first_beyond now rest
        | None => first_beyond now rest
        end
  end.

(** The warnings of a scan that meets none of its positions: the warning
    about position 0 when this is the first position sought, then one gap
    warning, for the first record beyond the first position sought. *)
Definition gap_notes (self : vcfScan.t) (lines : list string) : list vcfScan.warning :=
  match vcfScan.sorted_positions self with
  | [] => []
  | now :: _ =>
      (if now =? 0 then [vcfScan.ZeroPosition] else []) ++
      match first_beyond now lines with
      | Some pos => [vcfScan.GapObserved pos now]
      | None => []
      end
  end.

(** The state in which the catching up starts: the gap warning is out. *)
Definition noted (pos : Z) (st : vcfScan.scan) : vcfScan.scan :=
  if vcfScan.warning_emitted st then st
  else vcfScan.set_warning_emitted
         (vcfScan.warn (vcfScan.GapObserved pos (vcfScan.sought_now st)) st).

(** The flag [warning_emitted] tells whether the gap warning is out. *)
Definition gap_flag_agrees (st : vcfScan.scan) : Prop :=
  gap_warnings (vcfScan.emitted st) = if vcfScan.warning_emitted st then 1%nat else 0%nat.

(** Code that neither writes the flag nor emits a gap warning. *)
Definition quiet {A : Type} (m : vcfScan.M A) : Prop :=
  ∀ st, vcfScan.warning_emitted (m st).2 = vcfScan.warning_emitted st ∧
        List.filter vcfScan.is_gap (vcfScan.emitted (m st).2)
        = List.filter vcfScan.is_gap (vcfScan.emitted st).

(** The scan is still waiting for positions of [D] and has no row. *)
Definition waiting (D : gset Z) (st : vcfScan.scan) : Prop :=
  (vcfScan.sought_now st ∈ D ∨ vcfScan.sought_now st = vcfScan.unreachable) ∧
  Forall (λ q, q ∈ D) (vcfScan.sought_psns st) ∧
  vcfScan.resDict st = [].

(** A summary row as the aggregation of [_parse] produces it from
    non-negative depths: the nonmajor depth of a region is between 0 and its
    total depth. *)
Definition plausible (r : lineageScan.region_summary) : Prop :=
  0 ≤ lineageScan.total_nonmajor_depth r ≤ lineageScan.total_depth r.

(** A table of 60 regions: region [i] has mean maf 2^-i, total depth 100 and
    nonmajor depth [i]. *)
Definition sample_table : list lineageScan.region_summary :=
  (λ i : nat,
     {| lineageScan.roi_name := pretty i;
        lineageScan.mean_depth := 100%float;
        lineageScan.min_depth := 100; lineageScan.max_depth := 100;
        lineageScan.start := Z.of_nat i; lineageScan.stop := Z.of_nat i;
        lineageScan.length := 1;
        lineageScan.mean_maf := Z.ldexp 1%float (- Z.of_nat i);
        lineageScan.total_depth := 100;
        lineageScan.total_nonmajor_depth := Z.of_nat i;
        lineageScan.guid := "sample" |}) <$> seq 0 60.

(** A stable sort for closed examples: a row is put before the first row
    of the sorted rest that it may stand before, so that rows of equal
    [mean_maf], and rows without one, stay in table order. *)
Fixpoint insert_row (r : lineageScan.region_summary)
    (sorted : list lineageScan.region_summary) : list lineageScan.region_summary :=
  match sorted with
  | [] => [r]
  | r' :: rest =>
      if lineageScan.maf_before (lineageScan.mean_maf r) (lineageScan.mean_maf r')
      then r :: sorted
      else r' :: insert_row r rest
  end.

Definition stable_sort (rows : list lineageScan.region_summary)
  : list lineageScan.region_summary :=
  foldr insert_row [] rows.

Definition sample_sorting : lineageScan.Sorting.
Proof.
  refine {| lineageScan.sort_values := stable_sort |}.
  - assert (Hins : ∀ r l, insert_row r l ≡ₚ r :: l).
    { intros r l. induction l as [|r' l IH]; simpl; [done|].
      destruct (lineageScan.maf_before _ _); [done|].
      rewrite IH. apply Permutation_swap. }
    intros rows. induction rows as [|r rows IH]; simpl; [done|].
    by rewrite Hins, IH.
  - (* the comparison of two binary64 numbers, neither NaN, is total; this
       is read off the specification of the primitive comparison *)
    assert (Hleb : ∀ f1 f2 : spec_float,
               f1 ≠ S754_nan → f2 ≠ S754_nan →
               SFleb f1 f2 = true ∨ SFleb f2 f1 = true).
    { intros f1 f2 H1 H2. unfold SFleb.
      destruct f1 as [s1|s1| |s1 m1 e1], f2 as [s2|s2| |s2 m2 e2]; try done; simpl;
        try (destruct s1, s2; auto; fail); try (destruct s1; auto; fail);
        try (destruct s2; auto; fail).
      destruct s1, s2; auto;
        rewrite (Z.compare_antisym e1 e2);
        (destruct (e1 ?= e2) eqn:He; simpl; auto);
        change (Pos.compare_cont Eq m2 m1) with (m2 ?= m1)%positive;
        change (Pos.compare_cont Eq m1 m2) with (m1 ?= m2)%positive;
        rewrite (Pos.compare_antisym m1 m2);
        destruct (m1 ?= m2)%positive; simpl; auto. }
    assert (Hnan : ∀ x, PrimFloat.is_nan x = false → Prim2SF x ≠ S754_nan).
    { intros x. unfold PrimFloat.is_nan. rewrite FloatAxioms.eqb_spec.
      intros Hx Hx'. rewrite Hx' in Hx. discriminate Hx. }
    assert (Htotal : ∀ x y, lineageScan.maf_before x y = false →
                            lineageScan.maf_before y x = true).
    { intros x y. unfold lineageScan.maf_before.
      destruct (PrimFloat.is_nan y) eqn:Hy; [done|].
      destruct (PrimFloat.is_nan x) eqn:Hx; [done|]. simpl.
      rewrite !FloatAxioms.leb_spec.
      destruct (Hleb (Prim2SF x) (Prim2SF y)) as [Hle|Hle]; auto.
      intros Hle'. by rewrite Hle in Hle'. }
    assert (Hins : ∀ r l, Sorted lineageScan.ranks_before l →
                          Sorted lineageScan.ranks_before (insert_row r l)).
    { intros r l Hl. induction l as [|r' l IH]; simpl; [by repeat constructor|].
      destruct (lineageScan.maf_before _ _) eqn:Hr.
      - constructor; [done|]. by constructor.
      - apply Sorted_inv in Hl as [Hl Hhd]. constructor; [by apply IH|].
        destruct l as [|r'' l]; simpl.
        + constructor. by apply Htotal.
        + destruct (lineageScan.maf_before _ (lineageScan.mean_maf r''));
            constructor; [by apply Htotal|by apply HdRel_inv in Hhd]. }
    intros rows. induction rows as [|r rows IH]; simpl; [constructor|].
    by apply Hins.
  - assert (Hins : ∀ r l, filter lineageScan.missing (insert_row r l)
                          = filter lineageScan.missing (r :: l)).
    { intros r l. induction l as [|r' l IH]; simpl; [done|].
      destruct (lineageScan.maf_before _ _) eqn:Hr; [done|].
      assert (Hr' : ¬ lineageScan.missing r').
      { unfold lineageScan.missing, lineageScan.maf_before in *. intros Hr'.
        by rewrite Hr' in Hr. }
      rewrite (filter_cons_False _ r') by done. rewrite IH.
      rewrite !filter_cons. by destruct (decide (lineageScan.missing r')). }
    intros rows. induction rows as [|r rows IH]; simpl; [done|].
    rewrite Hins, !filter_cons. by rewrite IH.
Defined.

(** A table of 58 equal rows in which the nonmajor depth, 2, is above the
    total depth, 1. *)
Definition overcounted_table : list lineageScan.region_summary :=
  replicate 58
    {| lineageScan.roi_name := "region";
       lineageScan.mean_depth := 1%float;
       lineageScan.min_depth := 1; lineageScan.max_depth := 1;
       lineageScan.start := 1; lineageScan.stop := 1;
       lineageScan.length := 1;
       lineageScan.mean_maf := 0.5%float;
       lineageScan.total_depth := 1;
       lineageScan.total_nonmajor_depth := 2;
       lineageScan.guid := "sample" |}.

(** [FastaMixtureMarker(0.001, 6.5, clustering_cutoff=5)] *)
Definition sample_marker : FastaMixtureMarker.t :=
  {| FastaMixtureMarker.expectedErrorRate := PyFloat default_error_rate;
     FastaMixtureMarker.mlp_cutoff := 6.5%float;
     FastaMixtureMarker.min_maf := 0%float;
     FastaMixtureMarker.clustering_cutoff := Some 5;
     FastaMixtureMarker.bt := new_tester default_error_rate |}.

(** A row of the table at the 1-indexed position [pos] with the depths
    [a], [c], [g], [t], minor-allele frequency 0.25 and score 10. *)
Definition sample_call (pos a c g t : Z) : FastaMixtureMarker.call_row :=
  {| FastaMixtureMarker.pos := pos;
     FastaMixtureMarker.depth := a + c + g + t;
     FastaMixtureMarker.base_a := a; FastaMixtureMarker.base_c := c;
     FastaMixtureMarker.base_g := g; FastaMixtureMarker.base_t := t;
     FastaMixtureMarker.maf := 0.25%float;
     FastaMixtureMarker.mlp := 10%float;
     FastaMixtureMarker.nonmajor := a + c + g + t - Z.max (Z.max a c) (Z.max g t) |}.

(** The sequence of the examples. *)
Definition thirty_A : string := "AAAAAAAAAAAAAAAAAAAAAAAAAAAAAA".

(** [add_roi] for each region of [regions] in turn, whether the call raises
    or not. *)
Definition add_rois (self : vcfScan.t) (regions : list (string * list Z)) : vcfScan.t :=
  foldl (λ self region, (vcfScan.add_roi self region.1 region.2).1) self regions.

(** The depth that a row of the table gives for a base. *)
Definition base_depth (r : FastaMixtureMarker.call_row) (base : ascii) : Z :=
  if Ascii.eqb base "A" then FastaMixtureMarker.base_a r
  else if Ascii.eqb base "C" then FastaMixtureMarker.base_c r
  else if Ascii.eqb base "G" then FastaMixtureMarker.base_g r
  else if Ascii.eqb base "T" then FastaMixtureMarker.base_t r
  else 0.

(** The two tests of [mark_mixed] on a row whose [mlp] cell is filled:
    [maf >= self.min_maf] and [mlp >= self.mlp_cutoff]. *)
Definition passes (self : FastaMixtureMarker.t) (r : FastaMixtureMarker.call_row) : bool :=
  PrimFloat.leb (FastaMixtureMarker.min_maf self) (FastaMixtureMarker.maf r) &&
  PrimFloat.leb (FastaMixtureMarker.mlp_cutoff self) (FastaMixtureMarker.mlp r).

(** The candidate call of a row: its 0-indexed position and the IUPAC code
    of its two most frequent bases. *)
Definition call_of (r : FastaMixtureMarker.call_row) : Z * ascii :=
  (FastaMixtureMarker.pos r - 1,
   default "N"%char (FastaMixtureMarker.iupac !! FastaMixtureMarker.top2 r)).

(** What a row of the table contributes to the candidates: the entry [e]
    is the call of the row [r], which passed the tests of [mark_mixed]. *)
Definition from_row (self : FastaMixtureMarker.t) (r : FastaMixtureMarker.call_row)
    (e : Z * ascii) : Prop :=
  FastaMixtureMarker.pos r = e.1 + 1 ∧
  PrimFloat.leb (FastaMixtureMarker.min_maf self) (FastaMixtureMarker.maf r) = true ∧
  (PrimFloat.is_nan (FastaMixtureMarker.mlp r) = false →
   PrimFloat.leb (FastaMixtureMarker.mlp_cutoff self) (FastaMixtureMarker.mlp r) = true) ∧
  FastaMixtureMarker.iupac !! FastaMixtureMarker.top2 r = Some e.2.

(** A row of the table with the given [maf] and [mlp] cells. *)
Definition scored_call (pos a c g t : Z) (maf mlp : float) : FastaMixtureMarker.call_row :=
  {| FastaMixtureMarker.pos := pos;
     FastaMixtureMarker.depth := a + c + g + t;
     FastaMixtureMarker.base_a := a; FastaMixtureMarker.base_c := c;
     FastaMixtureMarker.base_g := g; FastaMixtureMarker.base_t := t;
     FastaMixtureMarker.maf := maf;
     FastaMixtureMarker.mlp := mlp;
     FastaMixtureMarker.nonmajor := a + c + g + t - Z.max (Z.max a c) (Z.max g t) |}.

(** A specification of a piece of code that runs on the scan state: from a
    state in [P], a normal end with the value [a] leaves a state in [Q a],
    and an exception (or a loop that does not exit) a state in [E]. *)
Definition hoare {A : Type} (P : vcfScan.scan → Prop) (m : vcfScan.M A)
    (Q : A → vcfScan.scan → Prop) (E : vcfScan.scan → Prop) : Prop :=
  ∀ st, P st →
    match m st with
    | (Return a, st') => Q a st'
    | (_, st') => E st'
    end.

(** Code that keeps [P], however it ends. *)
Definition keeps {A : Type} (P : vcfScan.scan → Prop) (m : vcfScan.M A) : Prop :=
  hoare P m (λ _, P) P.

(** What [_parse] leaves of the object [self0] in [self]: the regions, the
    thresholds, the error rate and the key are the same, no cached p-value
    is lost, and the tags are the same unless [infotag] asked for
    detection. *)
Definition settings_kept (self0 self : vcfScan.t) : Prop :=
  vcfScan.roi2psn self = vcfScan.roi2psn self0 ∧
  vcfScan.psn2roi self = vcfScan.psn2roi self0 ∧
  vcfScan.report_minimum_maf self = vcfScan.report_minimum_maf self0 ∧
  vcfScan.compute_pvalue self = vcfScan.compute_pvalue self0 ∧
  vcfScan.expectedErrorRate self = vcfScan.expectedErrorRate self0 ∧
  vcfScan.guid self = vcfScan.guid self0 ∧
  BinomialTest.expectedErrorRate (vcfScan.bt self)
  = BinomialTest.expectedErrorRate (vcfScan.bt self0) ∧
  BinomialTest.p_values (vcfScan.bt self0) ⊆ BinomialTest.p_values (vcfScan.bt self) ∧
  (vcfScan.infotag self0 ≠ Some "auto" →
   vcfScan.infotag self = vcfScan.infotag self0 ∧
   vcfScan.fieldtag self = vcfScan.fieldtag self0).

(** The state of a scan of [self0]: the settings are kept and [self.bases]
    is still [None]. *)
Definition scanning (self0 : vcfScan.t) (st : vcfScan.scan) : Prop :=
  settings_kept self0 (vcfScan.self st) ∧ vcfScan.bases (vcfScan.self st) = None.

(** The regions that [self] registers for the position [p]. *)
Definition regions_of (self : vcfScan.t) (p : Z) : gset string :=
  default ∅ (vcfScan.psn2roi self !! p).

(** The row [r] under another region name. *)
Definition rename (name : string) (r : vcfScan.base_row) : vcfScan.base_row :=
  {| vcfScan.roi_name := name; vcfScan.pos := vcfScan.pos r;
     vcfScan.ref := vcfScan.ref r; vcfScan.depth := vcfScan.depth r;
     vcfScan.base_a := vcfScan.base_a r; vcfScan.base_c := vcfScan.base_c r;
     vcfScan.base_g := vcfScan.base_g r; vcfScan.base_t := vcfScan.base_t r;
     vcfScan.maf := vcfScan.maf r; vcfScan.mlp := vcfScan.mlp r |}.

(** A row as a scan of [self] writes it: its position is registered for its
    region, its depth is the sum of its four base counts, it has a [maf]
    exactly when its depth is positive, it has no [mlp] when no p-value is
    asked for, and it passed the test of [report_minimum_maf]. *)
Definition row_ok (self : vcfScan.t) (r : vcfScan.base_row) : Prop :=
  vcfScan.roi_name r ∈ regions_of self (vcfScan.pos r) ∧
  vcfScan.depth r
  = vcfScan.base_a r + vcfScan.base_c r + vcfScan.base_g r + vcfScan.base_t r ∧
  (vcfScan.maf r = None ↔ vcfScan.depth r ≤ 0) ∧
  (vcfScan.compute_pvalue self = false → vcfScan.mlp r = PyNone) ∧
  vcfScan.report_base (vcfScan.report_minimum_maf self) (vcfScan.maf r) = true.

(** The order of the rows of a table: by position, and with different
    regions at one position. *)
Definition before (r1 r2 : vcfScan.base_row) : Prop :=
  vcfScan.pos r1 < vcfScan.pos r2 ∨
  (vcfScan.pos r1 = vcfScan.pos r2 ∧ vcfScan.roi_name r1 ≠ vcfScan.roi_name r2).

(** A table as a scan of [self] builds it: every row is [row_ok], every row
    is [before] every later one, and a position that is reported is
    reported, with the same counts, for each of its regions. *)
Definition table_ok (self : vcfScan.t) (rows : list vcfScan.base_row) : Prop :=
  Forall (row_ok self) rows ∧
  StronglySorted before rows ∧
  ∀ r name, r ∈ rows → name ∈ regions_of self (vcfScan.pos r) → rename name r ∈ rows.

(** The rows and the queue of the scan are [rows], [now] and [psns]. *)
Definition held (rows : list vcfScan.base_row) (now : Z) (psns : list Z)
    (st : vcfScan.scan) : Prop :=
  vcfScan.resDict st = rows ∧ vcfScan.sought_now st = now ∧ vcfScan.sought_psns st = psns.

(** The state of a scan of [self0] between two lines: the rows written are
    a good table, all of them at positions before the sought one, and the
    queue is in ascending order. *)
Definition scan_ok (self0 : vcfScan.t) (st : vcfScan.scan) : Prop :=
  scanning self0 st ∧
  table_ok self0 (vcfScan.resDict st) ∧
  Forall (λ r, vcfScan.pos r < vcfScan.sought_now st) (vcfScan.resDict st) ∧
  StronglySorted Z.lt (vcfScan.sought_now st :: vcfScan.sought_psns st).

(** The rows of the state are a good table. *)
Definition rows_ok (self0 : vcfScan.t) (st : vcfScan.scan) : Prop :=
  table_ok self0 (vcfScan.resDict st).

(** The tag to read has been chosen: [infotag] is not ['auto']. *)
Definition detected (st : vcfScan.scan) : Prop :=
  vcfScan.infotag (vcfScan.self st) ≠ Some "auto".

(** No row is written before the tag to read is chosen. *)
Definition rows_after_detection (st : vcfScan.scan) : Prop :=
  vcfScan.resDict st = [] ∨ detected st.

(** The four base counts of the row are not negative. *)
Definition counted (r : vcfScan.base_row) : Prop :=
  0 ≤ vcfScan.base_a r ∧ 0 ≤ vcfScan.base_c r ∧
  0 ≤ vcfScan.base_g r ∧ 0 ≤ vcfScan.base_t r.

(** A stand-in for the means of pandas in closed examples. *)
Definition sample_means : Means :=
  {| mean := λ _, 0%float; mean_skipna := λ _, 0%float |}.

(** A row of [self.bases] for the region [name] at [pos] with the depths
    [a], [c], [g], [t], without [maf] and [mlp]. *)
Definition sample_row (name : string) (pos a c g t : Z) : vcfScan.base_row :=
  {| vcfScan.roi_name := name; vcfScan.pos := pos; vcfScan.ref := "A";
     vcfScan.depth := a + c + g + t;
     vcfScan.base_a := a; vcfScan.base_c := c; vcfScan.base_g := g; vcfScan.base_t := t;
     vcfScan.maf := None; vcfScan.mlp := PyNone |}.

(** Sixty regions, the region [i] with the single position [i + 1]. *)
Definition sixty_regions : vcfScan.t :=
  add_rois default_scanner ((λ i : nat, (pretty i, [Z.of_nat i + 1])) <$> seq 0 60).

(** A file with a record at each of the positions 1 to 60, with ten reads
    of A and five of G. *)
Definition sixty_records : vcfScan.vcf_file :=
  {| vcfScan.lines :=
       (λ i : nat, sample_line "chr" (pretty (i + 1)%nat) "BaseCounts4=10,0,5,0")
         <$> seq 0 60;
     vcfScan.truncated := false |}.

(** ** BinomialTest.__init__ *)

Lemma default_scanner_init :
  vcfScan.__init__ (PyFloat default_error_rate) (Some "BaseCounts4") 0%float true
  = Return default_scanner.
Proof. reflexivity. Qed.

(** C9, as stated, fails: 1.5 is a real number outside (0,1), and the
    constructor returns the object. *)
Lemma BinomialTest_init_accepts_rate_above_one :
  in_open_unit_interval (PyFloat 1.5%float) = false ∧
  BinomialTest.__init__ (PyFloat 1.5%float)
  = Return {| BinomialTest.expectedErrorRate := 1.5%float;
              BinomialTest.p_values := ∅;
              BinomialTest.tests_run := [] |}.
Proof. split; reflexivity. Qed.

(** C9, amended: the constructor raises [TypeError] exactly for the values
    that are not floats; every float is accepted, whatever its range, and
    gives an instance with that rate and an empty cache. *)
Theorem BinomialTest_init_checks_type_only (v : value) :
  (BinomialTest.__init__ v = Raise TypeError ↔ is_float v = false) ∧
  (∀ x : float,
     BinomialTest.__init__ (PyFloat x)
     = Return {| BinomialTest.expectedErrorRate := x;
                 BinomialTest.p_values := ∅;
                 BinomialTest.tests_run := [] |}).
Proof.
  split; [|reflexivity].
  destruct v; simpl; split; intros Hv; try reflexivity; discriminate Hv.
Qed.

(** ** vcfScan.add_roi *)

(** The two mappings after one turn of the loop of [add_roi]. *)
Lemma add_position_roi2psn (roi_name : string) (self : vcfScan.t) (p : Z) :
  vcfScan.roi2psn (vcfScan.add_position roi_name self p)
  = alter (λ s, s ∪ {[p]}) roi_name (vcfScan.roi2psn self).
Proof.
  unfold vcfScan.add_position. simpl. by destruct (vcfScan.psn2roi self !! p).
Qed.

Lemma add_position_psn2roi (roi_name : string) (self : vcfScan.t) (p : Z) :
  vcfScan.psn2roi (vcfScan.add_position roi_name self p)
  = <[p := default ∅ (vcfScan.psn2roi self !! p) ∪ {[roi_name]}]> (vcfScan.psn2roi self).
Proof.
  unfold vcfScan.add_position. simpl.
  destruct (vcfScan.psn2roi self !! p); simpl; [done|].
  by rewrite (left_id_L ∅ (∪)).
Qed.

(** A region added once keeps the index consistent, also when the call
    raises on a 0: the two mappings are updated together, position by
    position. *)
Lemma add_position_consistent (roi_name : string) (self : vcfScan.t) (p : Z) :
  consistent self → is_Some (vcfScan.roi2psn self !! roi_name) →
  consistent (vcfScan.add_position roi_name self p) ∧
  is_Some (vcfScan.roi2psn (vcfScan.add_position roi_name self p) !! roi_name).
Proof.
  intros Hc [ps0 Hps0]. split.
  - intros r q. rewrite add_position_roi2psn, add_position_psn2roi.
    trans ((∃ ps, vcfScan.roi2psn self !! r = Some ps ∧ q ∈ ps) ∨ (r = roi_name ∧ q = p)).
    + destruct (decide (r = roi_name)) as [->|Hr].
      * rewrite lookup_alter_eq, Hps0. simpl. split.
        -- intros (ps & [= <-] & Hq). apply elem_of_union in Hq as [Hq|Hq].
           ++ left. by exists ps0.
           ++ right. split; [done|]. by apply elem_of_singleton in Hq.
        -- intros [(ps & [= <-] & Hq)|[_ ->]]; eexists; (split; [done|]); set_solver.
      * rewrite lookup_alter_ne by done. split; [by left|].
        intros [?|[? _]]; done.
    + rewrite (Hc r q). destruct (decide (q = p)) as [->|Hq].
      * rewrite lookup_insert_eq. split.
        -- intros [(rs & Hrs & Hr)|[-> _]]; eexists; (split; [done|]).
           ++ rewrite Hrs. simpl. set_solver.
           ++ set_solver.
        -- intros (rs & [= <-] & Hr). apply elem_of_union in Hr as [Hr|Hr].
           ++ left. destruct (vcfScan.psn2roi self !! p) as [rs|]; [by exists rs|].
              by apply elem_of_empty in Hr.
           ++ right. split; [|done]. by apply elem_of_singleton in Hr.
      * rewrite lookup_insert_ne by done. split; [|by left].
        intros [?|[_ ?]]; done.
  - rewrite add_position_roi2psn, lookup_alter_eq, Hps0. by eexists.
Qed.

Lemma add_positions_consistent (roi_name : string) (ps : list Z) (self : vcfScan.t) :
  consistent self → is_Some (vcfScan.roi2psn self !! roi_name) →
  consistent (vcfScan.add_positions roi_name self ps).1.
Proof.
  revert self. induction ps as [|p ps IH]; intros self Hc Hsome; simpl; [done|].
  destruct (p =? 0); [done|].
  destruct (add_position_consistent roi_name self p Hc Hsome) as [Hc' Hsome'].
  by apply IH.
Qed.

Lemma add_roi_fresh_consistent (self : vcfScan.t) (roi_name : string) (ps : list Z) :
  consistent self → vcfScan.roi2psn self !! roi_name = None →
  consistent (vcfScan.add_roi self roi_name ps).1.
Proof.
  intros Hc Hfresh. unfold vcfScan.add_roi.
  apply add_positions_consistent; [|simpl; rewrite lookup_insert_eq; by eexists].
  intros r q. simpl. destruct (decide (r = roi_name)) as [->|Hr].
  - rewrite lookup_insert_eq. split.
    + intros (ps' & [= <-] & Hq). by apply elem_of_empty in Hq.
    + intros Hback. apply Hc in Hback as (ps' & Hps' & _). congruence.
  - rewrite lookup_insert_ne by done. apply Hc.
Qed.

(** C5 at the failing input [add_roi('One', [1])] then [add_roi('One', [2])]:
    the second call replaces the position set of the region, while position 1
    still lists the region, so the index is no longer consistent. *)
Theorem add_roi_again_forgets_positions :
  let v := (vcfScan.add_roi (vcfScan.add_roi default_scanner "One" [1]).1 "One" [2]).1 in
  vcfScan.roi2psn v !! "One" = Some {[2]} ∧
  vcfScan.psn2roi v !! 1 = Some {["One"]} ∧
  ¬ consistent v.
Proof.
  assert (H1 : vcfScan.roi2psn
            (vcfScan.add_roi (vcfScan.add_roi default_scanner "One" [1]).1 "One" [2]).1
            !! "One" = Some {[2]}) by (vm_compute; reflexivity).
  assert (H2 : vcfScan.psn2roi
            (vcfScan.add_roi (vcfScan.add_roi default_scanner "One" [1]).1 "One" [2]).1
            !! 1 = Some {["One"]}) by (vm_compute; reflexivity).
  cbv zeta. split; [exact H1|]. split; [exact H2|].
  intros Hc. destruct (Hc "One" 1) as [_ Hback].
  destruct Hback as (ps & Hps & Hin).
  - exists {["One"]}. split; [exact H2 | set_solver].
  - rewrite H1 in Hps. injection Hps as <-. set_solver.
Qed.

(** C7, as stated, fails: with the positions 5 and 0 in this order the call
    raises, and position 5 has been registered in both directions.  With the
    position 0 alone the call raises, and the index has a new region, without
    positions. *)
Lemma add_roi_zero_keeps_earlier_positions :
  0 ∈ [5; 0] ∧
  (vcfScan.add_roi default_scanner "R" [5; 0]).2 = Some ValueError ∧
  vcfScan.psn2roi default_scanner !! 5 = None ∧
  vcfScan.psn2roi (vcfScan.add_roi default_scanner "R" [5; 0]).1 !! 5 = Some {["R"]} ∧
  vcfScan.roi2psn (vcfScan.add_roi default_scanner "R" [5; 0]).1 !! "R" = Some {[5]} ∧
  (vcfScan.add_roi default_scanner "R" [0]).2 = Some ValueError ∧
  vcfScan.roi2psn default_scanner !! "R" = None ∧
  vcfScan.roi2psn (vcfScan.add_roi default_scanner "R" [0]).1 !! "R" = Some ∅.
Proof.
  split; [apply (bool_decide_unpack _); vm_compute; exact I|].
  repeat split; vm_compute; reflexivity.
Qed.

Lemma add_positions_app (roi_name : string) (pre post : list Z) (self : vcfScan.t) :
  vcfScan.add_positions roi_name self (pre ++ post) =
  match vcfScan.add_positions roi_name self pre with
  | (self', None) => vcfScan.add_positions roi_name self' post
  | r => r
  end.
Proof.
  revert self. induction pre as [|p pre IH]; intros self; simpl; [reflexivity|].
  destruct (p =? 0); [reflexivity | apply IH].
Qed.

Lemma add_positions_nonzero (roi_name : string) (ps : list Z) (self : vcfScan.t) :
  0 ∉ ps → (vcfScan.add_positions roi_name self ps).2 = None.
Proof.
  revert self. induction ps as [|p ps IH]; intros self Hps; simpl; [reflexivity|].
  destruct (Z.eqb_spec p 0) as [->|Hp]; [set_solver|].
  apply IH. set_solver.
Qed.

Lemma add_positions_elsewhere (roi_name : string) (ps : list Z) (self : vcfScan.t) (q : Z) :
  q ∉ ps →
  vcfScan.psn2roi (vcfScan.add_positions roi_name self ps).1 !! q
  = vcfScan.psn2roi self !! q.
Proof.
  revert self. induction ps as [|p ps IH]; intros self Hq; simpl; [reflexivity|].
  apply not_elem_of_cons in Hq as [Hqp Hq].
  destruct (p =? 0); [reflexivity|].
  rewrite IH by done. rewrite add_position_psn2roi. by apply lookup_insert_ne.
Qed.

(** C7, amended: when the positions contain 0 the call raises [ValueError];
    the positions that precede the first 0 in iteration order have then been
    registered exactly as a call with only these positions registers them,
    and nothing from the first 0 on has been; position 0 itself is not
    registered. *)
Theorem add_roi_zero_stops_at_first_zero
    (self : vcfScan.t) (roi_name : string) (pre post : list Z) :
  0 ∉ pre →
  vcfScan.add_roi self roi_name (pre ++ 0 :: post)
  = ((vcfScan.add_roi self roi_name pre).1, Some ValueError) ∧
  (vcfScan.add_roi self roi_name pre).2 = None ∧
  vcfScan.psn2roi (vcfScan.add_roi self roi_name (pre ++ 0 :: post)).1 !! 0
  = vcfScan.psn2roi self !! 0.
Proof.
  intros Hpre. unfold vcfScan.add_roi.
  pose proof (add_positions_nonzero roi_name pre
    (vcfScan.set_roi2psn (<[roi_name:=∅]> (vcfScan.roi2psn self)) self) Hpre) as Hnone.
  assert (Hstop :
    vcfScan.add_positions roi_name
      (vcfScan.set_roi2psn (<[roi_name:=∅]> (vcfScan.roi2psn self)) self)
      (pre ++ 0 :: post)
    = ((vcfScan.add_positions roi_name
          (vcfScan.set_roi2psn (<[roi_name:=∅]> (vcfScan.roi2psn self)) self) pre).1,
       Some ValueError)).
  { rewrite add_positions_app.
    destruct (vcfScan.add_positions roi_name _ pre) as [self' [e|]];
      [discriminate Hnone|reflexivity]. }
  split; [exact Hstop|]. split; [exact Hnone|].
  rewrite Hstop. simpl. by rewrite add_positions_elsewhere.
Qed.

(** An instance: the positions 5, 7, 0 and 9, in this order, on a new object. *)
Lemma add_roi_zero_stops_at_first_zero_witness :
  vcfScan.add_roi default_scanner "R" ([5; 7] ++ 0 :: [9])
  = ((vcfScan.add_roi default_scanner "R" [5; 7]).1, Some ValueError) ∧
  (vcfScan.add_roi default_scanner "R" [5; 7]).2 = None ∧
  vcfScan.psn2roi (vcfScan.add_roi default_scanner "R" ([5; 7] ++ 0 :: [9])).1 !! 0
  = vcfScan.psn2roi default_scanner !! 0.
Proof.
  apply (add_roi_zero_stops_at_first_zero default_scanner "R" [5; 7] [9]).
  apply (bool_decide_unpack _). vm_compute. exact I.
Defined.

(** ** BinomialTest.compute *)

(** *** The cache key determines the pair *)

Lemma append_cons (c : ascii) (s1 s2 : string) :
  String c s1 +:+ s2 = String c (s1 +:+ s2).
Proof. reflexivity. Qed.

Lemma append_nil (s : string) : "" +:+ s = s.
Proof. reflexivity. Qed.

Lemma pretty_N_char_comma_free (x : N) (s : string) :
  comma_free s = true → comma_free (String (pretty_N_char x) s) = true.
Proof.
  intros Hs. unfold pretty_N_char.
  repeat case_match; simpl; exact Hs.
Qed.

Lemma pretty_N_go_comma_free (x : N) (s : string) :
  comma_free s = true → comma_free (pretty_N_go x s) = true.
Proof.
  revert s. induction (N.lt_wf_0 x) as [x _ IH]; intros s Hs.
  destruct (decide (x = 0%N)) as [->|Hx]; [by rewrite pretty_N_go_0|].
  rewrite pretty_N_go_step by lia.
  apply IH; [apply N.div_lt; lia|].
  by apply pretty_N_char_comma_free.
Qed.

Lemma pretty_N_comma_free (x : N) : comma_free (pretty x) = true.
Proof.
  unfold pretty, pretty_N. case_decide; [reflexivity|].
  by apply pretty_N_go_comma_free.
Qed.

Lemma pretty_Z_comma_free (z : Z) : comma_free (pretty z) = true.
Proof.
  destruct z as [|p|p]; [reflexivity|apply pretty_N_comma_free|].
  unfold pretty, pretty_Z. rewrite append_cons, append_nil. simpl.
  apply pretty_N_comma_free.
Qed.

Lemma comma_split (a a' b b' : string) :
  comma_free a = true → comma_free a' = true →
  a +:+ "," +:+ b = a' +:+ "," +:+ b' → a = a' ∧ b = b'.
Proof.
  revert a'. induction a as [|c a IH]; intros [|c' a'] Ha Ha' Heq.
  - rewrite !append_nil in Heq. by injection Heq.
  - rewrite append_nil, append_cons in Heq. injection Heq as <- _.
    simpl in Ha'. discriminate Ha'.
  - rewrite append_nil, append_cons in Heq. injection Heq as -> _.
    simpl in Ha. discriminate Ha.
  - rewrite !append_cons in Heq. injection Heq as -> Heq.
    simpl in Ha, Ha'. apply andb_prop in Ha as [_ Ha]. apply andb_prop in Ha' as [_ Ha'].
    destruct (IH a' Ha Ha' Heq) as [-> ->]. done.
Qed.

Lemma key_inj (m d m' d' : Z) :
  BinomialTest.key m d = BinomialTest.key m' d' → m = m' ∧ d = d'.
Proof.
  unfold BinomialTest.key. intros Heq.
  apply comma_split in Heq as [Hm Hd]; [|apply pretty_Z_comma_free..].
  split; by apply (inj pretty).
Qed.

(** *** The instance after a history of calls *)

Section compute.
Context `{Numerics}.

Lemma run_test_rate (self : BinomialTest.t) (m d : Z) :
  BinomialTest.expectedErrorRate (BinomialTest.run_test self m d).2
  = BinomialTest.expectedErrorRate self.
Proof. unfold BinomialTest.run_test. by destruct (binom_test m d _). Qed.

Lemma compute_rate (self : BinomialTest.t) (m d : Z) :
  BinomialTest.expectedErrorRate (BinomialTest.compute self m d).2
  = BinomialTest.expectedErrorRate self.
Proof.
  unfold BinomialTest.compute.
  destruct (d =? 0); [reflexivity|]. destruct (m =? d); [reflexivity|].
  destruct (BinomialTest.p_values self !! BinomialTest.key m d); [reflexivity|].
  pose proof (run_test_rate self m d) as Hrate.
  by destruct (BinomialTest.run_test self m d) as [stored self'].
Qed.

Lemma run_test_sound (self : BinomialTest.t) (m d : Z) :
  cache_sound self →
  BinomialTest.p_values self !! BinomialTest.key m d = None →
  cache_sound (BinomialTest.run_test self m d).2.
Proof.
  intros (Hval & Hrun & Hnodup) Hnone. unfold BinomialTest.run_test.
  destruct (binom_test m d (BinomialTest.expectedErrorRate self)) as [q|e|] eqn:Htest;
    [|done..].
  unfold cache_sound; simpl. split; [|split].
  - intros k p Hk. destruct (decide (k = BinomialTest.key m d)) as [->|Hne].
    + rewrite lookup_insert_eq in Hk. injection Hk as <-.
      exists m, d. split; [done|]. split; [|done].
      apply elem_of_app. right. by apply list_elem_of_singleton.
    + rewrite lookup_insert_ne in Hk by done.
      destruct (Hval k p Hk) as (m' & d' & -> & Hin & Hp).
      exists m', d'. split; [done|]. split; [|done].
      apply elem_of_app. by left.
  - intros m' d' Hin. apply elem_of_app in Hin as [Hin|Hin].
    + destruct (decide (BinomialTest.key m' d' = BinomialTest.key m d)) as [->|Hne].
      * rewrite lookup_insert_eq. by eexists.
      * rewrite lookup_insert_ne by done. by apply Hrun.
    + apply list_elem_of_singleton in Hin. injection Hin as -> ->.
      rewrite lookup_insert_eq. by eexists.
  - apply NoDup_app. split; [done|]. split; [|apply NoDup_singleton].
    intros [m' d'] Hin Hin'. apply list_elem_of_singleton in Hin'.
    injection Hin' as -> ->. apply Hrun in Hin as [p Hp]. congruence.
Qed.

Lemma compute_sound (self : BinomialTest.t) (m d : Z) :
  cache_sound self → cache_sound (BinomialTest.compute self m d).2.
Proof.
  intros Hself. unfold BinomialTest.compute.
  destruct (d =? 0); [done|]. destruct (m =? d); [done|].
  destruct (BinomialTest.p_values self !! BinomialTest.key m d) eqn:Hk; [done|].
  pose proof (run_test_sound self m d Hself Hk) as Hsound.
  by destruct (BinomialTest.run_test self m d) as [stored self'].
Qed.

Lemma tester_after_snoc (x : float) (calls : list (Z * Z)) (m d : Z) :
  tester_after x (calls ++ [(m, d)])
  = (BinomialTest.compute (tester_after x calls) m d).2.
Proof. unfold tester_after. by rewrite foldl_app. Qed.

Lemma tester_after_sound (x : float) (calls : list (Z * Z)) :
  cache_sound (tester_after x calls) ∧
  BinomialTest.expectedErrorRate (tester_after x calls) = x.
Proof.
  induction calls as [|[m d] calls [IH1 IH2]] using rev_ind.
  - split; [|reflexivity]. split; [|split]; simpl.
    + intros k p Hk. by rewrite lookup_empty in Hk.
    + intros m d Hin. by apply elem_of_nil in Hin.
    + apply NoDup_nil_2.
  - rewrite tester_after_snoc. split; [by apply compute_sound|].
    by rewrite compute_rate.
Qed.

Lemma compute_equal (self : BinomialTest.t) (d : Z) :
  d ≠ 0 → BinomialTest.compute self d d = (Return (PyInt 1, PyInt 0), self).
Proof.
  intros Hd. unfold BinomialTest.compute.
  destruct (Z.eqb_spec d 0); [done|]. by rewrite Z.eqb_refl.
Qed.

(** A pair whose key is cached is answered from the cache and leaves the
    instance as it is. *)
Lemma compute_cached (self : BinomialTest.t) (m d : Z) (p : float) :
  d ≠ 0 → m ≠ d →
  BinomialTest.p_values self !! BinomialTest.key m d = Some p →
  BinomialTest.compute self m d
  = (Return (PyFloat p, BinomialTest.minus_log_p p), self).
Proof.
  intros Hd Hm Hp. unfold BinomialTest.compute.
  destruct (Z.eqb_spec d 0); [done|]. destruct (Z.eqb_spec m d); [done|].
  rewrite Hp. unfold getitem. by rewrite Hp.
Qed.

(** A pair whose key is not cached is given to [binom_test]: its result is
    stored and returned, its exception is passed on with nothing stored. *)
Lemma compute_fresh (self : BinomialTest.t) (m d : Z) :
  d ≠ 0 → m ≠ d →
  BinomialTest.p_values self !! BinomialTest.key m d = None →
  BinomialTest.compute self m d
  = match binom_test m d (BinomialTest.expectedErrorRate self) with
    | Return p =>
        (Return (PyFloat p, BinomialTest.minus_log_p p),
         {| BinomialTest.expectedErrorRate := BinomialTest.expectedErrorRate self;
            BinomialTest.p_values :=
              <[BinomialTest.key m d := p]> (BinomialTest.p_values self);
            BinomialTest.tests_run := BinomialTest.tests_run self ++ [(m, d)] |})
    | Raise e => (Raise e, self)
    | Diverge => (Diverge, self)
    end.
Proof.
  intros Hd Hm Hp. unfold BinomialTest.compute, BinomialTest.run_test.
  destruct (Z.eqb_spec d 0); [done|]. destruct (Z.eqb_spec m d); [done|].
  rewrite Hp.
  destruct (binom_test m d (BinomialTest.expectedErrorRate self)) as [p|e|];
    [|done..].
  unfold getitem. simpl. by rewrite lookup_insert_eq.
Qed.

(** C3.  Take [BinomialTest(x)] after any history of calls of [compute],
    and call [compute(m, d)].
    - [depth = 0]: the result is [(None, None)], the instance is unchanged.
    - [minor_variant_count = depth], not 0: the result is [(1, 0)], the
      instance is unchanged, so no test is run.
    - Otherwise the call does what the binomial test for [(m, d)] at rate
      [x] does.  If the test gives a p-value, this p-value is returned; the
      score is 250 if it equals 0 and [-math.log(p, 10)] if not; the test
      is run by this call only if it was not run for [(m, d)] before.  If
      the test raises, [compute] raises the same exception and the
      instance is unchanged: nothing is cached.
    - For [0 <= m < d] and a rate [0 <= x <= 1] the test gives a p-value.
    - For [m > d], and for every pair [m <> d] when the rate is above 1 or
      below 0, the test and so [compute] raise [ValueError].
    - Calling [compute(m, d)] again gives the same result and leaves the
      instance, hence the list of tests run, as it is.
    - No pair is ever tested twice with a result. *)
Theorem compute_spec (x : float) (calls : list (Z * Z)) (m d : Z) :
  let self := tester_after x calls in
  let r := BinomialTest.compute self m d in
  (d = 0 → r = (Return (PyNone, PyNone), self)) ∧
  (d ≠ 0 → m = d → r = (Return (PyInt 1, PyInt 0), self)) ∧
  (d ≠ 0 → m ≠ d →
     match binom_test m d x with
     | Return p =>
         r.1 = Return (PyFloat p,
                       if PrimFloat.eqb p 0%float then PyInt 250
                       else PyFloat (PrimFloat.opp (math_log p 10%float))) ∧
         BinomialTest.tests_run r.2
         = if decide ((m, d) ∈ BinomialTest.tests_run self)
           then BinomialTest.tests_run self
           else BinomialTest.tests_run self ++ [(m, d)]
     | Raise e => r = (Raise e, self)
     | Diverge => r = (Diverge, self)
     end) ∧
  (0 ≤ m < d → c_long d → rate_kind_of x = Probability →
     ∃ p, binom_test m d x = Return p) ∧
  (d ≠ 0 → c_long m → c_long d →
     d < m ∨ (m < d ∧ rate_kind_of x = OutOfRange) →
     r = (Raise ValueError, self)) ∧
  BinomialTest.compute r.2 m d = (r.1, r.2) ∧
  NoDup (BinomialTest.tests_run r.2).
Proof.
  intros self r.
  destruct (tester_after_sound x calls) as [Hsound Hrate].
  fold self in Hsound, Hrate.
  pose proof (compute_sound self m d Hsound) as Hsound'. fold r in Hsound'.
  assert (Hother : d ≠ 0 → m ≠ d →
    match binom_test m d x with
    | Return p =>
        r = (Return (PyFloat p, BinomialTest.minus_log_p p), r.2) ∧
        BinomialTest.p_values r.2 !! BinomialTest.key m d = Some p ∧
        BinomialTest.tests_run r.2
        = if decide ((m, d) ∈ BinomialTest.tests_run self)
          then BinomialTest.tests_run self
          else BinomialTest.tests_run self ++ [(m, d)]
    | Raise e => r = (Raise e, self)
    | Diverge => r = (Diverge, self)
    end).
  { intros Hd Hm.
    destruct (BinomialTest.p_values self !! BinomialTest.key m d) as [q|] eqn:Hk.
    - subst r. rewrite (compute_cached self m d q Hd Hm Hk). simpl.
      destruct Hsound as (Hval & _ & _).
      destruct (Hval _ _ Hk) as (m' & d' & Hkey & Hin & Hq).
      apply key_inj in Hkey as [<- <-]. rewrite Hrate in Hq. rewrite Hq.
      split; [reflexivity|]. split; [done|]. by rewrite decide_True.
    - subst r. rewrite (compute_fresh self m d Hd Hm Hk), Hrate.
      destruct (binom_test m d x) as [p|e|]; [|done..]. simpl.
      split; [reflexivity|]. split; [apply lookup_insert_eq|].
      rewrite decide_False; [done|].
      intros Hin. destruct Hsound as (_ & Hrun & _).
      apply Hrun in Hin as [q Hq]. congruence. }
  split; [|split; [|split; [|split; [|split; [|split]]]]].
  - intros ->. reflexivity.
  - intros Hd ->. by apply compute_equal.
  - intros Hd Hm. specialize (Hother Hd Hm).
    destruct (binom_test m d x) as [p|e|]; [|done..].
    destruct Hother as (Hr & _ & Hrun). rewrite Hr. by split.
  - intros Hm Hd Hx. apply binom_test_returns; [done|lia|lia|done].
  - intros Hd Hm Hd' Hcase.
    assert (Hraise : binom_test m d x = Raise ValueError).
    { destruct Hcase as [Hlt|[Hlt Hx]].
      - by apply binom_test_n_lt_x.
      - apply binom_test_p_range; [done|done|lia|done]. }
    assert (Hne : m ≠ d) by (destruct Hcase as [?|[? _]]; lia).
    specialize (Hother Hd Hne). by rewrite Hraise in Hother.
  - destruct (decide (d = 0)) as [->|Hd]; [reflexivity|].
    destruct (decide (m = d)) as [->|Hm].
    { subst r. rewrite !(compute_equal self d Hd). simpl. by apply compute_equal. }
    specialize (Hother Hd Hm).
    destruct (binom_test m d x) as [p|e|].
    + destruct Hother as (Hr & Hp & _). rewrite Hr at 2. simpl.
      by apply compute_cached.
    + rewrite Hother. simpl. exact Hother.
    + rewrite Hother. simpl. exact Hother.
  - by destruct Hsound' as (_ & _ & Hnodup).
Qed.

End compute.

(** Two calls for the pair (3, 10) on a new instance: one test, the same
    result twice. *)
Example compute_twice :
  let self1 := (@BinomialTest.compute sample_numerics (new_tester 0.125%float) 3 10).2 in
  @BinomialTest.compute sample_numerics (new_tester 0.125%float) 3 10
  = (Return (PyFloat 0.5%float, PyFloat (-0.5)%float), self1) ∧
  @BinomialTest.compute sample_numerics self1 3 10
  = (Return (PyFloat 0.5%float, PyFloat (-0.5)%float), self1) ∧
  BinomialTest.tests_run self1 = [(3, 10)].
Proof. cbv zeta. repeat split; vm_compute; reflexivity. Qed.

(** C3, as stated for all non-negative pairs, fails: for the minor count
    11 at depth 10 [stats.binom_test] raises [ValueError] (n must be >= x),
    so [compute] returns no p-value, and the instance, cache included, is as
    it was. *)
Example compute_raises_for_minor_above_depth :
  @BinomialTest.compute sample_numerics (new_tester default_error_rate) 11 10
  = (Raise ValueError, new_tester default_error_rate).
Proof. vm_compute. reflexivity. Qed.

(** ** vcfScan.parse *)

Lemma parse_gives_None `{Numerics} (self : vcfScan.t) (f : vcfScan.vcf_file)
    (guid : option string) (v : value) :
  (vcfScan.parse self f guid).1.1 = Return v → v = PyNone.
Proof.
  unfold vcfScan.parse.
  destruct (vcfScan._parse (vcfScan.set_guid guid self) f) as [[[v'|e|] self'] ws];
    simpl; congruence.
Qed.

(** Running a scan on a given file for any [Numerics]: the functions on the
    way to [stats.binom_test] are unfolded, every closed scrutinee that does
    not reach the test is evaluated (a scan state that results is given a
    name), and the arguments of the test are evaluated; what the test gives
    is then rewritten by hand. *)
Ltac unfold_scan :=
  lazy beta iota zeta delta
    [vcfScan.parse vcfScan._parse vcfScan.scan_file vcfScan.scan_lines
     vcfScan.process_line vcfScan.found vcfScan.score BinomialTest.compute
     BinomialTest.run_test vcfScan.bindM vcfScan.get vcfScan.ret vcfScan.raise
     vcfScan.lift vcfScan.modify vcfScan.lines vcfScan.truncated].

Ltac eval_closed :=
  match goal with
  | |- context [match ?b with _ => _ end] =>
      lazymatch b with
      | context [@binom_test] => fail
      | _ => idtac
      end;
      let b' := eval vm_compute in b in
      lazymatch b' with
      | (?o, ?st) =>
          lazymatch type of st with
          | vcfScan.scan =>
              let s := fresh "st" in
              pose (s := st);
              replace b with (o, s) by (vm_compute; reflexivity)
          | _ => progress (replace b with b' by (vm_compute; reflexivity))
          end
      | _ => progress (replace b with b' by (vm_compute; reflexivity))
      end
  | |- context [@binom_test ?H ?x ?n ?p] =>
      let x' := eval vm_compute in x in
      let n' := eval vm_compute in n in
      let p' := eval vm_compute in p in
      progress (replace (@binom_test H x n p) with (@binom_test H x' n' p')
                  by (vm_compute; reflexivity))
  end.

Ltac run_scan := unfold_scan; repeat (eval_closed; unfold_scan).

(** C6 at the failing input, a file cut after its first record, next to the
    same file complete: [_parse] returns [False] for the first and [True] for
    the second, and [parse] returns [None] for both.  [parse] returns no
    boolean on any input. *)
Theorem parse_drops_the_result_of__parse `{Numerics} :
  let v := (vcfScan.add_roi default_scanner "One" [1; 2]).1 in
  let line1 := sample_line "chr" "1" "BaseCounts4=10,0,5,0" in
  let line2 := sample_line "chr" "2" "BaseCounts4=9,0,0,1" in
  let whole := {| vcfScan.lines := [line1; line2]; vcfScan.truncated := false |} in
  let cut := {| vcfScan.lines := [line1]; vcfScan.truncated := true |} in
  (vcfScan._parse v whole).1.1 = Return (PyBool true) ∧
  (vcfScan.parse v whole None).1.1 = Return PyNone ∧
  (vcfScan._parse v cut).1.1 = Return (PyBool false) ∧
  (vcfScan.parse v cut None).1.1 = Return PyNone ∧
  (∀ self f guid b, (vcfScan.parse self f guid).1.1 ≠ Return (PyBool b)).
Proof.
  cbv zeta.
  destruct (binom_test_returns 5 15 default_error_rate) as [p1 Hp1];
    [unfold c_long; lia|lia|lia|vm_compute; reflexivity|].
  destruct (binom_test_returns 1 10 default_error_rate) as [p2 Hp2];
    [unfold c_long; lia|lia|lia|vm_compute; reflexivity|].
  let r := eval vm_compute in default_error_rate in
  change default_error_rate with r in Hp1, Hp2.
  set (v := (vcfScan.add_roi default_scanner "One" [1; 2]).1).
  assert (Hguid : vcfScan.set_guid None v = v) by (vm_compute; reflexivity).
  match goal with
  | |- ?whole = _ ∧ _ ∧ ?cut = _ ∧ _ =>
      assert (Hwhole : whole = Return (PyBool true));
      [|assert (Hcut : cut = Return (PyBool false))]
  end.
  - subst v. run_scan. rewrite Hp1. run_scan. rewrite Hp2. run_scan. reflexivity.
  - subst v. run_scan. rewrite Hp1. run_scan. reflexivity.
  - split_and!; [exact Hwhole| |exact Hcut| |].
    + unfold vcfScan.parse. rewrite Hguid.
      destruct (vcfScan._parse v _) as [[o self] ws].
      simpl in Hwhole. by rewrite Hwhole.
    + unfold vcfScan.parse. rewrite Hguid.
      match goal with
      | |- context [vcfScan._parse v ?f] =>
          destruct (vcfScan._parse v f) as [[o self] ws]
      end.
      simpl in Hcut. by rewrite Hcut.
    + intros self f guid b Hb. by apply parse_gives_None in Hb.
Qed.

(** ** vcfScan._parse *)

Section scan.
Context `{Numerics}.

Lemma process_line_skipped (line : string) (st : vcfScan.scan) :
  skipped line = true → vcfScan.process_line line st = (Return vcfScan.Next, st).
Proof.
  destruct line as [|c line]; [discriminate|].
  unfold skipped, vcfScan.process_line.
  destruct (Ascii.eqb c "#"); [reflexivity|].
  rewrite orb_false_l. by intros ->.
Qed.

Lemma contains_skipped (line : string) :
  contains "INDEL" line = true → skipped line = true.
Proof.
  destruct line as [|c line]; [discriminate|]. intros Hc.
  unfold skipped. rewrite Hc. apply orb_true_r.
Qed.

Lemma scan_lines_skip (before after : list string) (line : string)
    (truncated : bool) (st : vcfScan.scan) :
  skipped line = true →
  vcfScan.scan_lines (before ++ line :: after) truncated st
  = vcfScan.scan_lines (before ++ after) truncated st.
Proof.
  intros Hs. revert st. induction before as [|l before IH]; intros st; simpl.
  - unfold vcfScan.bindM. by rewrite process_line_skipped.
  - unfold vcfScan.bindM.
    destruct (vcfScan.process_line l st) as [[[|]|e|] st']; try reflexivity.
    apply IH.
Qed.

(** C10.  A line in which [INDEL] occurs, in whatever column, leaves the
    state of the scan as it is, rows included, and the scan of a file gives
    the same result, object and warnings as the scan of the file without
    that line. *)
Theorem indel_lines_are_passed_over (self : vcfScan.t) (before after : list string)
    (line : string) (truncated : bool) :
  contains "INDEL" line = true →
  (∀ st, vcfScan.process_line line st = (Return vcfScan.Next, st)) ∧
  vcfScan._parse self {| vcfScan.lines := before ++ line :: after;
                         vcfScan.truncated := truncated |}
  = vcfScan._parse self {| vcfScan.lines := before ++ after;
                           vcfScan.truncated := truncated |}.
Proof.
  intros Hc. apply contains_skipped in Hc. split.
  - intros st. by apply process_line_skipped.
  - unfold vcfScan._parse, vcfScan.scan_file. simpl.
    destruct (vcfScan.sorted_positions _) as [|now rest]; [reflexivity|].
    simpl. by rewrite scan_lines_skip.
Qed.

End scan.

(** The line of the witness is a record at the sought position 2 whose
    chromosome is named [INDEL_1]: with it or without it the scan gives the
    row of position 1 only, and the same record on chromosome [chr] gives a
    second row. *)
Lemma indel_lines_are_passed_over_witness :
  let v := (vcfScan.add_roi default_scanner "One" [1; 2]).1 in
  let line1 := sample_line "chr" "1" "BaseCounts4=10,0,5,0" in
  let line2 := sample_line "INDEL_1" "2" "BaseCounts4=9,0,0,1" in
  contains "INDEL" line2 = true ∧
  ((∀ st, @vcfScan.process_line sample_numerics line2 st = (Return vcfScan.Next, st)) ∧
   @vcfScan._parse sample_numerics v
     {| vcfScan.lines := [line1] ++ line2 :: []; vcfScan.truncated := false |}
   = @vcfScan._parse sample_numerics v
       {| vcfScan.lines := [line1] ++ []; vcfScan.truncated := false |}) ∧
  (length <$> vcfScan.bases (@vcfScan._parse sample_numerics v
     {| vcfScan.lines := [line1; line2]; vcfScan.truncated := false |}).1.2) = Some 1%nat ∧
  (length <$> vcfScan.bases (@vcfScan._parse sample_numerics v
     {| vcfScan.lines := [line1; sample_line "chr" "2" "BaseCounts4=9,0,0,1"];
        vcfScan.truncated := false |}).1.2) = Some 2%nat.
Proof.
  cbv zeta. split; [vm_compute; reflexivity|]. split.
  - apply (@indel_lines_are_passed_over sample_numerics). vm_compute. reflexivity.
  - split; vm_compute; reflexivity.
Defined.

(** *** Catching up after a gap *)

Section catch_up.
Context `{Numerics}.

(** Below [1e12] the loop exits: it has dropped a prefix of the queue, all
    of it at or before [pos], and stops either at the first position after
    [pos] or, the queue used up, at [1e12]. *)
Lemma catch_up_spec (pos now : Z) (psns : list Z) :
  pos < vcfScan.unreachable →
  ∃ now' psns' discarded,
    vcfScan.catch_up pos now psns = Return (now', psns') ∧
    pos < now' ∧
    Forall (λ q, q ≤ pos) discarded ∧
    (now :: psns = discarded ++ now' :: psns' ∨
     (now :: psns = discarded ∧ now' = vcfScan.unreachable ∧ psns' = [])).
Proof.
  intros Hpos. revert now. induction psns as [|next rest IH]; intros now; simpl.
  - destruct (Z.leb_spec now pos) as [Hle|Hgt].
    + destruct (Z.leb_spec vcfScan.unreachable pos) as [Hfar|_]; [lia|].
      exists vcfScan.unreachable, [], [now]. split; [done|]. split; [done|].
      split; [by apply Forall_singleton|]. by right.
    + exists now, [], []. split; [done|]. split; [done|].
      split; [by apply Forall_nil|]. by left.
  - destruct (Z.leb_spec now pos) as [Hle|Hgt].
    + destruct (IH next) as (now' & psns' & discarded & Heq & Hlt & Hall & Hcase).
      exists now', psns', (now :: discarded). split; [done|]. split; [done|].
      split; [by apply Forall_cons|].
      destruct Hcase as [->|(-> & -> & ->)]; [by left|by right].
    + exists now, (next :: rest), []. split; [done|]. split; [done|].
      split; [by apply Forall_nil|]. by left.
Qed.

(** At or above [1e12], when no sought position lies after [pos], the loop
    never exits. *)
Lemma catch_up_diverges (pos now : Z) (psns : list Z) :
  vcfScan.unreachable ≤ pos → Forall (λ q, q ≤ pos) (now :: psns) →
  vcfScan.catch_up pos now psns = Diverge.
Proof.
  intros Hpos. revert now. induction psns as [|next rest IH]; intros now Hall; simpl.
  - apply Forall_cons in Hall as [Hnow _].
    destruct (Z.leb_spec now pos); [|lia].
    by destruct (Z.leb_spec vcfScan.unreachable pos); [|lia].
  - apply Forall_cons in Hall as [Hnow Hall].
    destruct (Z.leb_spec now pos); [|lia]. by apply IH.
Qed.

Lemma adjust_scan_behind (pos : Z) (st : vcfScan.scan) :
  vcfScan.sought_now st < pos → pos < vcfScan.unreachable →
  ∃ st' discarded,
    vcfScan.adjust_scan pos st = (Return tt, st') ∧
    pos < vcfScan.sought_now st' ∧
    Forall (λ q, q ≤ pos) discarded ∧
    (vcfScan.sought_now st :: vcfScan.sought_psns st
     = discarded ++ vcfScan.sought_now st' :: vcfScan.sought_psns st' ∨
     (vcfScan.sought_now st :: vcfScan.sought_psns st = discarded ∧
      vcfScan.sought_now st' = vcfScan.unreachable ∧ vcfScan.sought_psns st' = [])) ∧
    vcfScan.resDict st' = vcfScan.resDict st ∧
    vcfScan.self st' = vcfScan.self st.
Proof.
  intros Hgt Hpos. unfold vcfScan.adjust_scan.
  destruct (Z.leb_spec pos (vcfScan.sought_now st)) as [|_]; [lia|].
  destruct (catch_up_spec pos (vcfScan.sought_now st) (vcfScan.sought_psns st) Hpos)
    as (now' & psns' & discarded & Heq & Hlt & Hall & Hcase).
  destruct (vcfScan.warning_emitted st); simpl; rewrite Heq;
    eexists _, discarded; (split; [reflexivity|]); simpl; done.
Qed.

(** The same with the state spelt out: the warning is noted if it is the
    first, and the queue is set to what the loop leaves. *)
Lemma adjust_scan_gap (pos : Z) (st : vcfScan.scan) :
  vcfScan.sought_now st < pos → pos < vcfScan.unreachable →
  ∃ discarded now' psns',
    vcfScan.adjust_scan pos st
    = (Return tt, vcfScan.set_sought now' psns' (noted pos st)) ∧
    pos < now' ∧
    Forall (λ q, q ≤ pos) discarded ∧
    (vcfScan.sought_now st :: vcfScan.sought_psns st = discarded ++ now' :: psns' ∨
     (vcfScan.sought_now st :: vcfScan.sought_psns st = discarded ∧
      now' = vcfScan.unreachable ∧ psns' = [])).
Proof.
  intros Hgt Hpos. unfold vcfScan.adjust_scan, noted.
  destruct (Z.leb_spec pos (vcfScan.sought_now st)) as [|_]; [lia|].
  destruct (catch_up_spec pos (vcfScan.sought_now st) (vcfScan.sought_psns st) Hpos)
    as (now' & psns' & discarded & Heq & Hlt & Hall & Hcase).
  exists discarded, now', psns'.
  destruct (vcfScan.warning_emitted st); simpl; rewrite Heq; done.
Qed.

End catch_up.

(** *** One gap warning for a scan *)

Section gap_warning.
Context `{Numerics}.

Lemma quiet_ret {A : Type} (a : A) : quiet (vcfScan.ret a).
Proof. by intros st. Qed.

Lemma quiet_raise {A : Type} (e : exn) : quiet (@vcfScan.raise A e).
Proof. by intros st. Qed.

Lemma quiet_lift {A : Type} (o : outcome A) : quiet (vcfScan.lift o).
Proof. by intros st. Qed.

Lemma quiet_get : quiet vcfScan.get.
Proof. by intros st. Qed.

Lemma quiet_bind {A B : Type} (m : vcfScan.M A) (k : A → vcfScan.M B) :
  quiet m → (∀ a, quiet (k a)) → quiet (vcfScan.bindM m k).
Proof.
  intros Hm Hk st. unfold vcfScan.bindM.
  specialize (Hm st). destruct (m st) as [[a|e|] st']; simpl in *; try done.
  destruct Hm as [Hflag Hgaps]. destruct (Hk a st') as [Hflag' Hgaps'].
  split; congruence.
Qed.

Lemma quiet_set_self (s : vcfScan.t) : quiet (vcfScan.modify (vcfScan.set_self s)).
Proof. by intros st. Qed.

Lemma quiet_set_sought (now : Z) (psns : list Z) :
  quiet (vcfScan.modify (vcfScan.set_sought now psns)).
Proof. by intros st. Qed.

Lemma quiet_add_row (r : vcfScan.base_row) : quiet (vcfScan.modify (vcfScan.add_row r)).
Proof. by intros st. Qed.

Lemma quiet_warn (w : vcfScan.warning) :
  vcfScan.is_gap w = false → quiet (vcfScan.modify (vcfScan.warn w)).
Proof.
  intros Hw st. split; [done|]. simpl.
  rewrite List.filter_app. simpl. rewrite Hw. apply app_nil_r.
Qed.

Create HintDb quiet.
Hint Resolve quiet_ret quiet_raise quiet_lift quiet_get quiet_set_self
  quiet_set_sought quiet_add_row : quiet.

(** Splits a computation along its binds and case distinctions. *)
Ltac quiet_step :=
  lazymatch goal with
  | |- quiet (vcfScan.bindM _ _) => apply quiet_bind; [|intros ?]
  | |- quiet (match ?x with _ => _ end) => destruct x
  | |- quiet (vcfScan.modify (vcfScan.warn _)) => by apply quiet_warn
  | |- _ => solve [auto with quiet]
  end.

Lemma quiet_autodetect infos fields : quiet (vcfScan.autodetect infos fields).
Proof. unfold vcfScan.autodetect. repeat quiet_step. Qed.

Lemma quiet_info_counts pos infos : quiet (vcfScan.info_counts pos infos).
Proof. unfold vcfScan.info_counts. repeat quiet_step. Qed.

Lemma quiet_field_counts fields sampleInfo baseCounts :
  quiet (vcfScan.field_counts fields sampleInfo baseCounts).
Proof. unfold vcfScan.field_counts. repeat quiet_step. Qed.

Lemma quiet_samtools_counts ref alts baseCounts :
  quiet (vcfScan.samtools_counts ref alts baseCounts).
Proof. unfold vcfScan.samtools_counts. repeat quiet_step. Qed.

Lemma quiet_score nonmajor depth : quiet (vcfScan.score nonmajor depth).
Proof.
  intros st. unfold vcfScan.score.
  destruct (vcfScan.compute_pvalue (vcfScan.self st)); [|done].
  by destruct (BinomialTest.compute _ _ _) as [[[p mlp]|e|] bt'].
Qed.

Lemma quiet_report roi_names row : quiet (vcfScan.report roi_names row).
Proof.
  induction roi_names as [|roi_name rest IH]; simpl; [apply quiet_ret|].
  repeat quiet_step.
Qed.

Hint Resolve quiet_autodetect quiet_info_counts quiet_field_counts
  quiet_samtools_counts quiet_score quiet_report : quiet.

Lemma quiet_found pos ref alts infos fields sampleInfo :
  quiet (vcfScan.found pos ref alts infos fields sampleInfo).
Proof. unfold vcfScan.found. repeat quiet_step. Qed.

Lemma quiet_keeps_flag {A : Type} (m : vcfScan.M A) (st : vcfScan.scan) :
  quiet m → gap_flag_agrees st → gap_flag_agrees (m st).2.
Proof.
  intros Hm Hst. destruct (Hm st) as [Hflag Hgaps].
  unfold gap_flag_agrees, gap_warnings in *. by rewrite Hflag, Hgaps.
Qed.

(** [adjust_scan] emits the gap warning only while the flag is down, and
    raises the flag with it. *)
Lemma adjust_scan_keeps_flag (pos : Z) (st : vcfScan.scan) :
  gap_flag_agrees st → gap_flag_agrees (vcfScan.adjust_scan pos st).2.
Proof.
  intros Hst. unfold vcfScan.adjust_scan.
  destruct (pos <=? vcfScan.sought_now st); [done|].
  destruct (vcfScan.warning_emitted st) eqn:Hflag.
  - by destruct (vcfScan.catch_up _ _ _) as [[now psns]|e|].
  - assert (Hwarned : gap_flag_agrees
      (vcfScan.set_warning_emitted
         (vcfScan.warn (vcfScan.GapObserved pos (vcfScan.sought_now st)) st))).
    { unfold gap_flag_agrees, gap_warnings in *. simpl.
      rewrite Hflag in Hst. rewrite List.filter_app, length_app, Hst. done. }
    destruct (vcfScan.catch_up _ _ _) as [[now psns]|e|]; simpl; done.
Qed.

Lemma process_line_keeps_flag (line : string) (st : vcfScan.scan) :
  gap_flag_agrees st → gap_flag_agrees (vcfScan.process_line line st).2.
Proof.
  intros Hst. unfold vcfScan.process_line.
  destruct line as [|c line]; [done|].
  destruct (Ascii.eqb c "#"); [done|].
  destruct (contains "INDEL" (String c line)); [done|].
  destruct (split (strip (String c line)))
    as [|? [|pos [|? [|ref [|alts [|? [|? [|infos [|fields [|sampleInfo [|? ?]]]]]]]]]]];
    try done.
  destruct (int pos) as [p|]; [|done].
  unfold vcfScan.bindM at 1.
  pose proof (adjust_scan_keeps_flag p st Hst) as Hadj.
  destruct (vcfScan.adjust_scan p st) as [[[]|e|] st']; simpl in *; try done.
  unfold vcfScan.bindM, vcfScan.get.
  destruct (p =? vcfScan.sought_now st'); [|done].
  by apply quiet_keeps_flag; [apply quiet_found|].
Qed.

Lemma scan_lines_keeps_flag (lines : list string) (truncated : bool)
    (st : vcfScan.scan) :
  gap_flag_agrees st → gap_flag_agrees (vcfScan.scan_lines lines truncated st).2.
Proof.
  revert st. induction lines as [|line rest IH]; intros st Hst; simpl.
  - by destruct truncated.
  - unfold vcfScan.bindM.
    pose proof (process_line_keeps_flag line st Hst) as Hline.
    destruct (vcfScan.process_line line st) as [[[|]|e|] st']; simpl in *; try done.
    by apply IH.
Qed.

(** Whatever the file, a scan emits the gap warning at most once. *)
Lemma gap_warning_once (self : vcfScan.t) (vcffile : vcfScan.vcf_file) :
  (gap_warnings (vcfScan._parse self vcffile).2 ≤ 1)%nat.
Proof.
  assert (Hend : gap_flag_agrees
            (vcfScan.scan_file (vcfScan.set_bases None self) vcffile).2).
  { unfold vcfScan.scan_file. simpl.
    destruct (vcfScan.sorted_positions _) as [|now rest]; [done|]. simpl.
    apply scan_lines_keeps_flag. by destruct (now =? 0). }
  unfold vcfScan._parse.
  destruct (vcfScan.scan_file _ vcffile) as [r st]. simpl in Hend.
  assert (Hle : (gap_warnings (vcfScan.emitted st) ≤ 1)%nat).
  { unfold gap_flag_agrees in Hend. rewrite Hend.
    destruct (vcfScan.warning_emitted st); lia. }
  by destruct r as [[]|[]|].
Qed.

End gap_warning.

(** *** A scan that meets none of its positions *)

Section absent.
Context `{Numerics}.

Lemma record_position_columns (line : string) (pos : Z) :
  record_position line = Some pos →
  ∃ chrom p varID ref alts score filterx infos fields sampleInfo,
    split (strip line)
    = [chrom; p; varID; ref; alts; score; filterx; infos; fields; sampleInfo] ∧
    int p = Some pos.
Proof.
  unfold record_position. intros Hpos.
  destruct (split (strip line))
    as [|c1 [|c2 [|c3 [|c4 [|c5 [|c6 [|c7 [|c8 [|c9 [|c10 [|? ?]]]]]]]]]]];
    try discriminate Hpos.
  by exists c1, c2, c3, c4, c5, c6, c7, c8, c9, c10.
Qed.

Lemma adjust_scan_waiting (D : gset Z) (pos : Z) (st : vcfScan.scan) :
  pos < vcfScan.unreachable → waiting D st →
  ∃ st', vcfScan.adjust_scan pos st = (Return tt, st') ∧ waiting D st' ∧
         vcfScan.self st' = vcfScan.self st.
Proof.
  intros Hpos (Hnow & Hpsns & Hrows).
  destruct (Z.le_gt_cases pos (vcfScan.sought_now st)) as [Hle|Hgt].
  - exists st. unfold vcfScan.adjust_scan.
    by destruct (Z.leb_spec pos (vcfScan.sought_now st)); [|lia].
  - destruct (adjust_scan_behind pos st Hgt Hpos)
      as (st' & discarded & Heq & _ & _ & Hcase & Hrows' & Hself).
    exists st'. split; [done|]. split; [|done].
    unfold waiting. rewrite Hrows'.
    destruct Hcase as [Hsplit|(_ & -> & ->)];
      [|split; [by right|split; [by apply Forall_nil|done]]].
    destruct discarded as [|d discarded]; simpl in Hsplit.
    + injection Hsplit as <- <-. done.
    + injection Hsplit as _ Hsplit. rewrite Hsplit in Hpsns.
      apply Forall_app in Hpsns as [_ Hpsns].
      apply Forall_cons in Hpsns as [Hnow' Hpsns]. split; [by left|done].
Qed.

Lemma process_line_absent (self : vcfScan.t) (line : string) (st : vcfScan.scan) :
  absent self line → waiting (dom (vcfScan.psn2roi self)) st →
  ∃ st', vcfScan.process_line line st = (Return vcfScan.Next, st') ∧
         waiting (dom (vcfScan.psn2roi self)) st' ∧
         vcfScan.self st' = vcfScan.self st.
Proof.
  intros Habsent Hst.
  destruct (skipped line) eqn:Hskip.
  { exists st. by rewrite process_line_skipped. }
  destruct Habsent as [Hs|(pos & Hrec & Hpos & Hout)]; [congruence|].
  destruct (record_position_columns line pos Hrec)
    as (chrom & p & varID & ref & alts & score & filterx & infos & fields
        & sampleInfo & Hcols & Hint).
  destruct line as [|c line]; [discriminate Hrec|].
  unfold skipped in Hskip. apply orb_false_elim in Hskip as [Hhash Hindel].
  unfold vcfScan.process_line. rewrite Hhash, Hindel, Hcols, Hint.
  destruct (adjust_scan_waiting _ pos st Hpos Hst) as (st' & Hadj & Hst' & Hself).
  exists st'. split; [|done].
  unfold vcfScan.bindM at 1. rewrite Hadj. unfold vcfScan.bindM, vcfScan.get.
  destruct (Z.eqb_spec pos (vcfScan.sought_now st')) as [Heq|_]; [|done].
  destruct Hst' as ([Hnow|Hnow] & _ & _).
  - by rewrite <- Heq in Hnow.
  - lia.
Qed.

Lemma sorted_positions_dom (self : vcfScan.t) (q : Z) :
  q ∈ vcfScan.sorted_positions self → q ∈ dom (vcfScan.psn2roi self).
Proof.
  unfold vcfScan.sorted_positions. rewrite merge_sort_Permutation.
  apply elem_of_elements.
Qed.

(** One turn of the loop at a record beyond the position sought. *)
Lemma process_line_gap (line : string) (st : vcfScan.scan) (pos : Z) :
  skipped line = false → record_position line = Some pos →
  vcfScan.sought_now st < pos → pos < vcfScan.unreachable →
  ∃ discarded now' psns',
    vcfScan.process_line line st
    = (Return vcfScan.Next, vcfScan.set_sought now' psns' (noted pos st)) ∧
    pos < now' ∧
    Forall (λ q, q ≤ pos) discarded ∧
    (vcfScan.sought_now st :: vcfScan.sought_psns st = discarded ++ now' :: psns' ∨
     (vcfScan.sought_now st :: vcfScan.sought_psns st = discarded ∧
      now' = vcfScan.unreachable ∧ psns' = [])).
Proof.
  intros Hskip Hrec Hgap Hpos.
  destruct (record_position_columns line pos Hrec)
    as (chrom & p & varID & ref & alts & score & filterx & infos & fields
        & sampleInfo & Hcols & Hint).
  destruct line as [|c line]; [discriminate Hrec|].
  unfold skipped in Hskip. apply orb_false_elim in Hskip as [Hhash Hindel].
  unfold vcfScan.process_line. rewrite Hhash, Hindel, Hcols, Hint.
  destruct (adjust_scan_gap pos st Hgap Hpos)
    as (discarded & now' & psns' & Hadj & Hlt & Hall & Hqueue).
  exists discarded, now', psns'. unfold vcfScan.bindM at 1. rewrite Hadj.
  unfold vcfScan.bindM, vcfScan.get. simpl.
  by destruct (Z.eqb_spec pos now') as [Heq|_]; [lia|].
Qed.

(** One turn of the loop at a line that cannot match: a record at or before
    the position sought changes nothing; a record beyond it starts the
    catching up, with the gap warning if this is the first time. *)
Lemma process_line_absent_notes (self : vcfScan.t) (line : string) (st : vcfScan.scan) :
  absent self line → waiting (dom (vcfScan.psn2roi self)) st →
  ∃ st', vcfScan.process_line line st = (Return vcfScan.Next, st') ∧
         waiting (dom (vcfScan.psn2roi self)) st' ∧
         vcfScan.self st' = vcfScan.self st ∧
         match (if skipped line then None else record_position line) with
         | Some pos =>
             if vcfScan.sought_now st <? pos
             then vcfScan.warning_emitted st' = true ∧
                  vcfScan.emitted st' = vcfScan.emitted (noted pos st)
             else st' = st
         | None => st' = st
         end.
Proof.
  intros Habsent Hst.
  destruct (process_line_absent self line st Habsent Hst) as (st' & Hstep & Hst' & Hself).
  exists st'. split; [done|]. split; [done|]. split; [done|].
  destruct (skipped line) eqn:Hskip.
  { rewrite process_line_skipped in Hstep by done. by injection Hstep as <-. }
  destruct Habsent as [Hs|(pos & Hrec & Hpos & Hout)]; [congruence|].
  rewrite Hrec. destruct (Z.ltb_spec (vcfScan.sought_now st) pos) as [Hgap|Hle].
  - destruct (process_line_gap line st pos Hskip Hrec Hgap Hpos)
      as (discarded & now' & psns' & Hline & _).
    rewrite Hline in Hstep. injection Hstep as <-. simpl.
    split; [|done]. unfold noted.
    by destruct (vcfScan.warning_emitted st) eqn:Hflag.
  - destruct (record_position_columns line pos Hrec)
      as (chrom & p & varID & ref & alts & score & filterx & infos & fields
          & sampleInfo & Hcols & Hint).
    destruct line as [|c line]; [discriminate Hrec|].
    unfold skipped in Hskip. apply orb_false_elim in Hskip as [Hhash Hindel].
    revert Hstep. unfold vcfScan.process_line. rewrite Hhash, Hindel, Hcols, Hint.
    unfold vcfScan.bindM at 1. unfold vcfScan.adjust_scan.
    destruct (Z.leb_spec pos (vcfScan.sought_now st)) as [_|]; [|lia].
    unfold vcfScan.bindM, vcfScan.get.
    destruct (Z.eqb_spec pos (vcfScan.sought_now st)) as [Heq|_].
    + destruct Hst as ([Hnow|Hnow] & _ & _); [by rewrite <- Heq in Hnow|lia].
    + by intros [= <-].
Qed.

(** Once the gap warning is out, a file of lines that cannot match adds no
    warning. *)
Lemma scan_lines_absent_noted (self : vcfScan.t) (lines : list string) (st : vcfScan.scan) :
  Forall (absent self) lines → waiting (dom (vcfScan.psn2roi self)) st →
  vcfScan.warning_emitted st = true →
  ∃ st', vcfScan.scan_lines lines false st = (Return tt, st') ∧
         vcfScan.resDict st' = [] ∧ vcfScan.self st' = vcfScan.self st ∧
         vcfScan.emitted st' = vcfScan.emitted st.
Proof.
  intros Hlines. revert st.
  induction Hlines as [|line rest Hline _ IH]; intros st Hst Hflag.
  - exists st. by destruct Hst as (_ & _ & Hrows).
  - destruct (process_line_absent_notes self line st Hline Hst)
      as (st1 & Hstep & Hst1 & Hself1 & Hnotes).
    assert (Hsame : vcfScan.warning_emitted st1 = true ∧
                    vcfScan.emitted st1 = vcfScan.emitted st).
    { destruct (if skipped line then None else record_position line) as [pos|];
        [|by subst st1].
      destruct (vcfScan.sought_now st <? pos); [|by subst st1].
      destruct Hnotes as [Hflag1 Hemitted]. split; [done|].
      rewrite Hemitted. unfold noted. by rewrite Hflag. }
    destruct Hsame as [Hflag1 Hemitted1].
    destruct (IH st1 Hst1 Hflag1) as (st' & Hrest & Hrows & Hself & Hemitted).
    exists st'. simpl. unfold vcfScan.bindM. rewrite Hstep.
    split; [done|]. split; [done|]. split; congruence.
Qed.

(** Before that, the gap warning is emitted at the first record beyond the
    position sought. *)
Lemma scan_lines_absent_notes (self : vcfScan.t) (lines : list string) (st : vcfScan.scan) :
  Forall (absent self) lines → waiting (dom (vcfScan.psn2roi self)) st →
  vcfScan.warning_emitted st = false →
  ∃ st', vcfScan.scan_lines lines false st = (Return tt, st') ∧
         vcfScan.resDict st' = [] ∧ vcfScan.self st' = vcfScan.self st ∧
         vcfScan.emitted st'
         = vcfScan.emitted st ++
           match first_beyond (vcfScan.sought_now st) lines with
           | Some pos => [vcfScan.GapObserved pos (vcfScan.sought_now st)]
           | None => []
           end.
Proof.
  intros Hlines. revert st.
  induction Hlines as [|line rest Hline Hrest IH]; intros st Hst Hflag.
  - exists st. destruct Hst as (_ & _ & Hrows). simpl. by rewrite app_nil_r.
  - destruct (process_line_absent_notes self line st Hline Hst)
      as (st1 & Hstep & Hst1 & Hself1 & Hnotes).
    simpl. unfold vcfScan.bindM. rewrite Hstep.
    destruct (skipped line); [subst st1; by apply IH|].
    destruct (record_position line) as [pos|]; [|subst st1; by apply IH].
    destruct (vcfScan.sought_now st <? pos); [|subst st1; by apply IH].
    destruct Hnotes as [Hflag1 Hemitted1].
    destruct (scan_lines_absent_noted self rest st1 Hrest Hst1 Hflag1)
      as (st' & Hscan & Hrows & Hself & Hemitted).
    exists st'. split; [done|]. split; [done|]. split; [congruence|].
    rewrite Hemitted, Hemitted1. unfold noted. by rewrite Hflag.
Qed.

(** C1.  Let the records of a file lie at legal coordinates, below 10^12.
    - If all lines of the file are passed over or are records at positions
      that no region refers to, the scan returns [True], the object is as
      before except that [self.bases] is the empty table, and the warnings
      are: the one about position 0 if this is the first position sought,
      then one gap warning, for the first record beyond the first position
      sought, whatever the number of gaps.
    - At any point of a scan, a record at [pos] beyond the position sought
      makes the loop body note the gap (the warning, if the flag is down,
      and the flag) and drop sought positions, all of them at or before
      [pos], up to the first one after [pos], or up to [1e12] when none is
      left; it then goes on with the next line, the rows and the object
      untouched.
    - Whatever the file, the scan emits at most one gap warning. *)
Theorem gaps_are_skipped (self : vcfScan.t) (lines : list string) :
  Forall (absent self) lines →
  vcfScan._parse self {| vcfScan.lines := lines; vcfScan.truncated := false |}
  = (Return (PyBool true), vcfScan.set_bases (Some []) self, gap_notes self lines) ∧
  (∀ line st pos,
     skipped line = false → record_position line = Some pos →
     vcfScan.sought_now st < pos → pos < vcfScan.unreachable →
     ∃ discarded now' psns',
       vcfScan.process_line line st
       = (Return vcfScan.Next,
          vcfScan.set_sought now' psns'
            (if vcfScan.warning_emitted st then st
             else vcfScan.set_warning_emitted
                    (vcfScan.warn (vcfScan.GapObserved pos (vcfScan.sought_now st))
                       st))) ∧
       pos < now' ∧
       Forall (λ q, q ≤ pos) discarded ∧
       (vcfScan.sought_now st :: vcfScan.sought_psns st = discarded ++ now' :: psns' ∨
        (vcfScan.sought_now st :: vcfScan.sought_psns st = discarded ∧
         now' = vcfScan.unreachable ∧ psns' = []))) ∧
  (∀ vcffile, (gap_warnings (vcfScan._parse self vcffile).2 ≤ 1)%nat).
Proof.
  intros Hlines. split; [|split].
  - unfold vcfScan._parse, vcfScan.scan_file, gap_notes. simpl.
    change (vcfScan.sorted_positions (vcfScan.set_bases None self))
      with (vcfScan.sorted_positions self).
    destruct (vcfScan.sorted_positions self) as [|now rest] eqn:Hsorted; simpl; [done|].
    set (st0 := if now =? 0 then _ else _).
    assert (Hst0 : waiting (dom (vcfScan.psn2roi self)) st0).
    { assert (Hin : ∀ q, q ∈ now :: rest → q ∈ dom (vcfScan.psn2roi self)).
      { intros q Hq. rewrite <- Hsorted in Hq.
        by apply sorted_positions_dom in Hq. }
      subst st0. destruct (now =? 0); (split; [|split; [|done]]); simpl.
      all: try (left; apply Hin; apply elem_of_cons; by left).
      all: apply Forall_forall; intros q Hq; apply Hin, elem_of_cons; by right. }
    assert (Hself0 : vcfScan.self st0 = vcfScan.set_bases None self).
    { subst st0. by destruct (now =? 0). }
    assert (Hnow0 : vcfScan.sought_now st0 = now).
    { subst st0. by destruct (now =? 0). }
    assert (Hflag0 : vcfScan.warning_emitted st0 = false).
    { subst st0. by destruct (now =? 0). }
    assert (Hemitted0 : vcfScan.emitted st0
                        = if now =? 0 then [vcfScan.ZeroPosition] else []).
    { subst st0. by destruct (now =? 0). }
    destruct (scan_lines_absent_notes self lines st0 Hlines Hst0 Hflag0)
      as (st' & Hscan & Hrows & Hself & Hemitted).
    rewrite Hscan. simpl. by rewrite Hrows, Hself, Hself0, Hemitted, Hemitted0, Hnow0.
  - intros line st pos. apply process_line_gap.
  - intros vcffile. apply gap_warning_once.
Qed.

End absent.

(** The witness: regions at the positions 5 and 10, and a file with a header,
    records at 1, 7 and 12, and a line in which [INDEL] occurs.  The record
    at 7 opens the gap 5..7: the loop body notes it and drops position 5, so
    that the scan then waits for 10; the record at 12 uses up the queue, and
    the scan has emitted the one warning. *)
Lemma gaps_are_skipped_witness :
  let v := (vcfScan.add_roi default_scanner "One" [5; 10]).1 in
  let lines :=
    [ "##fileformat=VCFv4.2" +:+ String "010"%char "";
      sample_line "chr" "1" "BaseCounts4=10,0,5,0";
      sample_line "chr" "7" "BaseCounts4=9,0,0,1";
      vcf_line "chr" "10" "." "AT" "A" "50" "PASS" "INDEL;IDV=3" "GT" "0/1";
      sample_line "chr" "12" "BaseCounts4=0,0,8,0" ] in
  let st := {| vcfScan.self := v; vcfScan.sought_now := 5; vcfScan.sought_psns := [10];
               vcfScan.warning_emitted := false; vcfScan.resDict := [];
               vcfScan.emitted := [] |} in
  Forall (absent v) lines ∧
  @vcfScan._parse sample_numerics v
    {| vcfScan.lines := lines; vcfScan.truncated := false |}
  = (Return (PyBool true), vcfScan.set_bases (Some []) v, [vcfScan.GapObserved 7 5]) ∧
  @vcfScan.process_line sample_numerics
    (sample_line "chr" "7" "BaseCounts4=9,0,0,1") st
  = (Return vcfScan.Next,
     {| vcfScan.self := v; vcfScan.sought_now := 10; vcfScan.sought_psns := [];
        vcfScan.warning_emitted := true; vcfScan.resDict := [];
        vcfScan.emitted := [vcfScan.GapObserved 7 5] |}).
Proof.
  cbv zeta.
  assert (Hlines : Forall (absent (vcfScan.add_roi default_scanner "One" [5; 10]).1)
    [ "##fileformat=VCFv4.2" +:+ String "010"%char "";
      sample_line "chr" "1" "BaseCounts4=10,0,5,0";
      sample_line "chr" "7" "BaseCounts4=9,0,0,1";
      vcf_line "chr" "10" "." "AT" "A" "50" "PASS" "INDEL;IDV=3" "GT" "0/1";
      sample_line "chr" "12" "BaseCounts4=0,0,8,0" ]).
  { repeat apply Forall_cons_2; try apply Forall_nil_2.
    - left. vm_compute. reflexivity.
    - right. exists 1. split; [vm_compute; reflexivity|].
      split; [reflexivity|]. apply (bool_decide_unpack _). vm_compute. exact I.
    - right. exists 7. split; [vm_compute; reflexivity|].
      split; [reflexivity|]. apply (bool_decide_unpack _). vm_compute. exact I.
    - left. vm_compute. reflexivity.
    - right. exists 12. split; [vm_compute; reflexivity|].
      split; [reflexivity|]. apply (bool_decide_unpack _). vm_compute. exact I. }
  destruct (@gaps_are_skipped sample_numerics _ _ Hlines) as (Hscan & Hline & _).
  split; [exact Hlines|]. split.
  - rewrite Hscan. f_equal; vm_compute; reflexivity.
  - destruct (Hline (sample_line "chr" "7" "BaseCounts4=9,0,0,1")
                {| vcfScan.self := (vcfScan.add_roi default_scanner "One" [5; 10]).1;
                   vcfScan.sought_now := 5; vcfScan.sought_psns := [10];
                   vcfScan.warning_emitted := false; vcfScan.resDict := [];
                   vcfScan.emitted := [] |} 7)
      as (discarded & now' & psns' & Hstep & Hlt & Hall & Hqueue).
    + vm_compute. reflexivity.
    + vm_compute. reflexivity.
    + simpl. lia.
    + vm_compute. reflexivity.
    + rewrite Hstep. simpl in Hqueue.
      assert (Hnext : now' = 10 ∧ psns' = []).
      { destruct Hqueue as [Hqueue|(Hqueue & _ & _)].
        - destruct discarded as [|d1 [|d2 discarded]]; simpl in Hqueue.
          + injection Hqueue as <- _. lia.
          + by injection Hqueue as _ <- <-.
          + injection Hqueue as _ <- _.
            apply Forall_cons in Hall as [_ Hall].
            apply Forall_cons in Hall as [Hle _]. lia.
        - subst discarded. apply Forall_cons in Hall as [_ Hall].
          apply Forall_cons in Hall as [Hle _]. lia. }
      destruct Hnext as [-> ->]. reflexivity.
Defined.

(** Two gaps in one scan, one warning: the same regions and records without
    the header and the indel line. *)
Example two_gaps_one_warning :
  (@vcfScan._parse sample_numerics (vcfScan.add_roi default_scanner "One" [5; 10]).1
     {| vcfScan.lines := [ sample_line "chr" "1" "BaseCounts4=10,0,5,0";
                           sample_line "chr" "7" "BaseCounts4=9,0,0,1";
                           sample_line "chr" "12" "BaseCounts4=0,0,8,0" ];
        vcfScan.truncated := false |}).2
  = [vcfScan.GapObserved 7 5].
Proof. vm_compute. reflexivity. Qed.

(** C1, as stated for every scan, fails: the position 5 is sought and not in
    the file, whose one record lies at 10^12.  The record is beyond the
    position sought, the queue is used up, and [sought_now = 1e12] does not
    end [while sought_now <= pos]: the scan does not terminate. *)
Example scan_hangs_at_1e12 :
  (@vcfScan._parse sample_numerics (vcfScan.add_roi default_scanner "One" [5]).1
     {| vcfScan.lines := [ sample_line "chr" "1000000000000" "BaseCounts4=10,0,5,0" ];
        vcfScan.truncated := false |}).1.1
  = Diverge.
Proof. vm_compute. reflexivity. Qed.

(** ** lineageScan.f_statistics *)

Section f_statistics.
Context `{lineageScan.Sorting}.

Lemma sum_plausible (rows : list lineageScan.region_summary) :
  Forall plausible rows →
  0 ≤ lineageScan.sum (lineageScan.total_nonmajor_depth <$> rows)
    ≤ lineageScan.sum (lineageScan.total_depth <$> rows).
Proof.
  unfold lineageScan.sum.
  induction 1 as [|r rows Hr _ IH]; [simpl; lia|].
  rewrite !fmap_cons. cbn [foldr]. unfold plausible in Hr. lia.
Qed.

Lemma sort_values_Permutation (rows : list lineageScan.region_summary) :
  lineageScan.sort_values rows ≡ₚ rows.
Proof. apply lineageScan.sort_values_rows. Qed.

Lemma sort_values_Sorted (rows : list lineageScan.region_summary) :
  Sorted lineageScan.ranks_before (lineageScan.sort_values rows).
Proof. apply lineageScan.sort_values_order. Qed.

Lemma ratio_in_unit_interval (n d : Z) :
  0 ≤ n ≤ d → d ≠ 0 → (0 <= inject_Z n / inject_Z d <= 1)%Q.
Proof.
  intros [Hn Hd] Hd0.
  assert (Hpos : (0 < inject_Z d)%Q).
  { change 0%Q with (inject_Z 0). rewrite <- Zlt_Qlt. lia. }
  split.
  - apply Qle_shift_div_l; [done|]. rewrite Qmult_0_l.
    change 0%Q with (inject_Z 0). rewrite <- Zle_Qle. lia.
  - apply Qle_shift_div_r; [done|]. rewrite Qmult_1_l.
    rewrite <- Zle_Qle. lia.
Qed.

(** C8.  For a table of region summaries:
    - fewer than 58 rows: the quality is "bad", F2 and F47 are [None];
    - at least 58 rows, and the total depth of the first 2 or of the last 47
      rows of the table sorted by [mean_maf], largest first, is 0: the same;
    - at least 58 rows and both sums not 0: the quality is "OK", F2 is the
      sum of [total_nonmajor_depth] over these first 2 rows divided by the
      sum of their [total_depth], F47 the same over the last 47 rows; both
      lie between 0 and 1 when the nonmajor depth of every row is between 0
      and its total depth.
    The sorted table is a rearrangement of the table in which each row has
    a [mean_maf] at least that of the next, the rows without one last.  This
    holds for every sort that orders the table so, whatever it does with
    rows of equal [mean_maf]. *)
Theorem f_statistics_spec (region_stats : list lineageScan.region_summary) :
  let sorted := lineageScan.sort_values region_stats in
  let top := lineageScan.head 2 sorted in
  let bottom := lineageScan.tail 47 sorted in
  let f2_denominator := lineageScan.sum (lineageScan.total_depth <$> top) in
  let f47_denominator := lineageScan.sum (lineageScan.total_depth <$> bottom) in
  let f2 := (inject_Z (lineageScan.sum (lineageScan.total_nonmajor_depth <$> top))
             / inject_Z f2_denominator)%Q in
  let f47 := (inject_Z (lineageScan.sum (lineageScan.total_nonmajor_depth <$> bottom))
              / inject_Z f47_denominator)%Q in
  sorted ≡ₚ region_stats ∧
  Sorted lineageScan.ranks_before sorted ∧
  ((length region_stats < 58)%nat →
     lineageScan.f_statistics (Some region_stats) = Some lineageScan.bad) ∧
  ((58 ≤ length region_stats)%nat → f2_denominator = 0 ∨ f47_denominator = 0 →
     lineageScan.f_statistics (Some region_stats) = Some lineageScan.bad) ∧
  ((58 ≤ length region_stats)%nat → f2_denominator ≠ 0 → f47_denominator ≠ 0 →
     lineageScan.f_statistics (Some region_stats)
     = Some {| lineageScan.mixture_quality := "OK";
               lineageScan.F2 := Some f2; lineageScan.F47 := Some f47 |} ∧
     (Forall plausible region_stats →
        (0 <= f2 <= 1)%Q ∧ (0 <= f47 <= 1)%Q)).
Proof.
  intros sorted top bottom f2_denominator f47_denominator f2 f47.
  split; [apply sort_values_Permutation|].
  split; [apply sort_values_Sorted|].
  unfold lineageScan.f_statistics. fold sorted. fold top. fold bottom.
  fold f2_denominator. fold f47_denominator.
  split; [|split].
  - intros Hlen. by destruct (Nat.ltb_spec (length region_stats) 58); [|lia].
  - intros Hlen Hzero. destruct (Nat.ltb_spec (length region_stats) 58); [lia|].
    destruct Hzero as [->| ->]; [done|]. by rewrite orb_true_r.
  - intros Hlen H2 H47. destruct (Nat.ltb_spec (length region_stats) 58); [lia|].
    destruct (Z.eqb_spec f2_denominator 0); [done|].
    destruct (Z.eqb_spec f47_denominator 0); [done|].
    split; [done|]. intros Hrows.
    assert (Hsorted : Forall plausible sorted).
    { subst sorted. by rewrite sort_values_Permutation. }
    split; (apply ratio_in_unit_interval; [apply sum_plausible|done]).
    + by apply Forall_take.
    + by apply Forall_drop.
Qed.

End f_statistics.

(** On the sample table F2 is 1/200 (regions 0 and 1) and F47 is 1692/4700
    (regions 13 to 59). *)
Lemma f_statistics_spec_witness :
  @lineageScan.f_statistics sample_sorting (Some sample_table)
  = Some {| lineageScan.mixture_quality := "OK";
            lineageScan.F2 := Some (inject_Z 1 / inject_Z 200)%Q;
            lineageScan.F47 := Some (inject_Z 1692 / inject_Z 4700)%Q |} ∧
  (0 <= inject_Z 1 / inject_Z 200 <= 1)%Q ∧
  (0 <= inject_Z 1692 / inject_Z 4700 <= 1)%Q.
Proof.
  destruct (@f_statistics_spec sample_sorting sample_table) as (_ & _ & _ & _ & Hok).
  destruct Hok as [Hval Hbounds].
  - unfold sample_table. rewrite length_fmap, length_seq. lia.
  - vm_compute. discriminate.
  - vm_compute. discriminate.
  - split; [exact Hval|]. apply Hbounds.
    unfold plausible. apply (bool_decide_unpack _). vm_compute. exact I.
Defined.

(** C8, as stated for every table, fails in its last part: [f_statistics]
    checks no row, and on a table of 58 rows whose nonmajor depth 2 is above
    their total depth 1 it reports the quality "OK" with F2 = 4/2 and
    F47 = 94/47, both above 1.  The rows are equal, so that no order of the
    sort gives another result. *)
Example f_statistics_above_one :
  @lineageScan.f_statistics sample_sorting (Some overcounted_table)
  = Some {| lineageScan.mixture_quality := "OK";
            lineageScan.F2 := Some (inject_Z 4 / inject_Z 2)%Q;
            lineageScan.F47 := Some (inject_Z 94 / inject_Z 47)%Q |} ∧
  ¬ (inject_Z 4 / inject_Z 2 <= 1)%Q ∧
  ¬ (inject_Z 94 / inject_Z 47 <= 1)%Q.
Proof.
  split; [vm_compute; reflexivity|]. split; vm_compute; intros Hle; by apply Hle.
Qed.

(** ** FastaMixtureMarker.mark_mixed *)

Section annotate.
Import FastaMixtureMarker.

(** *** The dictionary of candidate calls *)

Lemma dict_get_set_ne (k p : Z) (x : ascii) (d : calls) :
  k ≠ p → dict_get p (dict_set k x d) = dict_get p d.
Proof.
  intros Hne. induction d as [|[k' x'] d IH]; simpl.
  - by destruct (Z.eqb_spec k p).
  - destruct (Z.eqb_spec k' k) as [->|Hk]; simpl.
    + by destruct (Z.eqb_spec k p).
    + destruct (Z.eqb_spec k' p); [done|]. exact IH.
Qed.

Lemma dict_set_keys (k : Z) (x : ascii) (d : calls) :
  k ∈ d.*1 → (dict_set k x d).*1 = d.*1.
Proof.
  induction d as [|[k' x'] d IH]; simpl; intros Hin.
  - by apply elem_of_nil in Hin.
  - destruct (Z.eqb_spec k' k) as [->|Hk]; [done|]. simpl. f_equal.
    apply IH. apply elem_of_cons in Hin as [->|Hin]; done.
Qed.

Lemma dict_get_present (p : Z) (d : calls) :
  p ∈ d.*1 → ∃ c, dict_get p d = Return c.
Proof.
  induction d as [|[k' x'] d IH]; simpl; intros Hin.
  - by apply elem_of_nil in Hin.
  - destruct (Z.eqb_spec k' p) as [->|Hk]; [by eexists|].
    apply IH. apply elem_of_cons in Hin as [->|Hin]; done.
Qed.

(** *** The clustering loop writes interior candidates only *)

Lemma suppress_spec (cutoff : Z) (bases : list Z) (d : calls) (i : nat) :
  bases !!! i ∈ d.*1 →
  (suppress cutoff bases d i).*1 = d.*1 ∧
  ∀ p, bases !!! i ≠ p → dict_get p (suppress cutoff bases d i) = dict_get p d.
Proof.
  intros Hin. unfold suppress.
  destruct (bases !!! i - bases !!! (i - 1)%nat <=? cutoff);
    destruct (bases !!! (i + 1)%nat - bases !!! i <=? cutoff);
    rewrite ?dict_set_keys by (by rewrite ?dict_set_keys);
    (split; [done|]); intros p Hp; by rewrite ?dict_get_set_ne.
Qed.

Lemma suppress_all_spec (cutoff : Z) (bases : list Z) (range : list nat) (d : calls) :
  (∀ i, i ∈ range → bases !!! i ∈ d.*1) →
  (foldl (suppress cutoff bases) d range).*1 = d.*1 ∧
  ∀ p, (∀ i, i ∈ range → bases !!! i ≠ p) →
       dict_get p (foldl (suppress cutoff bases) d range) = dict_get p d.
Proof.
  revert d. induction range as [|i range IH]; intros d Hin; simpl; [done|].
  destruct (suppress_spec cutoff bases d i) as [Hkeys Hget].
  { apply Hin. by left. }
  destruct (IH (suppress cutoff bases d i)) as [Hkeys' Hget'].
  { intros j Hj. rewrite Hkeys. apply Hin. by right. }
  split; [congruence|]. intros p Hp.
  rewrite Hget' by (intros j Hj; apply Hp; by right).
  apply Hget, Hp. by left.
Qed.

Lemma eliminate_clustered_spec (cutoff : option Z) (bases : list Z) (d : calls) :
  (∀ i, i ∈ interior bases → bases !!! i ∈ d.*1) →
  (eliminate_clustered cutoff bases d).*1 = d.*1 ∧
  ∀ p, (∀ i, i ∈ interior bases → bases !!! i ≠ p) →
       dict_get p (eliminate_clustered cutoff bases d) = dict_get p d.
Proof.
  intros Hin. destruct cutoff as [cutoff|]; simpl; [|done].
  by apply suppress_all_spec.
Qed.

(** *** The sorted keys *)

Lemma sorted_keys_Permutation (d : calls) : sorted_keys d ≡ₚ d.*1.
Proof. apply merge_sort_Permutation. Qed.

Lemma elem_of_interior (bases : list Z) (i : nat) :
  i ∈ interior bases ↔ (1 ≤ i)%nat ∧ (i + 1 < length bases)%nat.
Proof. unfold interior. rewrite elem_of_seq. lia. Qed.

Lemma interior_lookup (bases : list Z) (i : nat) :
  i ∈ interior bases → bases !! i = Some (bases !!! i).
Proof.
  intros Hi. apply elem_of_interior in Hi.
  apply list_lookup_lookup_total_lt. lia.
Qed.

(** With distinct keys, the first and the last of the sorted keys are at
    no interior index. *)
Lemma edge_not_interior (bases : list Z) (p : Z) (i : nat) :
  NoDup bases → bases !! 0%nat = Some p ∨ last bases = Some p →
  i ∈ interior bases → bases !!! i ≠ p.
Proof.
  intros Hnodup Hedge Hi Heq.
  pose proof (interior_lookup bases i Hi) as Hlook. rewrite Heq in Hlook.
  apply elem_of_interior in Hi.
  destruct Hedge as [Hfirst|Hlast].
  - pose proof (NoDup_lookup _ _ _ _ Hnodup Hlook Hfirst). lia.
  - rewrite last_lookup in Hlast.
    pose proof (NoDup_lookup _ _ _ _ Hnodup Hlook Hlast). lia.
Qed.

(** *** Writing into the sequence *)

Lemma setitem_in_range (l : list ascii) (p : Z) (c : ascii) :
  0 ≤ p < Z.of_nat (length l) → setitem l p c = Return (<[Z.to_nat p := c]> l).
Proof.
  intros Hp. unfold setitem.
  destruct (Z.leb_spec 0 p); [|lia].
  by destruct (Z.ltb_spec p (Z.of_nat (length l))); [|lia].
Qed.

Lemma write_calls_spec (bases : list Z) (d : calls) (range : list nat)
    (seq : list ascii) :
  (∀ i, i ∈ range → 0 ≤ bases !!! i < Z.of_nat (length seq) ∧ bases !!! i ∈ d.*1) →
  NoDup ((λ i, bases !!! i) <$> range) →
  ∃ out,
    write_calls bases d range seq = Return out ∧
    length out = length seq ∧
    (∀ j, (∀ i, i ∈ range → j ≠ Z.to_nat (bases !!! i)) → out !! j = seq !! j) ∧
    (∀ i, i ∈ range →
       ∃ c, dict_get (bases !!! i) d = Return c ∧
            out !! Z.to_nat (bases !!! i) = Some c).
Proof.
  revert seq. induction range as [|i range IH]; intros seq Hrange Hnodup; simpl.
  - exists seq. split; [done|]. split; [done|]. split; [done|].
    intros i Hi. by apply elem_of_nil in Hi.
  - destruct (Hrange i) as [Hp Hkey]; [by left|].
    destruct (dict_get_present _ _ Hkey) as [c Hc].
    rewrite Hc. simpl. rewrite setitem_in_range by done. simpl.
    rewrite fmap_cons in Hnodup. apply NoDup_cons in Hnodup as [Hfresh Hnodup].
    destruct (IH (<[Z.to_nat (bases !!! i) := c]> seq)) as (out & Hout & Hlen & Hrest & Hwritten).
    { intros j Hj. rewrite length_insert. apply Hrange. by right. }
    { done. }
    exists out. split; [done|]. rewrite length_insert in Hlen. split; [done|].
    split.
    + intros j Hj. rewrite Hrest by (intros k Hk; apply Hj; by right).
      apply list_lookup_insert_ne. intros Heq. by apply (Hj i); [left|].
    + intros k Hk. apply elem_of_cons in Hk as [->|Hk]; [|by apply Hwritten].
      exists c. split; [done|].
      rewrite Hrest.
      * apply list_lookup_insert_eq. lia.
      * intros k Hk Heq. apply Hfresh. apply list_elem_of_fmap.
        exists k. split; [|done].
        destruct (Hrange k) as [Hpk _]; [by right|]. lia.
Qed.

End annotate.

Section boundary.
Import FastaMixtureMarker.

Lemma interior_positions_NoDup (bases : list Z) :
  NoDup bases → NoDup ((λ i, bases !!! i) <$> interior bases).
Proof.
  intros Hnodup. apply NoDup_fmap_2_strong; [|apply NoDup_seq].
  intros i j Hi Hj Heq.
  pose proof (interior_lookup bases i Hi) as Hli.
  pose proof (interior_lookup bases j Hj) as Hlj.
  rewrite Heq in Hli. by apply (NoDup_lookup _ _ _ _ Hnodup Hli Hlj).
Qed.

(** What [annotate] does with candidate calls at distinct positions of
    the sequence. *)
Lemma annotate_spec (clustering_cutoff : option Z)
    (variants_to_update : calls) (seq : list ascii) :
  NoDup variants_to_update.*1 →
  Forall (λ p, 0 ≤ p < Z.of_nat (length seq)) variants_to_update.*1 →
  let bases := sorted_keys variants_to_update in
  let suppressed := eliminate_clustered clustering_cutoff bases variants_to_update in
  ∃ out,
    annotate clustering_cutoff variants_to_update seq
    = Return (accepted suppressed, string_of_list_ascii out) ∧
    length out = length seq ∧
    (∀ p, bases !! 0%nat = Some p ∨ last bases = Some p →
       dict_get p suppressed = dict_get p variants_to_update ∧
       out !! Z.to_nat p = seq !! Z.to_nat p) ∧
    (∀ i, (1 ≤ i)%nat → (i + 1 < length bases)%nat →
       ∃ p c, bases !! i = Some p ∧ dict_get p suppressed = Return c ∧
              out !! Z.to_nat p = Some c) ∧
    (∀ j, (∀ i, (1 ≤ i)%nat → (i + 1 < length bases)%nat →
                bases !! i ≠ Some (Z.of_nat j)) →
       out !! j = seq !! j) ∧
    Forall (λ e, e.2 ≠ "N"%char ∧ 0 < e.1) (accepted suppressed).
Proof.
  intros Hnodup Hrange bases suppressed.
  assert (Hperm : bases ≡ₚ variants_to_update.*1) by apply sorted_keys_Permutation.
  assert (Hnodup' : NoDup bases) by (by rewrite Hperm).
  assert (Hkey : ∀ i, i ∈ interior bases → bases !!! i ∈ variants_to_update.*1).
  { intros i Hi. rewrite <- Hperm. apply list_elem_of_lookup.
    exists i. by apply interior_lookup. }
  destruct (eliminate_clustered_spec clustering_cutoff bases variants_to_update Hkey)
    as [Hkeys Hget]. fold suppressed in Hkeys, Hget.
  destruct (write_calls_spec bases suppressed (interior bases) seq)
    as (out & Hout & Hlen & Hrest & Hwritten).
  { intros i Hi. rewrite Hkeys. split; [|by apply Hkey].
    by apply (proj1 (Forall_forall _ _) Hrange), Hkey. }
  { by apply interior_positions_NoDup. }
  assert (Hin_range : ∀ p, p ∈ bases → 0 ≤ p).
  { intros p Hp. rewrite Hperm in Hp.
    by apply (proj1 (Forall_forall _ _) Hrange) in Hp as [? _]. }
  exists out. split; [|split; [done|split; [|split; [|split]]]].
  - unfold annotate. fold bases. fold suppressed. by rewrite Hout.
  - intros p Hedge.
    assert (Hp : p ∈ bases).
    { destruct Hedge as [Hfirst|Hlast]; [by eapply list_elem_of_lookup_2|].
      rewrite last_lookup in Hlast. by eapply list_elem_of_lookup_2. }
    split.
    + apply Hget. intros i Hi. by apply edge_not_interior.
    + apply Hrest. intros i Hi Heq.
      apply (edge_not_interior bases p i Hnodup' Hedge Hi).
      assert (0 ≤ bases !!! i).
      { apply Hin_range. eapply list_elem_of_lookup_2. by apply interior_lookup. }
      apply Hin_range in Hp. lia.
  - intros i Hi1 Hi2.
    assert (Hi : i ∈ interior bases) by (by apply elem_of_interior).
    destruct (Hwritten i Hi) as (c & Hc & Hlook).
    exists (bases !!! i), c. split; [by apply interior_lookup|done].
  - intros j Hj. apply Hrest. intros i Hi ->.
    apply elem_of_interior in Hi as Hi'. destruct Hi' as [Hi1 Hi2].
    apply (Hj i Hi1 Hi2). rewrite (interior_lookup bases i Hi). f_equal.
    assert (0 ≤ bases !!! i); [|lia].
    apply Hin_range. eapply list_elem_of_lookup_2. by apply interior_lookup.
  - apply Forall_forall. intros e He. unfold accepted in He.
    by apply list_elem_of_filter in He as [[Hcode Hpos] _].
Qed.


(** *** The candidates collected from a table *)

Context `{Numerics}.

Lemma dict_set_NoDup (k : Z) (x : ascii) (d : calls) :
  NoDup d.*1 → NoDup (dict_set k x d).*1.
Proof.
  induction d as [|[k' x'] d IH]; simpl; intros Hnodup.
  - apply NoDup_singleton.
  - apply NoDup_cons in Hnodup as [Hfresh Hnodup].
    destruct (Z.eqb_spec k' k) as [->|Hk]; simpl; [by apply NoDup_cons|].
    apply NoDup_cons. split; [|by apply IH].
    destruct (decide (k ∈ d.*1)) as [Hin|Hout].
    + by rewrite dict_set_keys.
    + intros Hin. apply list_elem_of_fmap in Hin as ([k2 x2] & -> & Hin).
      clear IH Hnodup. induction d as [|[k3 x3] d IH]; simpl in *.
      * apply list_elem_of_singleton in Hin. by injection Hin as -> _.
      * destruct (Z.eqb_spec k3 k) as [->|Hk3].
        { apply Hout. by left. }
        apply elem_of_cons in Hin as [Hin|Hin].
        { injection Hin as -> _. apply Hfresh. by left. }
        apply IH; [|by intros ?; apply Hout; right|done].
        intros ?. apply Hfresh. by right.
Qed.

Lemma collect_row_spec (index : list Z) (r : call_row) (d d' : calls) (self self' : t) :
  collect_row index r (d, self) = (Return d', self') →
  NoDup d.*1 → NoDup d'.*1 ∧ clustering_cutoff self' = clustering_cutoff self.
Proof.
  unfold collect_row. intros Hrow Hnodup.
  destruct (1 <? length (filter _ index))%nat; [discriminate Hrow|].
  destruct (PrimFloat.leb (min_maf self) (maf r)); [|by injection Hrow as <- <-].
  destruct (PrimFloat.is_nan (mlp r)).
  - destruct (BinomialTest.compute _ _ _) as [[[p m]|e|] bt']; simpl in Hrow;
      try discriminate Hrow.
    destruct (ge_cutoff m (mlp_cutoff _)) as [[|]|e|]; simpl in Hrow;
      try discriminate Hrow.
    + destruct (getitem iupac (top2 r)) as [base|e|]; simpl in Hrow;
        try discriminate Hrow.
      injection Hrow as <- <-. split; [by apply dict_set_NoDup|done].
    + by injection Hrow as <- <-.
  - simpl in Hrow.
    destruct (PrimFloat.leb (mlp_cutoff self) (mlp r)); simpl in Hrow.
    + destruct (getitem iupac (top2 r)) as [base|e|]; simpl in Hrow;
        try discriminate Hrow.
      injection Hrow as <- <-. split; [by apply dict_set_NoDup|done].
    + by injection Hrow as <- <-.
Qed.

Lemma collect_rows_spec (index : list Z) (rows : list call_row) (d d' : calls)
    (self self' : t) :
  collect_rows index rows (d, self) = (Return d', self') →
  NoDup d.*1 → NoDup d'.*1 ∧ clustering_cutoff self' = clustering_cutoff self.
Proof.
  revert d self. induction rows as [|r rows IH]; intros d self.
  - by intros [= <- <-].
  - cbn [collect_rows].
    destruct (collect_row index r (d, self)) as [[d1|e|] self1] eqn:Hrow;
      try discriminate.
    intros Hrows Hnodup.
    destruct (collect_row_spec _ _ _ _ _ _ Hrow Hnodup) as [Hnodup1 Hcut1].
    destruct (IH _ _ Hrows Hnodup1) as [Hnodup' Hcut']. split; [done|congruence].
Qed.

(** C2.  Let the loop over the table have collected the candidate calls
    [variants_to_update], all at positions of the sequence, and let [bases]
    be their 0-indexed positions in ascending order.  Then [mark_mixed]
    returns, and
    - the first and the last position of [bases] keep the code they had
      before the clustering loop, and the sequence is not written there;
    - at every index from 1 to [len(bases) - 2], the sequence holds the
      code of the candidate after the clustering loop;
    - the sequence is unchanged anywhere else and keeps its length;
    - the table returned has no call with code [N] and no call at
      position 0: its positions are positive. *)
Theorem boundary_candidates_are_left_out (self self' : t) (seq : string)
    (df : list call_row) (variants_to_update : calls) :
  collect self df = (Return variants_to_update, self') →
  Forall (λ p, 0 ≤ p < Z.of_nat (String.length seq)) variants_to_update.*1 →
  let bases := sorted_keys variants_to_update in
  let suppressed :=
    eliminate_clustered (clustering_cutoff self) bases variants_to_update in
  ∃ out,
    mark_mixed self seq (Some df)
    = (Return (Some (accepted suppressed), string_of_list_ascii out), self') ∧
    length out = String.length seq ∧
    (∀ p, bases !! 0%nat = Some p ∨ last bases = Some p →
       dict_get p suppressed = dict_get p variants_to_update ∧
       out !! Z.to_nat p = list_ascii_of_string seq !! Z.to_nat p) ∧
    (∀ i, (1 ≤ i)%nat → (i + 1 < length bases)%nat →
       ∃ p c, bases !! i = Some p ∧ dict_get p suppressed = Return c ∧
              out !! Z.to_nat p = Some c) ∧
    (∀ j, (∀ i, (1 ≤ i)%nat → (i + 1 < length bases)%nat →
                bases !! i ≠ Some (Z.of_nat j)) →
       out !! j = list_ascii_of_string seq !! j) ∧
    Forall (λ e, e.2 ≠ "N"%char ∧ 0 < e.1) (accepted suppressed).
Proof.
  intros Hcollect Hrange bases suppressed.
  assert (Hlen : length (list_ascii_of_string seq) = String.length seq).
  { clear. induction seq as [|c seq IH]; simpl; [done|]. by rewrite IH. }
  destruct (collect_rows_spec _ _ _ _ _ _ Hcollect) as [Hnodup Hcut];
    [apply NoDup_nil_2|].
  destruct (annotate_spec (clustering_cutoff self) variants_to_update
              (list_ascii_of_string seq) Hnodup) as (out & Hout & Hrest).
  { by rewrite Hlen. }
  exists out. rewrite Hlen in Hrest. split; [|exact Hrest].
  unfold mark_mixed. rewrite Hcollect, Hcut, Hout. reflexivity.
Qed.

End boundary.

(** The witness: five rows, at the 1-indexed positions 11, 16, 2, 1 and 30
    of a sequence of thirty [A], and the clustering distance 5.  The three
    interior candidates (0-indexed 1, 10, 15) are suppressed and written; the
    candidates at 0 and 29 keep their code and are not written; the table
    returned holds the candidate at 29 only. *)
Lemma boundary_candidates_are_left_out_witness :
  let df := [sample_call 11 10 0 5 0; sample_call 16 10 0 5 0; sample_call 2 5 0 10 0;
             sample_call 1 0 0 5 10; sample_call 30 0 0 5 10] in
  let v := [(10, "r"); (15, "r"); (1, "R"); (0, "K"); (29, "K")]%char in
  let suppressed :=
    FastaMixtureMarker.eliminate_clustered (Some 5) (FastaMixtureMarker.sorted_keys v) v in
  @FastaMixtureMarker.collect sample_numerics sample_marker df = (Return v, sample_marker) ∧
  @FastaMixtureMarker.mark_mixed sample_numerics sample_marker thirty_A (Some df)
  = (Return (Some [(29, "K"%char)], "ANAAAAAAAANAAAANAAAAAAAAAAAAAA"), sample_marker) ∧
  ∃ out,
    @FastaMixtureMarker.mark_mixed sample_numerics sample_marker thirty_A (Some df)
    = (Return (Some (FastaMixtureMarker.accepted suppressed), string_of_list_ascii out),
       sample_marker) ∧
    (FastaMixtureMarker.dict_get 0 suppressed = FastaMixtureMarker.dict_get 0 v ∧
     out !! Z.to_nat 0 = list_ascii_of_string thirty_A !! Z.to_nat 0) ∧
    (FastaMixtureMarker.dict_get 29 suppressed = FastaMixtureMarker.dict_get 29 v ∧
     out !! Z.to_nat 29 = list_ascii_of_string thirty_A !! Z.to_nat 29).
Proof.
  cbv zeta.
  assert (Hcollect :
    @FastaMixtureMarker.collect sample_numerics sample_marker
      [sample_call 11 10 0 5 0; sample_call 16 10 0 5 0; sample_call 2 5 0 10 0;
       sample_call 1 0 0 5 10; sample_call 30 0 0 5 10]
    = (Return [(10, "r"); (15, "r"); (1, "R"); (0, "K"); (29, "K")]%char, sample_marker))
    by (vm_compute; reflexivity).
  split; [exact Hcollect|]. split; [vm_compute; reflexivity|].
  destruct (@boundary_candidates_are_left_out sample_numerics _ _ thirty_A _ _ Hcollect)
    as (out & Hout & _ & Hedge & _).
  - apply (bool_decide_unpack _). vm_compute. exact I.
  - exists out. split; [exact Hout|]. split.
    + apply Hedge. left. vm_compute. reflexivity.
    + apply Hedge. right. vm_compute. reflexivity.
Defined.

(** C4 at the failing input: two rows whose 0-indexed positions 10 and 15
    differ by the clustering distance 5.  Both calls come back with their
    code [r], none is [N], and the sequence is returned as it was.  With two
    candidates, whatever they are, the clustering loop has no turn. *)
Theorem two_clustered_candidates_are_kept `{Numerics} :
  FastaMixtureMarker.mark_mixed sample_marker thirty_A
    (Some [sample_call 11 10 0 5 0; sample_call 16 10 0 5 0])
  = (Return (Some [(10, "r"%char); (15, "r"%char)], thirty_A), sample_marker) ∧
  (∀ cutoff e1 e2,
     FastaMixtureMarker.eliminate_clustered cutoff
       (FastaMixtureMarker.sorted_keys [e1; e2]) [e1; e2]
     = [e1; e2]).
Proof.
  split; [vm_compute; reflexivity|].
  intros cutoff e1 e2. unfold FastaMixtureMarker.eliminate_clustered.
  destruct cutoff as [cutoff|]; [|reflexivity].
  assert (Hlen : length (FastaMixtureMarker.sorted_keys [e1; e2]) = 2%nat).
  { unfold FastaMixtureMarker.sorted_keys. by rewrite merge_sort_Permutation. }
  unfold FastaMixtureMarker.interior. rewrite Hlen. reflexivity.
Qed.

(** * Further properties of the code *)

(** ** BinomialTest: the cache *)

Section cache.
Context `{Numerics}.

(** X1.  A call of [compute] never changes the error rate and never changes
    or drops an entry of the cache; it adds at most one entry.  When the call
    returns, with [depth] not 0 and [minor_variant_count] other than [depth],
    the key of the pair is in the cache afterwards; when the call raises (the
    [ValueError] of [stats.binom_test]), the instance is left as it was, so
    that no key has been stored. *)
Theorem cache_only_grows (self : BinomialTest.t) (m d : Z) :
  let r := BinomialTest.compute self m d in
  BinomialTest.expectedErrorRate r.2 = BinomialTest.expectedErrorRate self ∧
  BinomialTest.p_values self ⊆ BinomialTest.p_values r.2 ∧
  (size (BinomialTest.p_values r.2) ≤ S (size (BinomialTest.p_values self)))%nat ∧
  (∀ v, r.1 = Return v → d ≠ 0 → m ≠ d →
        is_Some (BinomialTest.p_values r.2 !! BinomialTest.key m d)) ∧
  (∀ e, r.1 = Raise e → r.2 = self).
Proof.
  cbv zeta. split; [apply compute_rate|].
  destruct (decide (d = 0)) as [->|Hd].
  { simpl. split; [done|]. split; [lia|]. split; [done|]. by intros e [=]. }
  destruct (decide (m = d)) as [->|Hm].
  { rewrite compute_equal by done. simpl.
    split; [done|]. split; [lia|]. split; [done|]. by intros e [=]. }
  destruct (BinomialTest.p_values self !! BinomialTest.key m d) as [p|] eqn:Hk.
  - rewrite (compute_cached self m d p) by done. simpl.
    split; [done|]. split; [lia|]. split; [|by intros e [=]].
    intros _ _ _ _. by rewrite Hk.
  - rewrite compute_fresh by done.
    destruct (binom_test m d (BinomialTest.expectedErrorRate self)) as [p|e|];
      simpl.
    + split; [by apply insert_subseteq|]. split.
      * by rewrite map_size_insert_None.
      * split; [|by intros e [=]]. intros _ _ _ _.
        rewrite lookup_insert_eq. by eexists.
    + split; [done|]. split; [lia|]. split; [by intros v [=]|done].
    + split; [done|]. split; [lia|]. split; [by intros v [=]|by intros e [=]].
Qed.

End cache.

(** X2.  The cache key of a pair belongs to this pair only: two pairs of
    integers have the same key exactly when they are the same pair. *)
Theorem cache_key_determines_pair (m d m' d' : Z) :
  BinomialTest.key m d = BinomialTest.key m' d' ↔ m = m' ∧ d = d'.
Proof.
  split; [apply key_inj|]. by intros [-> ->].
Qed.

(** ** vcfScan.add_roi: what a call registers *)

Lemma add_positions_other_regions (roi_name r : string) (ps : list Z) (self : vcfScan.t) :
  r ≠ roi_name →
  vcfScan.roi2psn (vcfScan.add_positions roi_name self ps).1 !! r
  = vcfScan.roi2psn self !! r.
Proof.
  intros Hr. revert self. induction ps as [|p ps IH]; intros self; simpl; [done|].
  destruct (p =? 0); [done|].
  rewrite IH, add_position_roi2psn. by apply lookup_alter_ne.
Qed.

Lemma add_positions_region (roi_name : string) (ps : list Z) (self : vcfScan.t)
    (s : gset Z) :
  vcfScan.roi2psn self !! roi_name = Some s → 0 ∉ ps →
  vcfScan.roi2psn (vcfScan.add_positions roi_name self ps).1 !! roi_name
  = Some (s ∪ list_to_set ps).
Proof.
  revert self s. induction ps as [|p ps IH]; intros self s Hs Hps;
    cbn [vcfScan.add_positions fst].
  - by rewrite Hs, list_to_set_nil, (right_id_L ∅ (∪)).
  - apply not_elem_of_cons in Hps as [Hp Hps].
    destruct (Z.eqb_spec p 0); [done|].
    rewrite (IH _ (s ∪ {[p]})); [|by rewrite add_position_roi2psn, lookup_alter_eq, Hs|done].
    by rewrite list_to_set_cons, (assoc_L (∪)).
Qed.

Lemma add_positions_inverse (roi_name : string) (ps : list Z) (self : vcfScan.t) (q : Z) :
  0 ∉ ps →
  vcfScan.psn2roi (vcfScan.add_positions roi_name self ps).1 !! q
  = if decide (q ∈ ps)
    then Some (default ∅ (vcfScan.psn2roi self !! q) ∪ {[roi_name]})
    else vcfScan.psn2roi self !! q.
Proof.
  revert self. induction ps as [|p ps IH]; intros self Hps.
  - case_decide as Hin; [by apply elem_of_nil in Hin|done].
  - apply not_elem_of_cons in Hps as [Hp Hps]. cbn [vcfScan.add_positions].
    destruct (Z.eqb_spec p 0); [done|].
    rewrite IH by done. rewrite add_position_psn2roi.
    destruct (decide (q = p)) as [->|Hq].
    + rewrite lookup_insert_eq. case_decide; case_decide as Hin; simpl.
      * by rewrite <- (assoc_L (∪)), (idemp_L (∪)).
      * exfalso. apply Hin. by left.
      * done.
      * exfalso. apply Hin. by left.
    + rewrite lookup_insert_ne by done.
      case_decide as Hin; case_decide as Hin'; try done.
      * exfalso. apply Hin'. by right.
      * apply elem_of_cons in Hin' as [?|?]; done.
Qed.

(** X3.  A call of [add_roi] whose positions do not contain 0 returns
    normally; afterwards the region maps to exactly the positions given,
    every other region maps to what it mapped to before, and a position maps
    to the regions it had before plus, if it is one of the positions given,
    the region added. *)
Theorem add_roi_registers (self : vcfScan.t) (roi_name : string) (ps : list Z) :
  0 ∉ ps →
  let self' := (vcfScan.add_roi self roi_name ps).1 in
  (vcfScan.add_roi self roi_name ps).2 = None ∧
  vcfScan.roi2psn self' !! roi_name = Some (list_to_set ps) ∧
  (∀ r, r ≠ roi_name → vcfScan.roi2psn self' !! r = vcfScan.roi2psn self !! r) ∧
  (∀ q, vcfScan.psn2roi self' !! q
        = if decide (q ∈ ps)
          then Some (default ∅ (vcfScan.psn2roi self !! q) ∪ {[roi_name]})
          else vcfScan.psn2roi self !! q).
Proof.
  intros Hps. cbv zeta. unfold vcfScan.add_roi.
  split; [by apply add_positions_nonzero|]. split; [|split].
  - rewrite (add_positions_region _ _ _ ∅); [|simpl; apply lookup_insert_eq|done].
    by rewrite (left_id_L ∅ (∪)).
  - intros r Hr. rewrite add_positions_other_regions by done.
    simpl. by apply lookup_insert_ne.
  - intros q. by rewrite add_positions_inverse.
Qed.

(** An instance: the second region of the test [test_vcfScan1]. *)
Lemma add_roi_registers_witness :
  let self := (vcfScan.add_roi default_scanner "One" [1; 2; 3]).1 in
  let self' := (vcfScan.add_roi self "Two" [2; 3; 4]).1 in
  (vcfScan.add_roi self "Two" [2; 3; 4]).2 = None ∧
  vcfScan.roi2psn self' !! "Two" = Some (list_to_set [2; 3; 4]) ∧
  vcfScan.roi2psn self' !! "One" = Some {[1; 2; 3]} ∧
  vcfScan.psn2roi self' !! 2 = Some {["One"; "Two"]} ∧
  vcfScan.psn2roi self' !! 1 = Some {["One"]}.
Proof.
  cbv zeta.
  destruct (add_roi_registers (vcfScan.add_roi default_scanner "One" [1; 2; 3]).1
              "Two" [2; 3; 4]) as (Hret & Hregion & Hothers & Hinverse).
  { apply (bool_decide_unpack _). vm_compute. exact I. }
  split; [exact Hret|]. split; [exact Hregion|]. split.
  - rewrite Hothers by discriminate. vm_compute. reflexivity.
  - split.
    + rewrite (Hinverse 2). vm_compute. reflexivity.
    + rewrite (Hinverse 1). vm_compute. reflexivity.
Defined.

(** ** vcfScan.add_roi: regions added once *)

Lemma add_roi_other_regions (self : vcfScan.t) (roi_name r : string) (ps : list Z) :
  r ≠ roi_name →
  vcfScan.roi2psn (vcfScan.add_roi self roi_name ps).1 !! r = vcfScan.roi2psn self !! r.
Proof.
  intros Hr. unfold vcfScan.add_roi. rewrite add_positions_other_regions by done.
  simpl. by apply lookup_insert_ne.
Qed.

(** X4.  Starting from a consistent index, calls of [add_roi] for regions
    that are new and pairwise different leave the index consistent: a
    position is in the set of a region exactly when the region is in the set
    of the position.  This holds also when some of the calls raise on a
    position 0. *)
Theorem regions_added_once_are_consistent (self : vcfScan.t)
    (regions : list (string * list Z)) :
  consistent self →
  NoDup regions.*1 →
  Forall (λ r, vcfScan.roi2psn self !! r = None) regions.*1 →
  consistent (add_rois self regions).
Proof.
  revert self. induction regions as [|[name ps] regions IH]; intros self Hc Hnodup Hnew;
    simpl; [done|].
  apply NoDup_cons in Hnodup as [Hname Hnodup].
  apply Forall_cons in Hnew as [Hfresh Hnew].
  apply IH; [by apply add_roi_fresh_consistent|done|].
  apply Forall_forall. intros r Hr.
  rewrite add_roi_other_regions.
  - by apply (proj1 (Forall_forall _ _) Hnew).
  - intros ->. by apply Hname.
Qed.

(** An instance: the regions of the test [test_vcfScan1] and the region with
    position 0 that the test expects to be refused, on a new object. *)
Lemma regions_added_once_are_consistent_witness :
  consistent (add_rois default_scanner
                [("One", [1; 2; 3]); ("Two", [2; 3; 4]); ("Not allowed", [7; 0; 8])]).
Proof.
  apply regions_added_once_are_consistent.
  - intros r p. simpl. rewrite !lookup_empty. split; intros (? & ? & ?); done.
  - apply (bool_decide_unpack _). vm_compute. exact I.
  - repeat apply Forall_cons_2; try apply Forall_nil_2; reflexivity.
Defined.

(** ** FastaMixtureMarker: the two most frequent bases *)

(** X5.  For every row of the table, the key that [mark_mixed] looks up is
    made of two different bases: the first has the greatest of the four
    depths, the second the greatest depth of the other three.  The key is
    always a key of the IUPAC table, so the lookup never raises [KeyError],
    and the code found is not [N]. *)
Theorem top2_are_the_deepest_bases (r : FastaMixtureMarker.call_row) :
  ∃ b1 b2 code,
    FastaMixtureMarker.top2 r = String b1 (String b2 "") ∧
    b1 ≠ b2 ∧
    Forall (λ b, base_depth r b ≤ base_depth r b1 ∧
                 (b ≠ b1 → base_depth r b ≤ base_depth r b2))
      ["A"; "C"; "G"; "T"]%char ∧
    getitem FastaMixtureMarker.iupac (FastaMixtureMarker.top2 r) = Return code ∧
    code ≠ "N"%char.
Proof.
  unfold FastaMixtureMarker.top2, FastaMixtureMarker.sort_by_depth. simpl.
  repeat match goal with
         | |- context [?x <? ?y] => destruct (Z.ltb_spec x y); simpl
         end;
    try lia;
    eexists _, _, _; (split; [reflexivity|]); (split; [discriminate|]);
    (split; [|split; [vm_compute; reflexivity|discriminate]]);
    repeat apply Forall_cons_2; try apply Forall_nil_2;
    unfold base_depth; simpl; (split; [lia|intros ?; first [lia|done]]).
Qed.

(** ** FastaMixtureMarker: the clustering rule at interior candidates *)

Section clustering.
Import FastaMixtureMarker.

Lemma dict_get_set_eq (k : Z) (x : ascii) (d : calls) :
  dict_get k (dict_set k x d) = Return x.
Proof.
  induction d as [|[k' x'] d IH]; simpl.
  - by rewrite Z.eqb_refl.
  - destruct (Z.eqb_spec k' k) as [->|Hk]; simpl.
    + by rewrite Z.eqb_refl.
    + by destruct (Z.eqb_spec k' k).
Qed.

Lemma suppress_at (cutoff : Z) (bases : list Z) (d : calls) (i : nat) :
  dict_get (bases !!! i) (suppress cutoff bases d i)
  = if decide (bases !!! i - bases !!! (i - 1)%nat ≤ cutoff ∨
               bases !!! (i + 1)%nat - bases !!! i ≤ cutoff)
    then Return "N"%char else dict_get (bases !!! i) d.
Proof.
  unfold suppress.
  destruct (Z.leb_spec (bases !!! i - bases !!! (i - 1)%nat) cutoff);
    destruct (Z.leb_spec (bases !!! (i + 1)%nat - bases !!! i) cutoff);
    rewrite ?dict_get_set_eq; case_decide; try done; lia.
Qed.

Lemma sorted_keys_ascending (d : calls) (i j : nat) (p q : Z) :
  NoDup d.*1 → (i < j)%nat →
  sorted_keys d !! i = Some p → sorted_keys d !! j = Some q → p < q.
Proof.
  intros Hnodup Hij Hi Hj.
  assert (Hsorted : StronglySorted Z.le (sorted_keys d))
    by apply (StronglySorted_merge_sort _).
  assert (Hnodup' : NoDup (sorted_keys d)) by (by rewrite sorted_keys_Permutation).
  assert (p ≠ q).
  { intros ->. pose proof (NoDup_lookup _ _ _ _ Hnodup' Hi Hj). lia. }
  assert (p ≤ q); [|lia].
  clear Hnodup Hnodup' H. revert i j Hij Hi Hj.
  induction Hsorted as [|x l Hsorted IH Hall]; intros i j Hij Hi Hj; [done|].
  destruct j as [|j]; [lia|]. simpl in Hj. destruct i as [|i].
  - injection Hi as ->.
    by apply (proj1 (Forall_forall _ _) Hall), (list_elem_of_lookup_2 _ j).
  - apply (IH i j); [lia|done..].
Qed.

(** X6.  Let the candidate calls have distinct positions, and take a
    candidate that is neither the first nor the last in the order of the
    positions.  With a clustering distance set, the clustering loop gives it
    the code [N] if another candidate lies within that distance of it, and
    leaves its code as it was if none does. *)
Theorem interior_candidate_is_N_iff_another_is_near (cutoff : Z) (d : calls)
    (i : nat) (p : Z) :
  NoDup d.*1 →
  sorted_keys d !! i = Some p →
  (1 ≤ i)%nat → (i + 1 < length (sorted_keys d))%nat →
  let suppressed := eliminate_clustered (Some cutoff) (sorted_keys d) d in
  ((∃ q, q ∈ d.*1 ∧ q ≠ p ∧ Z.abs (p - q) ≤ cutoff) →
   dict_get p suppressed = Return "N"%char) ∧
  (¬ (∃ q, q ∈ d.*1 ∧ q ≠ p ∧ Z.abs (p - q) ≤ cutoff) →
   dict_get p suppressed = dict_get p d).
Proof.
  intros Hnodup Hp Hi1 Hi2 suppressed.
  set (bases := sorted_keys d) in *.
  assert (Hperm : bases ≡ₚ d.*1) by apply sorted_keys_Permutation.
  assert (Hnodup' : NoDup bases) by (by rewrite Hperm).
  assert (Hi : i ∈ interior bases) by (by apply elem_of_interior).
  assert (Hpi : bases !!! i = p) by (by apply list_lookup_total_correct).
  assert (Hkey : ∀ j, j ∈ interior bases → bases !!! j ∈ d.*1).
  { intros j Hj. rewrite <- Hperm. apply list_elem_of_lookup.
    exists j. by apply interior_lookup. }
  (* the turn of the loop for [i] is the only one that writes at [p] *)
  assert (Hrule : dict_get p suppressed
                  = if decide (p - bases !!! (i - 1)%nat ≤ cutoff ∨
                               bases !!! (i + 1)%nat - p ≤ cutoff)
                    then Return "N"%char else dict_get p d).
  { subst suppressed. unfold eliminate_clustered.
    assert (Hrange : NoDup (interior bases)) by apply NoDup_seq.
    destruct (list_elem_of_split _ _ Hi) as (l1 & l2 & Hsplit).
    rewrite Hsplit in Hrange, Hkey. rewrite Hsplit.
    apply NoDup_app in Hrange as (_ & Hl1 & Hl2).
    apply NoDup_cons in Hl2 as [Hl2 _].
    assert (Hother : ∀ j, j ∈ l1 ++ i :: l2 → j ≠ i → bases !!! j ≠ p).
    { intros j Hj Hne Heq. apply Hne.
      rewrite <- Hsplit in Hj. pose proof (interior_lookup bases j Hj) as Hlj.
      rewrite Heq in Hlj. by apply (NoDup_lookup _ _ _ _ Hnodup' Hlj Hp). }
    rewrite foldl_app. cbn [foldl].
    destruct (suppress_all_spec cutoff bases l1 d) as [Hkeys1 Hget1].
    { intros j Hj. apply Hkey. apply elem_of_app. by left. }
    set (d1 := foldl (suppress cutoff bases) d l1) in *.
    destruct (suppress_spec cutoff bases d1 i) as [Hkeys2 _].
    { rewrite Hkeys1. apply Hkey. apply elem_of_app. right. by left. }
    destruct (suppress_all_spec cutoff bases l2 (suppress cutoff bases d1 i))
      as [_ Hget2].
    { intros j Hj. rewrite Hkeys2, Hkeys1. apply Hkey.
      apply elem_of_app. right. by right. }
    rewrite Hget2.
    - rewrite <- Hpi at 1. rewrite suppress_at, Hpi.
      rewrite Hget1; [done|].
      intros j Hj. apply Hother; [apply elem_of_app; by left|].
      intros ->. by apply (Hl1 i); [|left].
    - intros j Hj. apply Hother; [apply elem_of_app; right; by right|].
      by intros ->. }
  (* the neighbours in the order of the positions are the nearest candidates *)
  assert (Hprev : bases !! (i - 1)%nat = Some (bases !!! (i - 1)%nat))
    by (apply list_lookup_lookup_total_lt; lia).
  assert (Hnext : bases !! (i + 1)%nat = Some (bases !!! (i + 1)%nat))
    by (apply list_lookup_lookup_total_lt; lia).
  pose proof (sorted_keys_ascending d (i - 1) i _ _ Hnodup ltac:(lia) Hprev Hp) as Hlt1.
  pose proof (sorted_keys_ascending d i (i + 1) _ _ Hnodup ltac:(lia) Hp Hnext) as Hlt2.
  assert (Hnear : (∃ q, q ∈ d.*1 ∧ q ≠ p ∧ Z.abs (p - q) ≤ cutoff) ↔
                  (p - bases !!! (i - 1)%nat ≤ cutoff ∨
                   bases !!! (i + 1)%nat - p ≤ cutoff)).
  { split.
    - intros (q & Hq & Hne & Hdist). rewrite <- Hperm in Hq.
      apply list_elem_of_lookup in Hq as [j Hj].
      destruct (decide (j < i)%nat) as [Hlt|Hge].
      + left. destruct (decide (j = i - 1)%nat) as [->|Hj'].
        * rewrite Hprev in Hj. injection Hj as <-. lia.
        * pose proof (sorted_keys_ascending d j (i - 1) _ _ Hnodup ltac:(lia) Hj Hprev).
          lia.
      + right. destruct (decide (j = i)) as [->|Hji]; [congruence|].
        destruct (decide (j = i + 1)%nat) as [->|Hj'].
        * rewrite Hnext in Hj. injection Hj as <-. lia.
        * pose proof (sorted_keys_ascending d (i + 1) j _ _ Hnodup ltac:(lia) Hnext Hj).
          lia.
    - intros [Hd|Hd].
      + exists (bases !!! (i - 1)%nat). split; [|lia].
        rewrite <- Hperm. by eapply list_elem_of_lookup_2.
      + exists (bases !!! (i + 1)%nat). split; [|lia].
        rewrite <- Hperm. by eapply list_elem_of_lookup_2. }
  rewrite Hrule. split; intros Hq.
  - rewrite decide_True; [done|]. by apply Hnear.
  - rewrite decide_False; [done|]. intros Hd. by apply Hq, Hnear.
Qed.

End clustering.

(** Five candidates and the distance 5: the candidate at 10 has the one at 15
    within this distance and becomes [N]; with the distance 4 no candidate is
    within it and the code [r] stays. *)
Lemma interior_candidate_is_N_iff_another_is_near_witness :
  let d := [(10, "r"); (15, "r"); (1, "R"); (0, "K"); (29, "K")]%char in
  FastaMixtureMarker.dict_get 10
    (FastaMixtureMarker.eliminate_clustered (Some 5) (FastaMixtureMarker.sorted_keys d) d)
  = Return "N"%char ∧
  FastaMixtureMarker.dict_get 10
    (FastaMixtureMarker.eliminate_clustered (Some 4) (FastaMixtureMarker.sorted_keys d) d)
  = Return "r"%char.
Proof.
  cbv zeta. split.
  - refine (proj1 (interior_candidate_is_N_iff_another_is_near 5
               [(10, "r"); (15, "r"); (1, "R"); (0, "K"); (29, "K")]%char 2 10
               _ _ _ _) _).
    + apply (bool_decide_unpack _). vm_compute. exact I.
    + vm_compute. reflexivity.
    + lia.
    + vm_compute. lia.
    + exists 15. split; [|split; [lia|vm_compute; discriminate]].
      apply (bool_decide_unpack _). vm_compute. exact I.
  - change (Return "r"%char)
      with (FastaMixtureMarker.dict_get 10
              [(10, "r"); (15, "r"); (1, "R"); (0, "K"); (29, "K")]%char).
    refine (proj2 (interior_candidate_is_N_iff_another_is_near 4
               [(10, "r"); (15, "r"); (1, "R"); (0, "K"); (29, "K")]%char 2 10
               _ _ _ _) _).
    + apply (bool_decide_unpack _). vm_compute. exact I.
    + vm_compute. reflexivity.
    + lia.
    + vm_compute. lia.
    + intros (q & Hq & Hne & Hdist).
      assert (Hall : Forall (λ q, q ≠ 10 → ¬ Z.abs (10 - q) ≤ 4) [10; 15; 1; 0; 29]).
      { repeat apply Forall_cons_2; try apply Forall_nil_2; lia. }
      by apply (proj1 (Forall_forall _ _) Hall q Hq Hne).
Defined.

(** ** FastaMixtureMarker: the candidates collected from the table *)

Section collect.
Import FastaMixtureMarker.
Context `{Numerics}.

Lemma top2_in_table (r : call_row) : is_Some (iupac !! top2 r).
Proof.
  unfold top2, sort_by_depth. simpl.
  repeat (case_match; simpl); by eexists.
Qed.

Lemma getitem_top2 (r : call_row) :
  getitem iupac (top2 r) = Return (call_of r).2.
Proof.
  unfold getitem, call_of. simpl.
  by destruct (top2_in_table r) as [c ->].
Qed.

Lemma elem_of_dict_set (k : Z) (x : ascii) (d : calls) (e : Z * ascii) :
  e ∈ dict_set k x d → e = (k, x) ∨ e ∈ d.
Proof.
  induction d as [|[k' x'] d IH]; simpl.
  - intros He. apply list_elem_of_singleton in He. by left.
  - destruct (Z.eqb_spec k' k) as [->|Hk]; intros He.
    + apply elem_of_cons in He as [->|He]; [by left|]. right. by right.
    + apply elem_of_cons in He as [->|He]; [right; by left|].
      destruct (IH He) as [->|Hd]; [by left|]. right. by right.
Qed.

Lemma dict_set_fresh (k : Z) (x : ascii) (d : calls) :
  k ∉ d.*1 → dict_set k x d = d ++ [(k, x)].
Proof.
  induction d as [|[k' x'] d IH]; simpl; intros Hk; [done|].
  destruct (Z.eqb_spec k' k) as [->|Hne].
  - exfalso. apply Hk. by left.
  - f_equal. apply IH. intros Hin. apply Hk. by right.
Qed.

Lemma filter_absent (x : Z) (l : list Z) :
  x ∉ l → filter (λ j, j = x) l = [].
Proof.
  induction l as [|y l IH]; intros Hx; [done|].
  apply not_elem_of_cons in Hx as [Hy Hx].
  rewrite filter_cons_False by congruence. by apply IH.
Qed.

Lemma filter_once (x : Z) (l : list Z) :
  NoDup l → x ∈ l → filter (λ j, j = x) l = [x].
Proof.
  induction l as [|y l IH]; intros Hnodup Hin; [by apply elem_of_nil in Hin|].
  apply NoDup_cons in Hnodup as [Hy Hnodup].
  destruct (decide (y = x)) as [->|Hne].
  - rewrite filter_cons_True by done. f_equal. by apply filter_absent.
  - rewrite filter_cons_False by done. apply IH; [done|].
    apply elem_of_cons in Hin as [Heq|Hin]; [congruence|done].
Qed.

Lemma once_each_NoDup (l : list Z) :
  (∀ x, x ∈ l → ¬ (1 < length (filter (λ j, j = x) l))%nat) → NoDup l.
Proof.
  induction l as [|x l IH]; intros Hcount; [apply NoDup_nil_2|].
  apply NoDup_cons. split.
  - intros Hin. apply (Hcount x); [by left|].
    rewrite filter_cons_True by done. simpl.
    assert (Hx : x ∈ filter (λ j, j = x) l) by (by apply list_elem_of_filter).
    destruct (filter (λ j, j = x) l); [by apply elem_of_nil in Hx|simpl; lia].
  - apply IH. intros y Hy Hlen. apply (Hcount y); [by right|].
    destruct (decide (x = y)) as [->|Hne].
    + rewrite filter_cons_True by done. simpl. lia.
    + by rewrite filter_cons_False.
Qed.

Lemma collect_row_sound (index : list Z) (r : call_row) (d d' : calls) (self self' : t) :
  collect_row index r (d, self) = (Return d', self') →
  ¬ (1 < length (filter (λ j, j = pos r) index))%nat ∧
  self' = set_bt (bt self') self ∧
  BinomialTest.expectedErrorRate (bt self') = BinomialTest.expectedErrorRate (bt self) ∧
  ∀ e, e ∈ d' → e ∈ d ∨ from_row self r e.
Proof.
  unfold collect_row. intros Hrow.
  destruct (Nat.ltb_spec 1 (length (filter (λ j, j = pos r) index)));
    [discriminate Hrow|].
  split; [lia|].
  assert (Hself : self = set_bt (bt self) self) by (by destruct self).
  destruct (PrimFloat.leb (min_maf self) (maf r)) eqn:Hmaf;
    [|injection Hrow as <- <-; split; [done|split; [done|by left]]].
  assert (Hcall : ∀ e, e ∈ dict_set (pos r - 1) (call_of r).2 d →
                       (PrimFloat.is_nan (mlp r) = false →
                        PrimFloat.leb (mlp_cutoff self) (mlp r) = true) →
                       e ∈ d ∨ from_row self r e).
  { intros e He Hmlp. apply elem_of_dict_set in He as [->|He]; [|by left].
    right. unfold from_row. simpl. split; [lia|]. split; [done|]. split; [done|].
    by destruct (top2_in_table r) as [c ->]. }
  destruct (PrimFloat.is_nan (mlp r)) eqn:Hnan.
  - pose proof (compute_rate (bt self) (nonmajor r) (depth r)) as Hrate.
    destruct (BinomialTest.compute _ _ _) as [[[p m]|e|] bt']; simpl in Hrow;
      try discriminate Hrow.
    destruct (ge_cutoff m (mlp_cutoff _)) as [[|]|e|]; simpl in Hrow;
      try discriminate Hrow.
    + rewrite getitem_top2 in Hrow. simpl in Hrow. injection Hrow as <- <-.
      split; [done|]. split; [done|]. intros e He. by apply Hcall.
    + injection Hrow as <- <-. split; [done|]. split; [done|]. by left.
  - simpl in Hrow.
    destruct (PrimFloat.leb (mlp_cutoff self) (mlp r)) eqn:Hmlp; simpl in Hrow.
    + rewrite getitem_top2 in Hrow. simpl in Hrow. injection Hrow as <- <-.
      split; [done|]. split; [done|]. intros e He. by apply Hcall.
    + injection Hrow as <- <-. split; [done|]. split; [done|]. by left.
Qed.

Lemma collect_rows_sound (index : list Z) (rows : list call_row) (d d' : calls)
    (self self' : t) :
  collect_rows index rows (d, self) = (Return d', self') →
  (∀ r, r ∈ rows → ¬ (1 < length (filter (λ j, j = pos r) index))%nat) ∧
  self' = set_bt (bt self') self ∧
  BinomialTest.expectedErrorRate (bt self') = BinomialTest.expectedErrorRate (bt self) ∧
  ∀ e, e ∈ d' → e ∈ d ∨ ∃ r, r ∈ rows ∧ from_row self r e.
Proof.
  revert d self. induction rows as [|r rows IH]; intros d self.
  - intros [= <- <-]. split; [by intros r Hr; apply elem_of_nil in Hr|].
    split; [by destruct self|]. split; [done|]. by left.
  - cbn [collect_rows].
    destruct (collect_row index r (d, self)) as [[d1|e|] self1] eqn:Hrow;
      try discriminate.
    intros Hrows.
    destruct (collect_row_sound _ _ _ _ _ _ Hrow) as (Hcount & Hself & Hrate & Hfrom).
    destruct (IH _ _ Hrows) as (Hcount' & Hself' & Hrate' & Hfrom').
    split; [|split; [|split]].
    + intros r' Hr'. apply elem_of_cons in Hr' as [->|Hr']; [done|by apply Hcount'].
    + rewrite Hself', Hself. reflexivity.
    + congruence.
    + intros e He. destruct (Hfrom' e He) as [Hd1|(r' & Hr' & Hfrom1)].
      * destruct (Hfrom e Hd1) as [Hd|Hr]; [by left|].
        right. exists r. split; [by left|done].
      * right. exists r'. split; [by right|].
        rewrite Hself in Hfrom1. exact Hfrom1.
Qed.

(** X7.  When the loop over the table ends without an exception,
    - no label occurs twice in the index of the table;
    - the marker is as it was, up to the cache of its tester, whose error
      rate is unchanged;
    - every candidate collected stems from a row of the table: its position
      is the label of the row less one, the [maf] of the row is at least
      [min_maf], its [mlp], if the cell is filled, is at least
      [mlp_cutoff], and its code is the IUPAC code of the two most frequent
      bases of the row. *)
Theorem collected_candidates_stem_from_rows (self self' : t) (df : list call_row)
    (variants_to_update : calls) :
  collect self df = (Return variants_to_update, self') →
  NoDup (pos <$> df) ∧
  self' = set_bt (bt self') self ∧
  BinomialTest.expectedErrorRate (bt self') = BinomialTest.expectedErrorRate (bt self) ∧
  ∀ p c, (p, c) ∈ variants_to_update →
    ∃ r, r ∈ df ∧ pos r = p + 1 ∧
         PrimFloat.leb (min_maf self) (maf r) = true ∧
         (PrimFloat.is_nan (mlp r) = false →
          PrimFloat.leb (mlp_cutoff self) (mlp r) = true) ∧
         iupac !! top2 r = Some c.
Proof.
  intros Hcollect.
  destruct (collect_rows_sound _ _ _ _ _ _ Hcollect) as (Hcount & Hself & Hrate & Hfrom).
  split; [|split; [done|split; [done|]]].
  - apply once_each_NoDup. intros x Hx.
    apply list_elem_of_fmap in Hx as (r & -> & Hr). by apply Hcount.
  - intros p c He. destruct (Hfrom _ He) as [Hnil|(r & Hr & Hfrom1)].
    + by apply elem_of_nil in Hnil.
    + exists r. split; [done|]. exact Hfrom1.
Qed.

Lemma collect_rows_filled (index : list Z) (rows : list call_row) (d : calls) (self : t) :
  (∀ r, r ∈ rows → ¬ (1 < length (filter (λ j, j = pos r) index))%nat) →
  NoDup (pos <$> rows) →
  (∀ r, r ∈ rows → pos r - 1 ∉ d.*1) →
  Forall (λ r, PrimFloat.leb (min_maf self) (maf r) = true →
               PrimFloat.is_nan (mlp r) = false) rows →
  collect_rows index rows (d, self)
  = (Return (d ++ (call_of <$> filter (λ r, passes self r = true) rows)), self).
Proof.
  revert d. induction rows as [|r rows IH]; intros d Hcount Hnodup Hfresh Hfilled.
  - simpl. by rewrite app_nil_r.
  - rewrite fmap_cons in Hnodup. apply NoDup_cons in Hnodup as [Hr Hnodup].
    apply Forall_cons in Hfilled as [Hmlp Hfilled].
    cbn [collect_rows]. unfold collect_row.
    destruct (Nat.ltb_spec 1 (length (filter (λ j, j = pos r) index))) as [Hlt|_].
    { exfalso. by apply (Hcount r); [left|]. }
    unfold passes at 1.
    destruct (PrimFloat.leb (min_maf self) (maf r)) eqn:Hmaf.
    + rewrite (Hmlp eq_refl). simpl.
      destruct (PrimFloat.leb (mlp_cutoff self) (mlp r)) eqn:Hcut; simpl.
      * rewrite getitem_top2. simpl.
        rewrite dict_set_fresh by (apply Hfresh; by left).
        rewrite IH; try done.
        -- rewrite filter_cons_True by (unfold passes; by rewrite Hmaf, Hcut).
           rewrite fmap_cons, <- app_assoc. reflexivity.
        -- intros r' Hr'. apply Hcount. by right.
        -- intros r' Hr'. rewrite fmap_app. simpl. intros Hin.
           apply elem_of_app in Hin as [Hin|Hin].
           ++ by apply (Hfresh r'); [right|].
           ++ apply list_elem_of_singleton in Hin. apply Hr.
              apply list_elem_of_fmap. exists r'. split; [lia|done].
      * rewrite IH; try done.
        -- rewrite filter_cons_False; [done|].
           unfold passes. rewrite Hmaf, Hcut. simpl. discriminate.
        -- intros r' Hr'. apply Hcount. by right.
        -- intros r' Hr'. apply Hfresh. by right.
    + rewrite IH; try done.
      * rewrite filter_cons_False; [done|].
        unfold passes. rewrite Hmaf. simpl. discriminate.
      * intros r' Hr'. apply Hcount. by right.
      * intros r' Hr'. apply Hfresh. by right.
Qed.

(** X8.  Take a table in which no label occurs twice and in which every
    row whose [maf] is at least [min_maf] has its [mlp] cell filled.  Then
    the loop over the table raises nothing, runs no binomial test and leaves
    the marker as it is, and the candidates it collects are, in the order
    of the table, the calls of exactly the rows that pass the two tests. *)
Theorem collect_of_a_filled_table (self : t) (df : list call_row) :
  NoDup (pos <$> df) →
  Forall (λ r, PrimFloat.leb (min_maf self) (maf r) = true →
               PrimFloat.is_nan (mlp r) = false) df →
  collect self df
  = (Return (call_of <$> filter (λ r, passes self r = true) df), self).
Proof.
  intros Hnodup Hfilled. unfold collect.
  rewrite collect_rows_filled; try done.
  - intros r Hr Hlt.
    assert (Hone : filter (λ j, j = pos r) (pos <$> df) = [pos r])
      by (by apply filter_once; [|apply list_elem_of_fmap_2]).
    rewrite Hone in Hlt. simpl in Hlt. lia.
  - intros r _ Hin. by apply elem_of_nil in Hin.
Qed.

End collect.

(** The table of five rows: the candidate at the 0-indexed position 10 stems
    from the row labelled 11, whose two most frequent bases are A and G. *)
Lemma collected_candidates_stem_from_rows_witness :
  let df := [sample_call 11 10 0 5 0; sample_call 16 10 0 5 0; sample_call 2 5 0 10 0;
             sample_call 1 0 0 5 10; sample_call 30 0 0 5 10] in
  NoDup (FastaMixtureMarker.pos <$> df) ∧
  ∃ r, r ∈ df ∧ FastaMixtureMarker.pos r = 10 + 1 ∧
       FastaMixtureMarker.iupac !! FastaMixtureMarker.top2 r = Some "r"%char.
Proof.
  cbv zeta.
  destruct (@collected_candidates_stem_from_rows sample_numerics sample_marker sample_marker
              [sample_call 11 10 0 5 0; sample_call 16 10 0 5 0; sample_call 2 5 0 10 0;
               sample_call 1 0 0 5 10; sample_call 30 0 0 5 10]
              [(10, "r"); (15, "r"); (1, "R"); (0, "K"); (29, "K")]%char)
    as (Hnodup & _ & _ & Hfrom); [vm_compute; reflexivity|].
  split; [exact Hnodup|].
  destruct (Hfrom 10 "r"%char) as (r & Hr & Hpos & _ & _ & Hcode).
  - apply (bool_decide_unpack _). vm_compute. exact I.
  - exists r. split; [exact Hr|]. split; [exact Hpos|exact Hcode].
Defined.

(** A table of four rows: the second has a score below the cutoff 6.5, the
    third an empty [maf] cell (NaN) and an empty [mlp] cell; the calls of the
    first and the fourth are collected. *)
Lemma collect_of_a_filled_table_witness :
  @FastaMixtureMarker.collect sample_numerics sample_marker
    [scored_call 11 10 0 5 0 0.25 10; scored_call 16 10 0 5 0 0.25 3;
     scored_call 20 0 0 0 0 nan nan; scored_call 30 0 0 5 10 0.25 7]
  = (Return [(10, "r"%char); (29, "K"%char)], sample_marker).
Proof.
  rewrite (@collect_of_a_filled_table sample_numerics).
  - vm_compute. reflexivity.
  - apply (bool_decide_unpack _). vm_compute. exact I.
  - repeat apply Forall_cons_2; try apply Forall_nil_2; vm_compute; congruence.
Defined.

(** ** vcfScan._parse: what a scan leaves of the object *)

Section hoare.
Context {A B : Type}.
Implicit Types (P E : vcfScan.scan → Prop).

Lemma hoare_ret P E (Q : A → vcfScan.scan → Prop) (a : A) :
  (∀ st, P st → Q a st) → hoare P (vcfScan.ret a) Q E.
Proof. intros HQ st HP. by apply HQ. Qed.

Lemma hoare_raise P E (Q : A → vcfScan.scan → Prop) (e : exn) :
  (∀ st, P st → E st) → hoare P (vcfScan.raise e) Q E.
Proof. intros HE st HP. by apply HE. Qed.

Lemma hoare_lift P (o : outcome A) : hoare P (vcfScan.lift o) (λ _, P) P.
Proof. intros st HP. unfold vcfScan.lift. by destruct o. Qed.

Lemma hoare_get P E : hoare P vcfScan.get (λ s st, s = st ∧ P st) E.
Proof. by intros st HP. Qed.

Lemma hoare_modify P E (Q : unit → vcfScan.scan → Prop) (f : vcfScan.scan → vcfScan.scan) :
  (∀ st, P st → Q tt (f st)) → hoare P (vcfScan.modify f) Q E.
Proof. intros HQ st HP. by apply HQ. Qed.

Lemma hoare_bind P E (Q : A → vcfScan.scan → Prop) (R : B → vcfScan.scan → Prop)
    (m : vcfScan.M A) (k : A → vcfScan.M B) :
  hoare P m Q E → (∀ a, hoare (Q a) (k a) R E) → hoare P (vcfScan.bindM m k) R E.
Proof.
  intros Hm Hk st HP. unfold vcfScan.bindM. specialize (Hm st HP).
  destruct (m st) as [[a|e|] st']; [|done..]. by apply Hk.
Qed.

Lemma hoare_consequence P P' E E' (Q Q' : A → vcfScan.scan → Prop) (m : vcfScan.M A) :
  hoare P' m Q' E' →
  (∀ st, P st → P' st) → (∀ a st, Q' a st → Q a st) → (∀ st, E' st → E st) →
  hoare P m Q E.
Proof.
  intros Hm HP HQ HE st Hst. specialize (Hm st (HP st Hst)).
  destruct (m st) as [[a|e|] st']; auto.
Qed.

End hoare.

Section keeps.
Context {A B : Type}.
Implicit Types (P : vcfScan.scan → Prop).

Lemma keeps_ret P (a : A) : keeps P (vcfScan.ret a).
Proof. by apply hoare_ret. Qed.

Lemma keeps_raise P (e : exn) : keeps P (@vcfScan.raise A e).
Proof. by apply hoare_raise. Qed.

Lemma keeps_lift P (o : outcome A) : keeps P (vcfScan.lift o).
Proof. apply hoare_lift. Qed.

Lemma keeps_get P : keeps P vcfScan.get.
Proof. by intros st HP. Qed.

Lemma keeps_modify P (f : vcfScan.scan → vcfScan.scan) :
  (∀ st, P st → P (f st)) → keeps P (vcfScan.modify f).
Proof. intros Hf st HP. by apply Hf. Qed.

Lemma keeps_bind P (m : vcfScan.M A) (k : A → vcfScan.M B) :
  keeps P m → (∀ a, keeps P (k a)) → keeps P (vcfScan.bindM m k).
Proof. apply hoare_bind. Qed.

End keeps.

(** Splits a computation along its binds and case distinctions; what is
    left are the writes of the state. *)
Ltac keeps_step :=
  lazymatch goal with
  | |- keeps _ (vcfScan.bindM _ _) => apply keeps_bind; [|intros ?]
  | |- keeps _ (vcfScan.ret _) => apply keeps_ret
  | |- keeps _ (vcfScan.raise _) => apply keeps_raise
  | |- keeps _ (vcfScan.lift _) => apply keeps_lift
  | |- keeps _ vcfScan.get => apply keeps_get
  | |- keeps _ (vcfScan.modify _) => apply keeps_modify
  | |- keeps _ (match ?x with _ => _ end) => destruct x
  end.

Lemma compute_keeps_entries `{Numerics} (self : BinomialTest.t) (m d : Z) :
  BinomialTest.p_values self ⊆ BinomialTest.p_values (BinomialTest.compute self m d).2.
Proof.
  unfold BinomialTest.compute.
  destruct (d =? 0); [done|]. destruct (m =? d); [done|]. simpl.
  destruct (BinomialTest.p_values self !! BinomialTest.key m d) eqn:Hk; simpl; [done|].
  unfold BinomialTest.run_test.
  destruct (binom_test m d (BinomialTest.expectedErrorRate self)); simpl; [|done..].
  by apply insert_subseteq.
Qed.

Section frame.
Context `{Numerics}.
Variable self0 : vcfScan.t.

Lemma scanning_warn (w : vcfScan.warning) (st : vcfScan.scan) :
  scanning self0 st → scanning self0 (vcfScan.warn w st).
Proof. done. Qed.

Lemma scanning_add_row (r : vcfScan.base_row) (st : vcfScan.scan) :
  scanning self0 st → scanning self0 (vcfScan.add_row r st).
Proof. done. Qed.

Lemma scanning_set_sought (now : Z) (psns : list Z) (st : vcfScan.scan) :
  scanning self0 st → scanning self0 (vcfScan.set_sought now psns st).
Proof. done. Qed.

Lemma scanning_autodetect infos fields :
  keeps (scanning self0) (vcfScan.autodetect infos fields).
Proof.
  intros st Hst. unfold vcfScan.autodetect, vcfScan.bindM, vcfScan.get.
  destruct Hst as [(? & ? & ? & ? & ? & ? & ? & ? & Htags) Hbases].
  assert (Hauto : vcfScan.infotag (vcfScan.self st) = Some "auto" →
                  ¬ vcfScan.infotag self0 ≠ Some "auto").
  { intros Hst Hne. destruct (Htags Hne) as [Htag _]. congruence. }
  repeat case_decide; simpl; try done;
    repeat split; simpl; try done; exfalso; by eapply Hauto.
Qed.

Lemma scanning_info_counts pos infos :
  keeps (scanning self0) (vcfScan.info_counts pos infos).
Proof.
  unfold vcfScan.info_counts. repeat keeps_step. apply scanning_warn.
Qed.

Lemma scanning_field_counts fields sampleInfo baseCounts :
  keeps (scanning self0) (vcfScan.field_counts fields sampleInfo baseCounts).
Proof. unfold vcfScan.field_counts. repeat keeps_step. Qed.

Lemma scanning_samtools_counts ref alts baseCounts :
  keeps (scanning self0) (vcfScan.samtools_counts ref alts baseCounts).
Proof. unfold vcfScan.samtools_counts. repeat keeps_step. Qed.

Lemma scanning_score nonmajor depth :
  keeps (scanning self0) (vcfScan.score nonmajor depth).
Proof.
  intros st Hst. unfold vcfScan.score.
  destruct (vcfScan.compute_pvalue (vcfScan.self st)); [|done].
  pose proof (compute_rate (vcfScan.bt (vcfScan.self st)) nonmajor depth) as Hrate.
  pose proof (compute_keeps_entries (vcfScan.bt (vcfScan.self st)) nonmajor depth) as Hsub.
  destruct Hst as [(? & ? & ? & ? & ? & ? & ? & ? & Htags) Hbases].
  assert (scanning self0
            (vcfScan.set_self
               (vcfScan.set_bt
                  (BinomialTest.compute (vcfScan.bt (vcfScan.self st)) nonmajor depth).2
                  (vcfScan.self st)) st)).
  { repeat split; simpl; try done; try congruence; try (by apply Htags).
    by etrans. }
  by destruct (BinomialTest.compute _ _ _) as [[[p mlp]|e|] bt'].
Qed.

Lemma scanning_report roi_names row :
  keeps (scanning self0) (vcfScan.report roi_names row).
Proof.
  induction roi_names as [|roi_name rest IH]; simpl; [apply keeps_ret|].
  repeat keeps_step; done.
Qed.

Lemma scanning_found pos ref alts infos fields sampleInfo :
  keeps (scanning self0) (vcfScan.found pos ref alts infos fields sampleInfo).
Proof.
  unfold vcfScan.found.
  repeat first
    [ apply scanning_autodetect | apply scanning_info_counts
    | apply scanning_field_counts | apply scanning_samtools_counts
    | apply scanning_score | apply scanning_report
    | apply scanning_set_sought | keeps_step ].
Qed.

Lemma scanning_adjust_scan pos : keeps (scanning self0) (vcfScan.adjust_scan pos).
Proof.
  intros st Hst. unfold vcfScan.adjust_scan.
  destruct (pos <=? vcfScan.sought_now st); [done|].
  destruct (vcfScan.warning_emitted st);
    by destruct (vcfScan.catch_up _ _ _) as [[now psns]|e|].
Qed.

Lemma scanning_process_line line : keeps (scanning self0) (vcfScan.process_line line).
Proof.
  unfold vcfScan.process_line.
  destruct line as [|c line]; [apply keeps_raise|].
  destruct (Ascii.eqb c "#"); [apply keeps_ret|].
  destruct (contains "INDEL" (String c line)); [apply keeps_ret|].
  destruct (split (strip (String c line)))
    as [|? [|pos [|? [|ref [|alts [|? [|? [|infos [|fields [|sampleInfo [|? ?]]]]]]]]]]];
    try apply keeps_raise.
  destruct (int pos) as [p|]; [|apply keeps_raise].
  apply keeps_bind; [apply scanning_adjust_scan|intros _].
  apply keeps_bind; [apply keeps_get|intros st'].
  destruct (p =? vcfScan.sought_now st'); [apply scanning_found|apply keeps_ret].
Qed.

Lemma scanning_scan_lines lines truncated :
  keeps (scanning self0) (vcfScan.scan_lines lines truncated).
Proof.
  induction lines as [|line rest IH]; simpl.
  - destruct truncated; [apply keeps_raise|apply keeps_ret].
  - apply keeps_bind; [apply scanning_process_line|].
    intros [|]; [exact IH|apply keeps_ret].
Qed.

End frame.

Lemma scan_file_scanning `{Numerics} (self : vcfScan.t) (vcffile : vcfScan.vcf_file) :
  scanning self (vcfScan.scan_file (vcfScan.set_bases None self) vcffile).2.
Proof.
  unfold vcfScan.scan_file. simpl.
  assert (Hstart : ∀ now psns ws,
    scanning self
      {| vcfScan.self := vcfScan.set_bases None self; vcfScan.sought_now := now;
         vcfScan.sought_psns := psns; vcfScan.warning_emitted := false;
         vcfScan.resDict := []; vcfScan.emitted := ws |}).
  { intros now psns ws. by repeat split. }
  destruct (vcfScan.sorted_positions _) as [|now rest]; [apply Hstart|]. simpl.
  pose proof (scanning_scan_lines self (vcfScan.lines vcffile)
                (vcfScan.truncated vcffile)) as Hscan.
  match goal with
  | |- scanning _ (vcfScan.scan_lines _ _ ?st).2 =>
      specialize (Hscan st); destruct (vcfScan.scan_lines _ _ st) as [[[]|e|] st']
  end; simpl; apply Hscan; destruct (now =? 0); apply Hstart.
Qed.

(** X9.  Whatever the file, [_parse] leaves the regions, the thresholds, the
    error rate and [guid] of the object as they were and loses no cached
    p-value; the tags [infotag] and [fieldtag] change only if [infotag] was
    ['auto'].  [self.bases] is a table exactly when [_parse] returns [True]:
    when it returns [False] or ends with an exception, [self.bases] is
    [None], whatever it was before, and [_parse] returns nothing but
    [True] and [False]. *)
Theorem a_scan_keeps_the_settings `{Numerics} (self : vcfScan.t)
    (vcffile : vcfScan.vcf_file) :
  let r := vcfScan._parse self vcffile in
  settings_kept self r.1.2 ∧
  match r.1.1 with
  | Return v =>
      (v = PyBool true ∧ is_Some (vcfScan.bases r.1.2)) ∨
      (v = PyBool false ∧ vcfScan.bases r.1.2 = None)
  | _ => vcfScan.bases r.1.2 = None
  end.
Proof.
  cbv zeta. pose proof (scan_file_scanning self vcffile) as Hend.
  unfold vcfScan._parse.
  destruct (vcfScan.scan_file _ vcffile) as [r st]. simpl in Hend.
  destruct Hend as [Hkept Hbases].
  destruct r as [[]|[]|]; simpl; (split; [exact Hkept|]);
    first [exact Hbases | left; split; [done|by eexists] | right; by split].
Qed.

(** ** vcfScan._parse: where the reading ends *)

Section reading.
Context `{Numerics}.

Lemma sorted_positions_empty (self : vcfScan.t) :
  vcfScan.psn2roi self = ∅ → vcfScan.sorted_positions self = [].
Proof.
  intros Hempty. unfold vcfScan.sorted_positions.
  by rewrite Hempty, dom_empty_L, elements_empty.
Qed.

(** X10.  When no position is registered, be it that no region was added or
    that the regions added have no positions, [_parse] returns [True] with
    an empty table and no warning, whatever the file holds: no line of it
    is looked at, so neither a malformed line nor a truncated file is
    noticed. *)
Theorem no_position_no_reading (self : vcfScan.t) (vcffile : vcfScan.vcf_file) :
  vcfScan.psn2roi self = ∅ →
  vcfScan._parse self vcffile
  = (Return (PyBool true), vcfScan.set_bases (Some []) self, []).
Proof.
  intros Hempty. unfold vcfScan._parse, vcfScan.scan_file. simpl.
  rewrite sorted_positions_empty by done. reflexivity.
Qed.

Lemma scan_lines_prefix (l1 rest : list string) (truncated : bool) (st : vcfScan.scan) :
  (vcfScan.scan_lines l1 true st).1 ≠ Raise EOFError →
  vcfScan.scan_lines (l1 ++ rest) truncated st = vcfScan.scan_lines l1 true st.
Proof.
  revert st. induction l1 as [|line l1 IH]; intros st; simpl; [done|].
  unfold vcfScan.bindM.
  destruct (vcfScan.process_line line st) as [[[|]|e|] st']; try done.
  apply IH.
Qed.

(** X11.  Read the lines [l1] as a file that breaks off after them.  If
    [_parse] does not return [False] for it, the scan has ended within
    [l1]: the last sought position was found, or an exception ended the
    loop.  Then [_parse] gives the same result, object and warnings for
    every file that starts with [l1], whatever follows and whether or not
    that file is truncated. *)
Theorem lines_after_the_end_of_the_scan_are_not_read (self : vcfScan.t)
    (l1 rest : list string) (truncated : bool) :
  (vcfScan._parse self {| vcfScan.lines := l1; vcfScan.truncated := true |}).1.1
  ≠ Return (PyBool false) →
  vcfScan._parse self {| vcfScan.lines := l1 ++ rest; vcfScan.truncated := truncated |}
  = vcfScan._parse self {| vcfScan.lines := l1; vcfScan.truncated := true |}.
Proof.
  unfold vcfScan._parse, vcfScan.scan_file. simpl.
  destruct (vcfScan.sorted_positions _) as [|now psns]; [done|]. simpl.
  intros Hend. rewrite scan_lines_prefix; [done|].
  intros Heof. apply Hend.
  destruct (vcfScan.scan_lines l1 true _) as [r st]. simpl in Heof. by subst r.
Qed.

End reading.

(** A scanner without regions and a broken file of one malformed line. *)
Lemma no_position_no_reading_witness :
  @vcfScan._parse sample_numerics default_scanner
    {| vcfScan.lines := ["not a record"]; vcfScan.truncated := true |}
  = (Return (PyBool true), vcfScan.set_bases (Some []) default_scanner, []).
Proof.
  apply (@no_position_no_reading sample_numerics). reflexivity.
Defined.

(** One region with the position 1: after the record at position 1 the scan
    is over, and the malformed line that follows is not read. *)
Lemma lines_after_the_end_of_the_scan_are_not_read_witness :
  let self := (vcfScan.add_roi default_scanner "One" [1]).1 in
  let record := sample_line "chr" "1" "BaseCounts4=10,0,5,0" in
  @vcfScan._parse sample_numerics self
    {| vcfScan.lines := [record] ++ ["not a record"]; vcfScan.truncated := true |}
  = @vcfScan._parse sample_numerics self
      {| vcfScan.lines := [record]; vcfScan.truncated := true |} ∧
  (@vcfScan._parse sample_numerics self
     {| vcfScan.lines := [record]; vcfScan.truncated := true |}).1.1
  = Return (PyBool true).
Proof.
  cbv zeta. split.
  - apply (@lines_after_the_end_of_the_scan_are_not_read sample_numerics).
    vm_compute. discriminate.
  - vm_compute. reflexivity.
Defined.

(** ** vcfScan._parse: the depths of a samtools record *)

Section alleles.

Lemma scatter_raises (alts : list string) (counter : nat) (baseCounts : list Z)
    (basedict : gmap string Z) :
  alts ≠ [] → (length baseCounts ≤ counter + length alts)%nat →
  vcfScan.scatter alts counter baseCounts basedict = Raise IndexError.
Proof.
  revert counter basedict. induction alts as [|alt rest IH]; intros counter basedict;
    [done|].
  intros _ Hshort. simpl. unfold index.
  destruct (baseCounts !! S counter) as [c|] eqn:Hc; [|done]. simpl.
  destruct rest as [|alt' rest].
  - apply lookup_lt_Some in Hc. simpl in Hshort. lia.
  - apply IH; [done|]. simpl in *. lia.
Qed.

Lemma scatter_spec (alts : list string) (counter : nat) (baseCounts : list Z)
    (basedict : gmap string Z) :
  (counter + length alts < length baseCounts)%nat →
  ∃ basedict',
    vcfScan.scatter alts counter baseCounts basedict = Return basedict' ∧
    ∀ b, (b ∉ alts → basedict' !! b = basedict !! b) ∧
         (∀ i, alts !! i = Some b →
               (∀ j, (i < j)%nat → alts !! j ≠ Some b) →
               basedict' !! b = baseCounts !! (S counter + i)%nat) ∧
         (is_Some (basedict !! b) → is_Some (basedict' !! b)).
Proof.
  revert counter basedict. induction alts as [|alt rest IH]; intros counter basedict Hlen.
  - exists basedict. split; [done|]. intros b. split; [done|]. split; [|done].
    intros i Hi. by rewrite lookup_nil in Hi.
  - simpl in *. unfold index.
    destruct (lookup_lt_is_Some_2 baseCounts (S counter) ltac:(lia)) as [c Hc].
    rewrite Hc. simpl.
    destruct (IH (S counter) (<[alt := c]> basedict) ltac:(lia))
      as (basedict' & Hscatter & Hspec).
    exists basedict'. split; [done|]. intros b.
    destruct (Hspec b) as (Hout & Hin & Hsome). split; [|split].
    + intros Hb. apply not_elem_of_cons in Hb as [Hne Hb].
      rewrite Hout by done. by rewrite lookup_insert_ne.
    + intros [|i] Hi Hlast; simpl in Hi.
      * injection Hi as ->. rewrite Hout.
        -- rewrite lookup_insert_eq, Nat.add_0_r. done.
        -- intros Hb. apply list_elem_of_lookup in Hb as [j Hj].
           by apply (Hlast (S j)); [lia|].
      * rewrite (Hin i Hi); [f_equal; lia|].
        intros j Hj. apply (Hlast (S j)). lia.
    + intros Hb. apply Hsome.
      destruct (decide (alt = b)) as [->|Hne];
        [rewrite lookup_insert_eq; by eexists|by rewrite lookup_insert_ne].
Qed.

(** X12.  The depths of A, C, G, T that are read off a samtools record with
    the alleles [ref], [alts] and the counts [baseCounts]:
    - with fewer counts than alleles, the block raises [IndexError];
    - otherwise it gives exactly four depths, never raising [KeyError]: a
      base that is no allele has depth 0, and a base that is an allele has
      the count at the index of its last occurrence among the alleles.  So
      every count beyond the alleles, and the count of an allele that is
      none of the four bases, is dropped. *)
Theorem depths_of_a_samtools_record (ref : string) (alts : list string)
    (baseCounts : list Z) :
  let alleles := ref :: alts in
  if decide (length alleles ≤ length baseCounts)%nat then
    ∃ a c g t,
      vcfScan.allele_depths ref alts baseCounts = Return [a; c; g; t] ∧
      Forall2
        (λ b x, (b ∉ alleles → x = 0) ∧
                ∀ i, alleles !! i = Some b →
                     (∀ j, (i < j)%nat → alleles !! j ≠ Some b) →
                     baseCounts !! i = Some x)
        ["A"; "C"; "G"; "T"] [a; c; g; t]
  else vcfScan.allele_depths ref alts baseCounts = Raise IndexError.
Proof.
  cbv zeta. unfold vcfScan.allele_depths. case_decide as Hlen; simpl in Hlen.
  - destruct baseCounts as [|c0 baseCounts]; [simpl in Hlen; lia|].
    simpl in Hlen. cbn [index lookup list_lookup mbind outcome_bind bind].
    set (zeros := ({[ "A" := 0; "C" := 0; "G" := 0; "T" := 0 ]} : gmap string Z)).
    destruct (scatter_spec alts 0 (c0 :: baseCounts) (<[ref := c0]> zeros))
      as (basedict & -> & Hspec); [simpl; lia|].
    cbn [mbind outcome_bind bind].
    assert (Hbase : ∀ b, b ∈ ["A"; "C"; "G"; "T"] →
              ∃ x, basedict !! b = Some x ∧
                   (b ∉ ref :: alts → x = 0) ∧
                   ∀ i, (ref :: alts) !! i = Some b →
                        (∀ j, (i < j)%nat → (ref :: alts) !! j ≠ Some b) →
                        (c0 :: baseCounts) !! i = Some x).
    { intros b Hb. destruct (Hspec b) as (Hout & Hin & Hsome).
      assert (Hzero : zeros !! b = Some 0).
      { repeat (apply elem_of_cons in Hb as [->|Hb]; [by vm_compute|]).
        by apply elem_of_nil in Hb. }
      destruct Hsome as [x Hx].
      { destruct (decide (ref = b)) as [->|Hne];
          [rewrite lookup_insert_eq; by eexists|rewrite lookup_insert_ne by done; by eexists]. }
      exists x. split; [done|]. split.
      - intros Hnot. apply not_elem_of_cons in Hnot as [Hne Hnot].
        rewrite (Hout Hnot), lookup_insert_ne in Hx by done. congruence.
      - intros [|i] Hi Hlast; simpl in Hi.
        + injection Hi as ->. rewrite Hout, lookup_insert_eq in Hx; [done|].
          intros Hb'. apply list_elem_of_lookup in Hb' as [j Hj].
          by apply (Hlast (S j)); [lia|].
        + rewrite <- Hx. symmetry. apply (Hin i Hi).
          intros j Hj. apply (Hlast (S j)). lia. }
    destruct (Hbase "A") as (a & Ha & HA); [apply (bool_decide_unpack _); vm_compute; exact I|].
    destruct (Hbase "C") as (c & Hc & HC); [apply (bool_decide_unpack _); vm_compute; exact I|].
    destruct (Hbase "G") as (g & Hg & HG); [apply (bool_decide_unpack _); vm_compute; exact I|].
    destruct (Hbase "T") as (t & Ht & HT); [apply (bool_decide_unpack _); vm_compute; exact I|].
    exists a, c, g, t. unfold getitem. rewrite Ha, Hc, Hg, Ht. simpl.
    split; [done|]. repeat (constructor; [assumption|]). constructor.
  - destruct baseCounts as [|c0 baseCounts]; [done|].
    cbn [index lookup list_lookup mbind outcome_bind bind].
    rewrite scatter_raises; [done| |simpl in *; lia].
    intros ->. simpl in Hlen. lia.
Qed.

End alleles.

(** ** vcfScan._parse: the table of a scan *)

Section rows.
Context `{Numerics}.

Lemma keeps_and {A : Type} (P Q : vcfScan.scan → Prop) (m : vcfScan.M A) :
  keeps P m → keeps Q m → keeps (λ st, P st ∧ Q st) m.
Proof.
  intros HP HQ st [Hp Hq]. specialize (HP st Hp). specialize (HQ st Hq).
  by destruct (m st) as [[a|e|] st'].
Qed.

Lemma keeps_then {A B : Type} (P E : vcfScan.scan → Prop) (R : B → vcfScan.scan → Prop)
    (m : vcfScan.M A) (k : A → vcfScan.M B) :
  keeps P m → (∀ st, P st → E st) → (∀ a, hoare P (k a) R E) →
  hoare P (vcfScan.bindM m k) R E.
Proof.
  intros Hm HE Hk. apply (hoare_bind P E (λ _, P)); [|done].
  by apply (hoare_consequence P P E P (λ _, P) (λ _, P)).
Qed.

(** *** The blocks that read the counts leave rows and queue alone *)

Section held.
Variables (rows : list vcfScan.base_row) (now : Z) (psns : list Z).

Lemma held_autodetect infos fields :
  keeps (held rows now psns) (vcfScan.autodetect infos fields).
Proof.
  intros st Hst. unfold vcfScan.autodetect, vcfScan.bindM, vcfScan.get.
  by repeat case_decide.
Qed.

Lemma held_info_counts pos infos :
  keeps (held rows now psns) (vcfScan.info_counts pos infos).
Proof. unfold vcfScan.info_counts. by repeat keeps_step. Qed.

Lemma held_field_counts fields sampleInfo baseCounts :
  keeps (held rows now psns) (vcfScan.field_counts fields sampleInfo baseCounts).
Proof. unfold vcfScan.field_counts. by repeat keeps_step. Qed.

Lemma held_samtools_counts ref alts baseCounts :
  keeps (held rows now psns) (vcfScan.samtools_counts ref alts baseCounts).
Proof. unfold vcfScan.samtools_counts. by repeat keeps_step. Qed.

Lemma held_score nonmajor depth :
  keeps (held rows now psns) (vcfScan.score nonmajor depth).
Proof.
  intros st Hst. unfold vcfScan.score.
  destruct (vcfScan.compute_pvalue (vcfScan.self st)); [|done].
  by destruct (BinomialTest.compute _ _ _) as [[[p mlp]|e|] bt'].
Qed.

End held.

Lemma score_without_pvalue nonmajor depth (st : vcfScan.scan) :
  vcfScan.compute_pvalue (vcfScan.self st) = false →
  vcfScan.score nonmajor depth st = (Return PyNone, st).
Proof. intros Hoff. unfold vcfScan.score. by rewrite Hoff. Qed.

(** *** The rows of one record *)

Lemma add_rows_spec (names : list string) (row : string → vcfScan.base_row)
    (st : vcfScan.scan) :
  foldl (λ st n, vcfScan.add_row (row n) st) st names
  = {| vcfScan.self := vcfScan.self st; vcfScan.sought_now := vcfScan.sought_now st;
       vcfScan.sought_psns := vcfScan.sought_psns st;
       vcfScan.warning_emitted := vcfScan.warning_emitted st;
       vcfScan.resDict := vcfScan.resDict st ++ (row <$> names);
       vcfScan.emitted := vcfScan.emitted st |}.
Proof.
  revert st. induction names as [|n names IH]; intros st; simpl.
  - rewrite app_nil_r. by destruct st.
  - rewrite IH. simpl. by rewrite <- app_assoc.
Qed.

Lemma report_spec (names : list string) (row : string → vcfScan.base_row)
    (m : option float) (st : vcfScan.scan) :
  (∀ n, vcfScan.maf (row n) = m) →
  vcfScan.report names row st
  = (Return tt,
     if vcfScan.report_base (vcfScan.report_minimum_maf (vcfScan.self st)) m
     then foldl (λ st n, vcfScan.add_row (row n) st) st names
     else st).
Proof.
  intros Hm. revert st. induction names as [|n names IH]; intros st; simpl.
  - unfold vcfScan.ret. by destruct (vcfScan.report_base _ _).
  - unfold vcfScan.bindM, vcfScan.get. rewrite Hm.
    destruct (vcfScan.report_base _ m) eqn:Hreport; simpl; rewrite IH; simpl;
      by rewrite Hreport.
Qed.

Lemma table_ok_nil (self : vcfScan.t) : table_ok self [].
Proof.
  split; [apply Forall_nil_2|]. split; [constructor|].
  intros r name Hr. by apply elem_of_nil in Hr.
Qed.

(** The rows of a record at [p], one for each region of [p], after rows at
    earlier positions. *)
Lemma table_ok_app (self : vcfScan.t) (rows : list vcfScan.base_row)
    (row : string → vcfScan.base_row) (p : Z) (roi_names : gset string) :
  table_ok self rows →
  Forall (λ r, vcfScan.pos r < p) rows →
  vcfScan.psn2roi self !! p = Some roi_names →
  (∀ n, vcfScan.pos (row n) = p ∧ vcfScan.roi_name (row n) = n ∧
        rename n (row "") = row n) →
  (∀ n, n ∈ roi_names → row_ok self (row n)) →
  table_ok self (rows ++ (row <$> elements roi_names)).
Proof.
  intros (Hrows & Hsorted & Hgroups) Hbefore Hp Hrow Hok.
  assert (Hregions : regions_of self p = roi_names)
    by (unfold regions_of; by rewrite Hp).
  split; [|split].
  - apply Forall_app. split; [done|]. apply Forall_fmap, Forall_forall.
    intros n Hn. apply Hok. by apply elem_of_elements.
  - apply StronglySorted_app_2; [|done|].
    + intros r1 r2 Hr1 Hr2. left.
      apply list_elem_of_fmap in Hr2 as (n & -> & Hn).
      destruct (Hrow n) as (-> & _). by apply (proj1 (Forall_forall _ _) Hbefore).
    + pose proof (NoDup_elements roi_names) as Hnodup.
      induction Hnodup as [|n names Hn Hnodup IH]; [constructor|].
      rewrite fmap_cons. constructor; [exact IH|].
      apply Forall_fmap, Forall_forall. intros n' Hn'. right.
      destruct (Hrow n) as (-> & -> & _). destruct (Hrow n') as (-> & -> & _).
      split; [done|]. by intros ->.
  - intros r name Hr Hname. apply elem_of_app in Hr as [Hr|Hr].
    + apply elem_of_app. left. by apply Hgroups.
    + apply elem_of_app. right.
      apply list_elem_of_fmap in Hr as (n & -> & Hn).
      destruct (Hrow n) as (Hpos & _ & <-). rewrite Hpos, Hregions in Hname.
      apply list_elem_of_fmap. exists name. split; [|by apply elem_of_elements].
      destruct (Hrow name) as (_ & _ & <-). reflexivity.
Qed.

(** *** The queue *)

Lemma sorted_positions_ascending (self : vcfScan.t) :
  StronglySorted Z.lt (vcfScan.sorted_positions self).
Proof.
  unfold vcfScan.sorted_positions.
  assert (Hsorted : StronglySorted Z.le
            (merge_sort Z.le (elements (dom (vcfScan.psn2roi self)))))
    by apply (StronglySorted_merge_sort _).
  assert (Hnodup : NoDup (merge_sort Z.le (elements (dom (vcfScan.psn2roi self)))))
    by (rewrite merge_sort_Permutation; apply NoDup_elements).
  induction Hsorted as [|x l Hsorted IH Hall]; [constructor|].
  apply NoDup_cons in Hnodup as [Hx Hnodup].
  constructor; [by apply IH|].
  apply Forall_forall. intros y Hy.
  pose proof (proj1 (Forall_forall _ _) Hall y Hy).
  assert (x ≠ y) by (by intros ->). lia.
Qed.

Lemma catch_up_ascending (pos now now' : Z) (psns psns' : list Z) :
  vcfScan.catch_up pos now psns = Return (now', psns') →
  StronglySorted Z.lt (now :: psns) →
  StronglySorted Z.lt (now' :: psns') ∧ now ≤ now' ∧ (now ≤ pos → pos < now').
Proof.
  revert now. induction psns as [|next rest IH]; intros now; simpl.
  - destruct (Z.leb_spec now pos) as [Hle|Hgt].
    + destruct (Z.leb_spec vcfScan.unreachable pos) as [Hfar|Hnear]; [done|].
      intros [= <- <-] _. split; [repeat constructor|]. lia.
    + intros [= <- <-] Hsorted. split; [done|]. lia.
  - destruct (Z.leb_spec now pos) as [Hle|Hgt].
    + intros Hcatch Hsorted. apply StronglySorted_inv in Hsorted as [Hrest Hall].
      destruct (IH next Hcatch Hrest) as (Hsorted' & Hnext & Hpos).
      split; [done|]. apply Forall_cons in Hall as [Hlt _].
      split; [lia|]. intros _.
      destruct (Z.leb_spec next pos) as [Hle'|Hgt']; [by apply Hpos|].
      clear IH Hpos. destruct rest; simpl in Hcatch;
        destruct (Z.leb_spec next pos); try lia; by injection Hcatch as <- _.
    + intros [= <- <-] Hsorted. split; [done|]. lia.
Qed.

(** *** The scan keeps the table *)

Variable self0 : vcfScan.t.

Lemma scan_ok_rows_ok (st : vcfScan.scan) : scan_ok self0 st → rows_ok self0 st.
Proof. by intros (_ & Htable & _). Qed.

Lemma adjust_scan_table (pos : Z) :
  hoare (scan_ok self0) (vcfScan.adjust_scan pos)
    (λ _ st, scan_ok self0 st ∧ pos ≤ vcfScan.sought_now st) (rows_ok self0).
Proof.
  intros st Hst. unfold vcfScan.adjust_scan.
  destruct (Z.leb_spec pos (vcfScan.sought_now st)) as [Hle|Hgt]; [done|].
  destruct Hst as (Hscanning & Htable & Hbefore & Hsorted).
  assert (Hgoal : ∀ st1,
    vcfScan.self st1 = vcfScan.self st → vcfScan.resDict st1 = vcfScan.resDict st →
    vcfScan.sought_now st1 = vcfScan.sought_now st →
    vcfScan.sought_psns st1 = vcfScan.sought_psns st →
    match
      match vcfScan.catch_up pos (vcfScan.sought_now st1) (vcfScan.sought_psns st1) with
      | Return (now, psns) => (Return (), vcfScan.set_sought now psns st1)
      | Raise e => (Raise e, st1)
      | Diverge => (Diverge, st1)
      end
    with
    | (Return _, st') => scan_ok self0 st' ∧ pos ≤ vcfScan.sought_now st'
    | (_, st') => rows_ok self0 st'
    end).
  { intros st1 Hself Hrows Hnow Hpsns. rewrite Hnow, Hpsns.
    destruct (vcfScan.catch_up pos _ _) as [[now psns]|e|] eqn:Hcatch;
      [|unfold rows_ok; by rewrite Hrows..].
    destruct (catch_up_ascending _ _ _ _ _ Hcatch Hsorted) as (Hsorted' & Hmono & Hpos).
    split; [|simpl; lia].
    split; [unfold scanning; simpl; by rewrite Hself|].
    simpl. rewrite Hrows. split; [done|]. split; [|done].
    eapply Forall_impl; [exact Hbefore|]. simpl. intros r Hr. lia. }
  destruct (vcfScan.warning_emitted st); by apply Hgoal.
Qed.

Lemma found_table (rows : list vcfScan.base_row) (psns : list Z)
    pos ref alts infos fields sampleInfo :
  table_ok self0 rows →
  Forall (λ r, vcfScan.pos r < pos) rows →
  StronglySorted Z.lt (pos :: psns) →
  hoare (λ st, scanning self0 st ∧ held rows pos psns st)
    (vcfScan.found pos ref alts infos fields sampleInfo)
    (λ c st, match c with
             | vcfScan.Next => scan_ok self0 st
             | vcfScan.Break => rows_ok self0 st
             end)
    (rows_ok self0).
Proof.
  intros Htable Hbefore Hsorted.
  set (P := λ st, scanning self0 st ∧ held rows pos psns st).
  assert (HE : ∀ st, P st → rows_ok self0 st).
  { intros st [_ (Hrows & _)]. unfold rows_ok. by rewrite Hrows. }
  unfold vcfScan.found.
  apply keeps_then; [apply keeps_lift|done|intros infos'].
  apply keeps_then; [apply keeps_and; [apply scanning_autodetect|apply held_autodetect]
                    |done|intros _].
  apply keeps_then; [apply keeps_and; [apply scanning_info_counts|apply held_info_counts]
                    |done|intros baseCounts].
  apply keeps_then; [apply keeps_and; [apply scanning_field_counts|apply held_field_counts]
                    |done|intros baseCounts'].
  apply keeps_then; [apply keeps_and; [apply scanning_samtools_counts
                                      |apply held_samtools_counts]
                    |done|intros [baseCounts''|]];
    [|by apply hoare_raise].
  destruct (vcfScan.sort_reverse baseCounts'') as [|f0 [|f1 [|f2 [|f3 [|? ?]]]]];
    try (by apply hoare_raise).
  destruct baseCounts'' as [|a [|c [|g [|t [|? ?]]]]]; try (by apply hoare_raise).
  (* the score *)
  apply (hoare_bind P (rows_ok self0)
           (λ mlp st, P st ∧ (vcfScan.compute_pvalue self0 = false → mlp = PyNone))).
  { intros st Hst.
    pose proof (keeps_and _ _ _ (scanning_score self0 (f1 + f2 + f3) (a + c + g + t))
                  (held_score rows pos psns (f1 + f2 + f3) (a + c + g + t)) st Hst) as Hkept.
    destruct (vcfScan.compute_pvalue (vcfScan.self st)) eqn:Hcompute.
    - destruct (vcfScan.score _ _ st) as [[mlp|e|] st']; [|by apply HE..].
      split; [done|]. intros Hoff.
      destruct Hst as [[(_ & _ & _ & Hsame & _) _] _]. congruence.
    - rewrite score_without_pvalue by done. by split. }
  intros mlp st1 [[Hscanning1 (Hrows1 & Hnow1 & Hpsns1)] Hmlp].
  unfold vcfScan.bindM, vcfScan.lift, vcfScan.get.
  assert (Hst1 : rows_ok self0 st1) by (apply HE; by split).
  set (mafo := if 0 <? a + c + g + t
               then x ← float_of_int f1; y ← float_of_int (a + c + g + t);
                    Return (Some (PrimFloat.div x y))
               else Return None).
  assert (Hmaf : ∀ maf, mafo = Return maf → (maf = None ↔ a + c + g + t ≤ 0)).
  { subst mafo. intros maf. destruct (Z.ltb_spec 0 (a + c + g + t)).
    - destruct (float_of_int f1); simpl; [|done..].
      destruct (float_of_int (a + c + g + t)); simpl; [|done..].
      intros [= <-]. split; [done|lia].
    - intros [= <-]. split; [lia|done]. }
  destruct mafo as [maf|e|]; [|done..]. specialize (Hmaf maf eq_refl).
  rewrite Hnow1.
  destruct Hscanning1 as [Hkept Hbases].
  pose proof Hkept as (_ & Hpsn2roi & Hrmm & _).
  unfold getitem. rewrite Hpsn2roi.
  destruct (vcfScan.psn2roi self0 !! pos) as [roi_names|] eqn:Hregions; [|done].
  rewrite (report_spec _ _ maf) by done.
  set (row := λ roi_name,
         {| vcfScan.roi_name := roi_name; vcfScan.pos := pos; vcfScan.ref := ref;
            vcfScan.depth := a + c + g + t; vcfScan.base_a := a; vcfScan.base_c := c;
            vcfScan.base_g := g; vcfScan.base_t := t;
            vcfScan.maf := maf; vcfScan.mlp := mlp |}).
  assert (Hnew : vcfScan.report_base (vcfScan.report_minimum_maf self0) maf = true →
                 table_ok self0 (rows ++ (row <$> elements roi_names))).
  { intros Hreport. apply (table_ok_app self0 rows row pos roi_names); try done.
    intros n Hn. unfold row_ok, regions_of. simpl. rewrite Hregions. simpl.
    by repeat split; try apply Hmaf. }
  rewrite Hrmm.
  assert (Hend : ∀ st2,
    vcfScan.self st2 = vcfScan.self st1 →
    vcfScan.sought_now st2 = pos → vcfScan.sought_psns st2 = psns →
    table_ok self0 (vcfScan.resDict st2) →
    Forall (λ r, vcfScan.pos r ≤ pos) (vcfScan.resDict st2) →
    match
      match vcfScan.sought_psns st2 with
      | [] => vcfScan.ret vcfScan.Break
      | next :: rest =>
          vcfScan.bindM (vcfScan.modify (vcfScan.set_sought next rest))
            (λ _, vcfScan.ret vcfScan.Next)
      end st2
    with
    | (Return vcfScan.Next, st') => scan_ok self0 st'
    | (Return vcfScan.Break, st') => rows_ok self0 st'
    | (_, st') => rows_ok self0 st'
    end).
  { intros st2 Hself2 Hnow2 Hpsns2 Htable2 Hbefore2. rewrite Hpsns2.
    destruct psns as [|next rest]; [done|].
    unfold vcfScan.bindM, vcfScan.modify, vcfScan.ret. simpl.
    apply StronglySorted_inv in Hsorted as [Hrest Hall].
    apply Forall_cons in Hall as [Hlt _].
    split; [unfold scanning; simpl; by rewrite Hself2|].
    simpl. split; [done|]. split; [|done].
    eapply Forall_impl; [exact Hbefore2|]. simpl. intros r Hr. lia. }
  assert (Hle : Forall (λ r, vcfScan.pos r ≤ pos) rows).
  { eapply Forall_impl; [exact Hbefore|]. simpl. intros r Hr. lia. }
  destruct (vcfScan.report_base (vcfScan.report_minimum_maf self0) maf) eqn:Hreport.
  - rewrite add_rows_spec. apply Hend; simpl; try done; rewrite Hrows1.
    + by apply Hnew.
    + apply Forall_app. split; [done|].
      apply Forall_fmap, Forall_forall. intros n _. simpl. lia.
  - apply Hend; try done; by rewrite Hrows1.
Qed.

Lemma process_line_table (line : string) :
  hoare (scan_ok self0) (vcfScan.process_line line)
    (λ c st, match c with
             | vcfScan.Next => scan_ok self0 st
             | vcfScan.Break => rows_ok self0 st
             end)
    (rows_ok self0).
Proof.
  unfold vcfScan.process_line.
  destruct line as [|c line]; [apply hoare_raise, scan_ok_rows_ok|].
  destruct (Ascii.eqb c "#"); [by apply hoare_ret|].
  destruct (contains "INDEL" (String c line)); [by apply hoare_ret|].
  destruct (split (strip (String c line)))
    as [|? [|pos [|? [|ref [|alts [|? [|? [|infos [|fields [|sampleInfo [|? ?]]]]]]]]]]];
    try apply hoare_raise, scan_ok_rows_ok.
  destruct (int pos) as [p|]; [|apply hoare_raise, scan_ok_rows_ok].
  eapply hoare_bind; [apply adjust_scan_table|intros []].
  intros st [Hst Hle]. unfold vcfScan.bindM, vcfScan.get.
  destruct (Z.eqb_spec p (vcfScan.sought_now st)) as [Heq|Hne]; [|done].
  destruct Hst as (Hscanning & Htable & Hbefore & Hsorted).
  rewrite <- Heq in Hbefore, Hsorted.
  by apply (found_table (vcfScan.resDict st) (vcfScan.sought_psns st)).
Qed.

Lemma scan_lines_table (lines : list string) (truncated : bool) :
  hoare (scan_ok self0) (vcfScan.scan_lines lines truncated)
    (λ _, rows_ok self0) (rows_ok self0).
Proof.
  induction lines as [|line rest IH]; simpl.
  - destruct truncated; [apply hoare_raise|apply hoare_ret]; apply scan_ok_rows_ok.
  - eapply hoare_bind; [apply process_line_table|].
    intros [|]; [exact IH|by apply hoare_ret].
Qed.

End rows.

Lemma scan_file_rows_ok `{Numerics} (self : vcfScan.t) (vcffile : vcfScan.vcf_file) :
  rows_ok self (vcfScan.scan_file (vcfScan.set_bases None self) vcffile).2.
Proof.
  unfold vcfScan.scan_file. simpl.
  pose proof (sorted_positions_ascending (vcfScan.set_bases None self)) as Hsorted.
  destruct (vcfScan.sorted_positions _) as [|now rest]; [apply table_ok_nil|]. simpl.
  pose proof (scan_lines_table self (vcfScan.lines vcffile)
                (vcfScan.truncated vcffile)) as Hscan.
  match goal with
  | |- rows_ok _ (vcfScan.scan_lines _ _ ?st).2 =>
      specialize (Hscan st); destruct (vcfScan.scan_lines _ _ st) as [[[]|e|] st']
  end; simpl; apply Hscan;
    (split; [by destruct (now =? 0); repeat split|]);
    (split; [destruct (now =? 0); apply table_ok_nil|]);
    (split; [destruct (now =? 0); apply Forall_nil_2|]);
    by destruct (now =? 0).
Qed.

(** The table in [self.bases] is the table of the scan. *)
Lemma parse_bases `{Numerics} (self : vcfScan.t) (vcffile : vcfScan.vcf_file)
    (rows : list vcfScan.base_row) :
  vcfScan.bases (vcfScan._parse self vcffile).1.2 = Some rows →
  rows = vcfScan.resDict (vcfScan.scan_file (vcfScan.set_bases None self) vcffile).2.
Proof.
  pose proof (scan_file_scanning self vcffile) as [_ Hnone].
  unfold vcfScan._parse.
  destruct (vcfScan.scan_file _ vcffile) as [r st]. simpl in Hnone.
  destruct r as [[]|[]|]; simpl; intros Hrows; congruence.
Qed.

(** X13.  The table that [_parse] stores in [self.bases] is built as
    follows, whatever the file and however the scan ended.
    - Every row reports a registered position for one of the regions of
      this position; its depth is the sum of its four base counts; it has a
      [maf] exactly when its depth is positive; its [mlp] is [None] when
      [compute_pvalue] is off; it passed the test of [report_minimum_maf].
    - The rows are in ascending order of position, and no position is
      reported twice for a region, also when the file repeats a position or
      is not in order.
    - A position that is reported is reported for each of its regions, with
      the same counts. *)
Theorem the_table_of_a_scan `{Numerics} (self : vcfScan.t) (vcffile : vcfScan.vcf_file)
    (rows : list vcfScan.base_row) :
  vcfScan.bases (vcfScan._parse self vcffile).1.2 = Some rows →
  table_ok self rows.
Proof.
  intros Hrows. apply parse_bases in Hrows as ->.
  destruct (scan_file_rows_ok self vcffile) as (Hrows & Hsorted & Hgroups).
  split; [exact Hrows|]. split; [exact Hsorted|exact Hgroups].
Qed.

(** Two regions that share the positions 2 and 3, and a file with records at
    1, 2, 2, 1, 3 and 4, in this order: the table has one row for position 1,
    two for each of 2 and 3, and one for position 4. *)
Lemma the_table_of_a_scan_witness :
  let self := add_rois default_scanner [("One", [1; 2; 3]); ("Two", [2; 3; 4])] in
  let vcffile :=
    {| vcfScan.lines := [sample_line "chr" "1" "BaseCounts4=10,0,5,0";
                         sample_line "chr" "2" "BaseCounts4=9,0,0,0";
                         sample_line "chr" "2" "BaseCounts4=8,0,0,0";
                         sample_line "chr" "1" "BaseCounts4=7,0,0,0";
                         sample_line "chr" "3" "BaseCounts4=0,6,0,0";
                         sample_line "chr" "4" "BaseCounts4=0,0,0,5"];
       vcfScan.truncated := false |} in
  ∃ rows,
    vcfScan.bases (@vcfScan._parse sample_numerics self vcffile).1.2 = Some rows ∧
    (vcfScan.pos <$> rows = [1; 2; 2; 3; 3; 4]) ∧
    (vcfScan.depth <$> rows = [15; 9; 9; 6; 6; 5]) ∧
    table_ok self rows.
Proof.
  cbv zeta. eexists. split; [vm_compute; reflexivity|].
  split; [reflexivity|]. split; [reflexivity|].
  apply (@the_table_of_a_scan sample_numerics _
           {| vcfScan.lines := [sample_line "chr" "1" "BaseCounts4=10,0,5,0";
                                sample_line "chr" "2" "BaseCounts4=9,0,0,0";
                                sample_line "chr" "2" "BaseCounts4=8,0,0,0";
                                sample_line "chr" "1" "BaseCounts4=7,0,0,0";
                                sample_line "chr" "3" "BaseCounts4=0,6,0,0";
                                sample_line "chr" "4" "BaseCounts4=0,0,0,5"];
              vcfScan.truncated := false |}).
  vm_compute. reflexivity.
Defined.

(** ** vcfScan._parse: a record that follows a gap *)

(** X14.  Let a record lie at a position [p], below [1e12], beyond the
    position that the scan is waiting for.  Then the line gives no row, also
    when [p] is itself a registered position: the catching up goes past [p],
    so that the scan then waits for a position after [p]; and with the queue
    in ascending order, as [_parse] sets it up, [p] is no longer in the queue,
    so that no later record can be reported at [p] either. *)
Theorem a_record_after_a_gap_is_not_reported `{Numerics} (line : string)
    (st : vcfScan.scan) (p : Z) :
  skipped line = false →
  record_position line = Some p →
  vcfScan.sought_now st < p → p < vcfScan.unreachable →
  ∃ st',
    vcfScan.process_line line st = (Return vcfScan.Next, st') ∧
    vcfScan.resDict st' = vcfScan.resDict st ∧
    vcfScan.self st' = vcfScan.self st ∧
    p < vcfScan.sought_now st' ∧
    (StronglySorted Z.lt (vcfScan.sought_now st :: vcfScan.sought_psns st) →
     Forall (λ q, p < q) (vcfScan.sought_now st' :: vcfScan.sought_psns st')).
Proof.
  intros Hskip Hrec Hgap Hpos.
  destruct (record_position_columns line p Hrec)
    as (chrom & pos & varID & ref & alts & score & filterx & infos & fields
        & sampleInfo & Hcols & Hint).
  destruct line as [|c line]; [discriminate Hrec|].
  unfold skipped in Hskip. apply orb_false_elim in Hskip as [Hhash Hindel].
  unfold vcfScan.process_line. rewrite Hhash, Hindel, Hcols, Hint.
  destruct (adjust_scan_behind p st Hgap Hpos)
    as (st' & discarded & Hadj & Hlt & _ & Hqueue & Hrows & Hself).
  exists st'. unfold vcfScan.bindM at 1. rewrite Hadj.
  unfold vcfScan.bindM, vcfScan.get.
  destruct (Z.eqb_spec p (vcfScan.sought_now st')) as [Heq|_]; [lia|].
  split; [done|]. split; [done|]. split; [done|]. split; [done|].
  intros Hsorted. destruct Hqueue as [Hqueue|(_ & Hnow & Hpsns)].
  - rewrite Hqueue in Hsorted. apply StronglySorted_app_1_r in Hsorted.
    apply StronglySorted_inv in Hsorted as [_ Hall].
    apply Forall_cons. split; [done|].
    eapply Forall_impl; [exact Hall|]. simpl. intros q Hq. lia.
  - rewrite Hpsns. by apply Forall_singleton.
Qed.

(** The positions 1 and 2 are registered and the file has a record at 2
    only: the scan waits for 1, the record at 2 is passed over, and the table
    is empty. *)
Lemma a_record_after_a_gap_is_not_reported_witness :
  let self := (vcfScan.add_roi default_scanner "One" [1; 2]).1 in
  let line := sample_line "chr" "2" "BaseCounts4=10,0,5,0" in
  let st := {| vcfScan.self := self; vcfScan.sought_now := 1;
               vcfScan.sought_psns := [2]; vcfScan.warning_emitted := false;
               vcfScan.resDict := []; vcfScan.emitted := [] |} in
  (∃ st', @vcfScan.process_line sample_numerics line st = (Return vcfScan.Next, st') ∧
          vcfScan.resDict st' = [] ∧ 2 < vcfScan.sought_now st') ∧
  @vcfScan._parse sample_numerics self
    {| vcfScan.lines := [line]; vcfScan.truncated := false |}
  = (Return (PyBool true), vcfScan.set_bases (Some []) self, [vcfScan.GapObserved 2 1]).
Proof.
  cbv zeta. split; [|vm_compute; reflexivity].
  destruct (@a_record_after_a_gap_is_not_reported sample_numerics
              (sample_line "chr" "2" "BaseCounts4=10,0,5,0")
              {| vcfScan.self := (vcfScan.add_roi default_scanner "One" [1; 2]).1;
                 vcfScan.sought_now := 1; vcfScan.sought_psns := [2];
                 vcfScan.warning_emitted := false;
                 vcfScan.resDict := []; vcfScan.emitted := [] |} 2)
    as (st' & Hline & Hrows & _ & Hnow & _).
  - vm_compute. reflexivity.
  - vm_compute. reflexivity.
  - simpl. lia.
  - vm_compute. reflexivity.
  - exists st'. split; [exact Hline|]. split; [exact Hrows|exact Hnow].
Defined.

(** ** vcfScan._parse: the detection of the tag *)

Section detection.
Context `{Numerics}.

Lemma autodetect_detects infos fields :
  hoare rows_after_detection (vcfScan.autodetect infos fields)
    (λ _, detected) rows_after_detection.
Proof.
  intros st Hst. unfold vcfScan.autodetect, vcfScan.bindM, vcfScan.get, detected.
  repeat case_decide; simpl; done.
Qed.

Lemma detected_info_counts pos infos : keeps detected (vcfScan.info_counts pos infos).
Proof. unfold vcfScan.info_counts. by repeat keeps_step. Qed.

Lemma detected_field_counts fields sampleInfo baseCounts :
  keeps detected (vcfScan.field_counts fields sampleInfo baseCounts).
Proof. unfold vcfScan.field_counts. by repeat keeps_step. Qed.

Lemma detected_samtools_counts ref alts baseCounts :
  keeps detected (vcfScan.samtools_counts ref alts baseCounts).
Proof. unfold vcfScan.samtools_counts. by repeat keeps_step. Qed.

Lemma detected_score nonmajor depth : keeps detected (vcfScan.score nonmajor depth).
Proof.
  intros st Hst. unfold vcfScan.score.
  destruct (vcfScan.compute_pvalue (vcfScan.self st)); [|done].
  by destruct (BinomialTest.compute _ _ _) as [[[p mlp]|e|] bt'].
Qed.

Lemma detected_report roi_names row : keeps detected (vcfScan.report roi_names row).
Proof.
  induction roi_names as [|roi_name rest IH]; simpl; [apply keeps_ret|].
  repeat keeps_step; done.
Qed.

Lemma found_after_detection pos ref alts infos fields sampleInfo :
  keeps rows_after_detection (vcfScan.found pos ref alts infos fields sampleInfo).
Proof.
  unfold vcfScan.found.
  apply keeps_bind; [apply keeps_lift|intros infos'].
  eapply hoare_bind; [apply autodetect_detects|intros []].
  apply (hoare_consequence _ detected _ detected _ (λ _, detected));
    [|done|by right..].
  match goal with |- hoare ?P ?m _ _ => change (keeps P m) end.
  repeat first
    [ apply detected_info_counts | apply detected_field_counts
    | apply detected_samtools_counts | apply detected_score
    | apply detected_report | keeps_step ]; done.
Qed.

Lemma adjust_scan_after_detection pos :
  keeps rows_after_detection (vcfScan.adjust_scan pos).
Proof.
  intros st Hst. unfold vcfScan.adjust_scan.
  destruct (pos <=? vcfScan.sought_now st); [done|].
  destruct (vcfScan.warning_emitted st);
    by destruct (vcfScan.catch_up _ _ _) as [[now psns]|e|].
Qed.

Lemma process_line_after_detection line :
  keeps rows_after_detection (vcfScan.process_line line).
Proof.
  unfold vcfScan.process_line.
  destruct line as [|c line]; [apply keeps_raise|].
  destruct (Ascii.eqb c "#"); [apply keeps_ret|].
  destruct (contains "INDEL" (String c line)); [apply keeps_ret|].
  destruct (split (strip (String c line)))
    as [|? [|pos [|? [|ref [|alts [|? [|? [|infos [|fields [|sampleInfo [|? ?]]]]]]]]]]];
    try apply keeps_raise.
  destruct (int pos) as [p|]; [|apply keeps_raise].
  apply keeps_bind; [apply adjust_scan_after_detection|intros _].
  apply keeps_bind; [apply keeps_get|intros st'].
  destruct (p =? vcfScan.sought_now st'); [apply found_after_detection|apply keeps_ret].
Qed.

Lemma scan_lines_after_detection lines truncated :
  keeps rows_after_detection (vcfScan.scan_lines lines truncated).
Proof.
  induction lines as [|line rest IH]; simpl.
  - destruct truncated; [apply keeps_raise|apply keeps_ret].
  - apply keeps_bind; [apply process_line_after_detection|].
    intros [|]; [exact IH|apply keeps_ret].
Qed.

(** X15.  A scan writes no row before the tag to read is chosen: when the
    table that [_parse] stores has a row, [infotag] is not ['auto'] any
    more.  So an object made with [infotag='auto'] detects the tag in the
    first file in which it finds a sought position, and reads every later
    file with the tag of that file. *)
Theorem a_row_means_the_tag_is_chosen (self : vcfScan.t) (vcffile : vcfScan.vcf_file)
    (rows : list vcfScan.base_row) :
  vcfScan.bases (vcfScan._parse self vcffile).1.2 = Some rows →
  rows ≠ [] →
  vcfScan.infotag (vcfScan._parse self vcffile).1.2 ≠ Some "auto".
Proof.
  assert (Hend : rows_after_detection
            (vcfScan.scan_file (vcfScan.set_bases None self) vcffile).2).
  { unfold vcfScan.scan_file. simpl.
    destruct (vcfScan.sorted_positions _) as [|now rest]; [by left|]. simpl.
    pose proof (scan_lines_after_detection (vcfScan.lines vcffile)
                  (vcfScan.truncated vcffile)) as Hscan.
    match goal with
    | |- rows_after_detection (vcfScan.scan_lines _ _ ?st).2 =>
        specialize (Hscan st); destruct (vcfScan.scan_lines _ _ st) as [[[]|e|] st']
    end; simpl; apply Hscan; left; by destruct (now =? 0). }
  pose proof (scan_file_scanning self vcffile) as [_ Hnone].
  unfold vcfScan._parse.
  destruct (vcfScan.scan_file _ vcffile) as [r st]. simpl in Hend, Hnone.
  destruct r as [[]|[]|]; simpl; intros Hrows Hsome; try congruence;
    injection Hrows as <-; by destruct Hend.
Qed.

End detection.

(** A scanner made with [infotag='auto'] and a record with a [BaseCounts4]
    entry: after the scan the tag is [BaseCounts4]. *)
Lemma a_row_means_the_tag_is_chosen_witness :
  let self :=
    (vcfScan.add_roi (vcfScan.set_tags (Some "auto") None default_scanner) "One" [1]).1 in
  let vcffile :=
    {| vcfScan.lines := [sample_line "chr" "1" "BaseCounts4=10,0,5,0"];
       vcfScan.truncated := false |} in
  vcfScan.infotag self = Some "auto" ∧
  vcfScan.infotag (@vcfScan._parse sample_numerics self vcffile).1.2 ≠ Some "auto" ∧
  vcfScan.infotag (@vcfScan._parse sample_numerics self vcffile).1.2 = Some "BaseCounts4".
Proof.
  cbv zeta. split; [reflexivity|]. split; [|vm_compute; reflexivity].
  eapply (@a_row_means_the_tag_is_chosen sample_numerics).
  - vm_compute. reflexivity.
  - discriminate.
Defined.

(** ** The summary by region *)

Section summary.
Import summary.
Context `{Means}.

Lemma elem_of_group_keys (bases : list vcfScan.base_row) (name : string) :
  name ∈ group_keys bases ↔ ∃ r, r ∈ bases ∧ vcfScan.roi_name r = name.
Proof.
  unfold group_keys. rewrite merge_sort_Permutation, elem_of_remove_dups.
  rewrite list_elem_of_fmap. split; intros (r & Hr & Hname); by exists r.
Qed.

Lemma group_keys_NoDup (bases : list vcfScan.base_row) : NoDup (group_keys bases).
Proof.
  unfold group_keys. rewrite merge_sort_Permutation. apply NoDup_remove_dups.
Qed.

Lemma group_keys_Sorted (bases : list vcfScan.base_row) :
  Sorted name_le (group_keys bases).
Proof.
  apply Sorted_merge_sort. intros x y. unfold name_le. apply String.leb_total.
Qed.

Lemma sum_cons (x : Z) (column : list Z) :
  lineageScan.sum (x :: column) = x + lineageScan.sum column.
Proof. reflexivity. Qed.

Lemma sum_ones (rows : list vcfScan.base_row) :
  lineageScan.sum ((λ _, 1) <$> rows) = Z.of_nat (length rows).
Proof.
  induction rows as [|r rows IH]; [done|].
  rewrite fmap_cons, sum_cons, IH. simpl. lia.
Qed.

(** Each row is in the group of its region and in no other. *)
Lemma sum_by_group (f : vcfScan.base_row → Z) (keys : list string)
    (bases : list vcfScan.base_row) :
  NoDup keys →
  (∀ r, r ∈ bases → vcfScan.roi_name r ∈ keys) →
  lineageScan.sum ((λ name, lineageScan.sum (f <$> group bases name)) <$> keys)
  = lineageScan.sum (f <$> bases).
Proof.
  intros Hnodup. induction bases as [|r bases IH]; intros Hkeys.
  - clear. induction keys as [|k keys IH]; [done|].
    rewrite fmap_cons, sum_cons, IH. reflexivity.
  - rewrite fmap_cons, sum_cons, <- IH by (intros r' Hr'; apply Hkeys; by right).
    assert (Hin : vcfScan.roi_name r ∈ keys) by (apply Hkeys; by left).
    clear IH Hkeys. induction Hnodup as [|k keys Hk Hnodup IH];
      [by apply elem_of_nil in Hin|].
    rewrite !fmap_cons, !sum_cons. unfold group at 1.
    change (filter (λ r0, vcfScan.roi_name r0 = k) bases) with (group bases k).
    destruct (decide (vcfScan.roi_name r = k)) as [Heq|Hne].
    + rewrite filter_cons_True by done. rewrite fmap_cons, sum_cons.
      assert (Hrest : ∀ keys', vcfScan.roi_name r ∉ keys' →
                lineageScan.sum ((λ name, lineageScan.sum (f <$> group (r :: bases) name))
                                   <$> keys')
                = lineageScan.sum ((λ name, lineageScan.sum (f <$> group bases name))
                                     <$> keys')).
      { clear. intros keys' Hout. induction keys' as [|k' keys' IH]; [done|].
        apply not_elem_of_cons in Hout as [Hne Hout].
        rewrite !fmap_cons, !sum_cons, IH by done.
        unfold group at 1. by rewrite filter_cons_False. }
      rewrite Hrest by (by rewrite Heq).
      change (filter (λ r0, vcfScan.roi_name r0 = k) bases) with (group bases k). lia.
    + rewrite filter_cons_False by done.
      change (filter (λ r0, vcfScan.roi_name r0 = k) bases) with (group bases k).
      apply elem_of_cons in Hin as [Heq|Hin]; [done|].
      rewrite (IH Hin). lia.
Qed.

Lemma minimum_le_maximum (column : list Z) : minimum column ≤ maximum column.
Proof.
  destruct column as [|x rest]; [done|]. simpl.
  assert (Hmin : ∀ y, foldl Z.min y rest ≤ y).
  { clear. induction rest as [|z rest IH]; intros y; simpl; [lia|].
    specialize (IH (Z.min y z)). lia. }
  assert (Hmax : ∀ y, y ≤ foldl Z.max y rest).
  { clear. induction rest as [|z rest IH]; intros y; simpl; [lia|].
    specialize (IH (Z.max y z)). lia. }
  specialize (Hmin x). specialize (Hmax x). lia.
Qed.

Lemma group_nonempty (bases : list vcfScan.base_row) (name : string) :
  name ∈ group_keys bases → (1 ≤ length (group bases name))%nat.
Proof.
  intros Hname. apply elem_of_group_keys in Hname as (r & Hr & Hname).
  assert (Hin : r ∈ group bases name) by (by apply list_elem_of_filter).
  destruct (group bases name); [by apply elem_of_nil in Hin|simpl; lia].
Qed.

(** X16.  The summary by region counts every row of the table once: over
    the rows of the summary, the lengths add up to the number of rows of
    the table, the total depths to the sum of its depths, and the nonmajor
    depths to the sum of its nonmajor depths.  The summary has one row for
    each region that has a row in the table, in ascending order of the
    region names, and in each row [length] is at least 1,
    [min_depth <= max_depth] and [start <= stop]. *)
Theorem the_summary_counts_every_row_once (guid : string)
    (bases : list vcfScan.base_row) (table : list lineageScan.region_summary) :
  region_stats guid bases = Some table →
  lineageScan.sum (lineageScan.length <$> table) = Z.of_nat (length bases) ∧
  lineageScan.sum (lineageScan.total_depth <$> table)
  = lineageScan.sum (vcfScan.depth <$> bases) ∧
  lineageScan.sum (lineageScan.total_nonmajor_depth <$> table)
  = lineageScan.sum (nonmajor <$> bases) ∧
  NoDup (lineageScan.roi_name <$> table) ∧
  Sorted name_le (lineageScan.roi_name <$> table) ∧
  (∀ name, name ∈ lineageScan.roi_name <$> table ↔
           ∃ r, r ∈ bases ∧ vcfScan.roi_name r = name) ∧
  Forall (λ s, 1 ≤ lineageScan.length s ∧
               lineageScan.min_depth s ≤ lineageScan.max_depth s ∧
               lineageScan.start s ≤ lineageScan.stop s) table.
Proof.
  intros Htable.
  assert (Heq : table = summarise guid bases <$> group_keys bases).
  { unfold region_stats in Htable. destruct bases; [done|]. by injection Htable as <-. }
  clear Htable. subst table.
  assert (Hcover : ∀ r, r ∈ bases → vcfScan.roi_name r ∈ group_keys bases).
  { intros r Hr. apply elem_of_group_keys. by exists r. }
  assert (Hnames : lineageScan.roi_name <$> (summarise guid bases <$> group_keys bases)
                   = group_keys bases).
  { rewrite <- list_fmap_compose. apply list_fmap_id. }
  rewrite Hnames, <- !list_fmap_compose.
  split; [|split; [|split; [|split; [|split; [|split]]]]].
  - rewrite <- sum_ones, <- (sum_by_group (λ _, 1) (group_keys bases) bases)
      by (done || apply group_keys_NoDup).
    f_equal. apply list_fmap_ext. intros i name _. simpl. by rewrite sum_ones.
  - by rewrite <- (sum_by_group vcfScan.depth (group_keys bases) bases)
      by (done || apply group_keys_NoDup).
  - by rewrite <- (sum_by_group nonmajor (group_keys bases) bases)
      by (done || apply group_keys_NoDup).
  - apply group_keys_NoDup.
  - apply group_keys_Sorted.
  - apply elem_of_group_keys.
  - apply Forall_fmap, Forall_forall. intros name Hname. simpl.
    split; [pose proof (group_nonempty bases name Hname); lia|].
    split; apply minimum_le_maximum.
Qed.

Lemma nonmajor_bounds (r : vcfScan.base_row) :
  vcfScan.depth r
  = vcfScan.base_a r + vcfScan.base_c r + vcfScan.base_g r + vcfScan.base_t r →
  counted r → 0 ≤ nonmajor r ≤ vcfScan.depth r.
Proof. unfold counted, nonmajor, most_common. lia. Qed.

Lemma summarise_plausible (guid : string) (bases : list vcfScan.base_row)
    (name : string) :
  Forall (λ r, vcfScan.depth r
               = vcfScan.base_a r + vcfScan.base_c r + vcfScan.base_g r
                 + vcfScan.base_t r) bases →
  Forall counted bases →
  plausible (summarise guid bases name).
Proof.
  intros Hdepth Hcounted. unfold plausible, summarise. simpl.
  assert (Hrows : Forall (λ r, 0 ≤ nonmajor r ≤ vcfScan.depth r) (group bases name)).
  { apply Forall_forall. intros r Hr. apply list_elem_of_filter in Hr as [_ Hr].
    apply nonmajor_bounds.
    - by apply (proj1 (Forall_forall _ _) Hdepth).
    - by apply (proj1 (Forall_forall _ _) Hcounted). }
  induction Hrows as [|r rows Hr _ IH]; [done|].
  rewrite !fmap_cons, !sum_cons. lia.
Qed.

End summary.

(** Three rows, two of the region [One] and one of the region [Two]. *)
Lemma the_summary_counts_every_row_once_witness :
  let bases := [sample_row "Two" 2 0 0 0 7; sample_row "One" 1 10 0 5 0;
                sample_row "One" 2 9 1 0 0] in
  ∃ table,
    @summary.region_stats sample_means "sample" bases = Some table ∧
    lineageScan.roi_name <$> table = ["One"; "Two"] ∧
    lineageScan.length <$> table = [2; 1] ∧
    lineageScan.sum (lineageScan.total_depth <$> table)
    = lineageScan.sum (vcfScan.depth <$> bases).
Proof.
  cbv zeta. eexists. split; [vm_compute; reflexivity|].
  split; [reflexivity|]. split; [reflexivity|].
  refine (proj1 (proj2 (@the_summary_counts_every_row_once sample_means "sample"
                          [sample_row "Two" 2 0 0 0 7; sample_row "One" 1 10 0 5 0;
                           sample_row "One" 2 9 1 0 0] _ _))).
  vm_compute. reflexivity.
Defined.

(** ** lineageScan.parse and the F statistics *)

Section lineage.
Context `{Numerics} `{Means} `{lineageScan.Sorting}.

Lemma f_statistics_bounds (table : list lineageScan.region_summary)
    (stats : lineageScan.f_stats) (f : Q) :
  Forall plausible table →
  lineageScan.f_statistics (Some table) = Some stats →
  lineageScan.F2 stats = Some f ∨ lineageScan.F47 stats = Some f →
  (0 <= f <= 1)%Q.
Proof.
  intros Htable. unfold lineageScan.f_statistics.
  destruct (length table <? 58)%nat; [by intros [= <-] [|]|].
  assert (Hsorted : Forall plausible (lineageScan.sort_values table)).
  { by rewrite sort_values_Permutation. }
  set (sorted := lineageScan.sort_values table) in *.
  destruct (Z.eqb_spec (lineageScan.sum (lineageScan.total_depth
                                           <$> lineageScan.head 2 sorted)) 0)
    as [|Hd2]; [by intros [= <-] [|]|].
  destruct (Z.eqb_spec (lineageScan.sum (lineageScan.total_depth
                                           <$> lineageScan.tail 47 sorted)) 0)
    as [|Hd47]; [by intros [= <-] [|]|].
  cbn [orb]. intros [= <-]. cbn [lineageScan.F2 lineageScan.F47].
  intros [[= <-]|[= <-]].
  - apply ratio_in_unit_interval; [|done].
    apply (sum_plausible (lineageScan.head 2 sorted)).
    unfold lineageScan.head. by apply Forall_take.
  - apply ratio_in_unit_interval; [|done].
    apply (sum_plausible (lineageScan.tail 47 sorted)).
    unfold lineageScan.tail. by apply Forall_drop.
Qed.

Lemma parse_rows_add_up (self : vcfScan.t) (vcffile : vcfScan.vcf_file)
    (rows : list vcfScan.base_row) :
  vcfScan.bases (vcfScan._parse self vcffile).1.2 = Some rows →
  Forall (λ r, vcfScan.depth r
               = vcfScan.base_a r + vcfScan.base_c r + vcfScan.base_g r
                 + vcfScan.base_t r) rows.
Proof.
  intros Hrows. apply parse_bases in Hrows as ->.
  destruct (scan_file_rows_ok self vcffile) as (Hrows & _).
  eapply Forall_impl; [exact Hrows|]. by intros r (_ & Hdepth & _).
Qed.

(** X17.  Let [lineageScan.parse] end without an exception, and let the
    base counts read from the file be non-negative.  Then in every row of
    [self.region_stats] the nonmajor depth lies between 0 and the total
    depth, and the F2 and F47 that [f_statistics] computes from these
    region statistics, when it computes them, lie between 0 and 1. *)
Theorem lineage_ratios_are_fractions (self : vcfScan.t) (vcffile : vcfScan.vcf_file)
    (guid : string) (region_stats : list lineageScan.region_summary)
    (stats : lineageScan.f_stats) :
  (lineage.parse self vcffile guid).1.1.2 = Some region_stats →
  (∀ rows, vcfScan.bases (vcfScan._parse self vcffile).1.2 = Some rows →
           Forall counted rows) →
  lineageScan.f_statistics (Some region_stats) = Some stats →
  Forall plausible region_stats ∧
  ∀ f, lineageScan.F2 stats = Some f ∨ lineageScan.F47 stats = Some f →
       (0 <= f <= 1)%Q.
Proof.
  intros Hparse Hcounted Hstats.
  assert (Htable : Forall plausible region_stats).
  { unfold lineage.parse in Hparse.
    pose proof (parse_rows_add_up self vcffile) as Hdepth.
    destruct (vcfScan._parse self vcffile) as [[[v|e|] self'] ws];
      simpl in *; [|done..].
    destruct (vcfScan.bases self') as [rows|]; simpl in Hparse; [|done].
    specialize (Hdepth rows eq_refl). specialize (Hcounted rows eq_refl).
    destruct (summary.region_stats guid rows) as [table|] eqn:Htable;
      simpl in Hparse; [|done].
    injection Hparse as <-. unfold summary.region_stats in Htable.
    destruct rows as [|row rows]; [done|]. injection Htable as <-.
    apply Forall_fmap, Forall_forall. intros name _.
    by apply summarise_plausible. }
  split; [exact Htable|]. intros f.
  by apply (f_statistics_bounds region_stats stats f).
Qed.

(** X18.  [lineageScan.parse] needs a row.
    - When [_parse] returns [False], as for a truncated file, or returns
      with a table without rows, [lineageScan.parse] raises [TypeError]:
      [self.region_stats] is [None] and cannot take the [guid] column.
    - When [_parse] returns with a table that has a row,
      [lineageScan.parse] returns [None] and [self.region_stats] is the
      summary of this table.
    - An exception of [_parse] is passed on.
    The object and the warnings are those of [_parse]. *)
Theorem lineage_parse_needs_a_row (self : vcfScan.t) (vcffile : vcfScan.vcf_file)
    (guid : string) :
  let scanned := vcfScan._parse self vcffile in
  let parsed := lineage.parse self vcffile guid in
  (scanned.1.1 = Return (PyBool false) → parsed.1.1 = (Raise TypeError, None)) ∧
  (vcfScan.bases scanned.1.2 = Some [] → parsed.1.1 = (Raise TypeError, None)) ∧
  (∀ row rows, vcfScan.bases scanned.1.2 = Some (row :: rows) →
     parsed.1.1 = (Return PyNone, summary.region_stats guid (row :: rows)) ∧
     is_Some (summary.region_stats guid (row :: rows))) ∧
  (∀ e, scanned.1.1 = Raise e → parsed.1.1 = (Raise e, None)) ∧
  parsed.1.2 = scanned.1.2 ∧ parsed.2 = scanned.2.
Proof.
  cbv zeta.
  pose proof (scan_file_scanning self vcffile) as [_ Hnone].
  unfold lineage.parse, vcfScan._parse in *.
  destruct (vcfScan.scan_file _ vcffile) as [r st]. simpl in Hnone.
  destruct r as [[]|[]|]; simpl; rewrite ?Hnone; simpl;
    try (destruct (vcfScan.resDict st) as [|row0 rows0]; simpl);
    split_and!; try done; try congruence;
    try (intros row rows [= <- <-]; split; [done|by eexists]);
    try (by intros e [= ->]).
Qed.

End lineage.

(** Sixty regions of one position each and a file that has a record for
    every one of them: the quality is [OK], and F2 is 10/30. *)
Lemma lineage_ratios_are_fractions_witness :
  ∃ region_stats stats,
    (@lineage.parse sample_numerics sample_means sixty_regions sixty_records
       "sample").1.1.2 = Some region_stats ∧
    @lineageScan.f_statistics sample_sorting (Some region_stats) = Some stats ∧
    length region_stats = 60%nat ∧
    lineageScan.mixture_quality stats = "OK" ∧
    lineageScan.F2 stats = Some (10 # 30)%Q ∧
    Forall plausible region_stats ∧
    (0 <= 10 # 30 <= 1)%Q.
Proof.
  eexists _, _. split; [vm_compute; reflexivity|]. split; [vm_compute; reflexivity|].
  split; [reflexivity|]. split; [reflexivity|]. split; [reflexivity|].
  match goal with
  | |- Forall plausible ?t ∧ _ =>
      destruct (@lineage_ratios_are_fractions sample_numerics sample_means
                  sample_sorting sixty_regions sixty_records "sample" t
                  {| lineageScan.mixture_quality := "OK";
                     lineageScan.F2 := Some (10 # 30)%Q;
                     lineageScan.F47 := Some (235 # 705)%Q |})
        as [Htable Hratio]
  end.
  - vm_compute. reflexivity.
  - intros rows Hrows. vm_compute in Hrows. injection Hrows as <-.
    unfold counted. apply (bool_decide_unpack _). vm_compute. exact I.
  - vm_compute. reflexivity.
  - split; [exact Htable|]. apply Hratio. by left.
Defined.

(** ** vcfScan._parse: the minor variant count *)

Lemma sum_Permutation (l k : list Z) :
  l ≡ₚ k → lineageScan.sum l = lineageScan.sum k.
Proof.
  unfold lineageScan.sum. induction 1; simpl; lia.
Qed.

(** X19.  For the four depths [a], [c], [g], [t] of a record, the list
    sorted with the largest first has four entries: the first is the largest
    of the four depths, the second, which is the numerator of [maf], is at
    most the first, and the last three, whose sum is the minor variant count
    given to the binomial test, add up to the depth less the largest
    depth. *)
Theorem minor_count_is_depth_less_major (a c g t : Z) :
  ∃ f0 f1 f2 f3,
    vcfScan.sort_reverse [a; c; g; t] = [f0; f1; f2; f3] ∧
    f0 = Z.max (Z.max a c) (Z.max g t) ∧
    f1 + f2 + f3 = a + c + g + t - f0 ∧
    f3 ≤ f2 ≤ f1 ∧ f1 ≤ f0.
Proof.
  assert (Hperm : vcfScan.sort_reverse [a; c; g; t] ≡ₚ [a; c; g; t])
    by apply merge_sort_Permutation.
  assert (Hsorted : StronglySorted (flip Z.le) (vcfScan.sort_reverse [a; c; g; t])).
  { assert (Htotal : Total (flip Z.le)) by (intros x y; unfold flip; lia).
    assert (Htrans : Transitive (flip Z.le)) by (intros x y z; unfold flip; lia).
    apply (StronglySorted_merge_sort _). }
  pose proof (Permutation_length Hperm) as Hlen.
  pose proof (sum_Permutation _ _ Hperm) as Hsum.
  destruct (vcfScan.sort_reverse [a; c; g; t]) as [|f0 [|f1 [|f2 [|f3 [|? ?]]]]];
    try discriminate Hlen.
  exists f0, f1, f2, f3. split; [done|].
  apply StronglySorted_inv in Hsorted as [Hsorted H0].
  apply StronglySorted_inv in Hsorted as [Hsorted H1].
  apply StronglySorted_inv in Hsorted as [_ H2].
  apply Forall_cons in H0 as [H01 H0]. apply Forall_cons in H0 as [H02 H0].
  apply Forall_cons in H0 as [H03 _].
  apply Forall_cons in H1 as [H12 H1]. apply Forall_cons in H1 as [H13 _].
  apply Forall_cons in H2 as [H23 _].
  unfold flip in *. unfold lineageScan.sum in Hsum. simpl in Hsum.
  assert (Hin : f0 ∈ [a; c; g; t]) by (rewrite <- Hperm; by left).
  assert (Hall : Forall (λ x, x ≤ f0) [a; c; g; t]).
  { rewrite <- Hperm. repeat apply Forall_cons_2; try apply Forall_nil_2; lia. }
  apply Forall_cons in Hall as [Ha Hall]. apply Forall_cons in Hall as [Hc Hall].
  apply Forall_cons in Hall as [Hg Hall]. apply Forall_cons in Hall as [Ht _].
  repeat (apply elem_of_cons in Hin as [->|Hin]; [lia|]).
  by apply elem_of_nil in Hin.
Qed.

(** ** lineageScan.__init__: the regions of the lineages *)

Section lineages.
Import lineage.
Variables (lineage_defining : list (string * Z)) (excluded : gset Z).

Lemma elem_of_roi_psns (name : string) (p : Z) :
  p ∈ roi_psns lineage_defining excluded name ↔
  (name, p) ∈ lineage_defining ∧ p ∉ excluded.
Proof.
  unfold roi_psns. rewrite elem_of_difference, elem_of_list_to_set, list_elem_of_fmap.
  split.
  - intros [([n q] & -> & Hrow) Hp]. apply list_elem_of_filter in Hrow as [Hn Hrow].
    simpl in *. by subst n.
  - intros [Hrow Hp]. split; [|done]. exists (name, p). split; [done|].
    by apply list_elem_of_filter.
Qed.

Lemma elem_of_unique (seen names : list string) (x : string) :
  x ∈ unique seen names ↔ x ∈ names ∧ x ∉ seen.
Proof.
  revert seen. induction names as [|name rest IH]; intros seen; simpl.
  - split; [by intros Hx; apply elem_of_nil in Hx|by intros [Hx _]; apply elem_of_nil in Hx].
  - case_decide as Hseen.
    + rewrite IH, elem_of_cons. split; [by intros [? ?]; split; [right|]|].
      intros [[->|Hx] Hout]; [done|by split].
    + split.
      * intros [->|Hx]%elem_of_cons; [by split; [left|]|].
        apply IH in Hx as [Hx Hout]. apply not_elem_of_cons in Hout as [_ Hout].
        by split; [right|].
      * intros [Hx Hout]. destruct (decide (x = name)) as [->|Hne]; [by left|].
        right. apply IH. split.
        -- apply elem_of_cons in Hx as [?|?]; done.
        -- by apply not_elem_of_cons.
Qed.

Lemma unique_NoDup (seen names : list string) : NoDup (unique seen names).
Proof.
  revert seen. induction names as [|name rest IH]; intros seen; simpl;
    [apply NoDup_nil_2|].
  case_decide as Hseen; [apply IH|].
  apply NoDup_cons. split; [|apply IH].
  rewrite elem_of_unique, not_elem_of_cons. by intros (_ & Hne & _).
Qed.

Lemma add_positions_zero (roi_name : string) (ps : list Z) (self : vcfScan.t) :
  0 ∈ ps → (vcfScan.add_positions roi_name self ps).2 = Some ValueError.
Proof.
  revert self. induction ps as [|p ps IH]; intros self Hps; simpl;
    [by apply elem_of_nil in Hps|].
  destruct (Z.eqb_spec p 0) as [->|Hp]; [done|].
  apply IH. apply elem_of_cons in Hps as [Heq|Hps]; [congruence|done].
Qed.

(** One call of [add_roi] for a lineage without position 0. *)
Lemma add_roi_lineage (self : vcfScan.t) (name : string) :
  0 ∉ roi_psns lineage_defining excluded name →
  let r := vcfScan.add_roi self name (elements (roi_psns lineage_defining excluded name)) in
  r.2 = None ∧
  (∀ n, vcfScan.roi2psn r.1 !! n
        = if decide (n = name) then Some (roi_psns lineage_defining excluded name)
          else vcfScan.roi2psn self !! n) ∧
  (∀ p n, n ∈ regions_of r.1 p ↔
          n ∈ regions_of self p ∨
          (n = name ∧ p ∈ roi_psns lineage_defining excluded name)).
Proof.
  intros Hzero. cbv zeta.
  assert (Hps : 0 ∉ elements (roi_psns lineage_defining excluded name))
    by (by rewrite elem_of_elements).
  split; [|split].
  - unfold vcfScan.add_roi. by apply add_positions_nonzero.
  - intros n. case_decide as Hn.
    + subst n. unfold vcfScan.add_roi.
      rewrite (add_positions_region _ _ _ ∅); [|simpl; by rewrite lookup_insert_eq|done].
      f_equal. rewrite (left_id_L ∅ (∪)). apply list_to_set_elements_L.
    + by apply add_roi_other_regions.
  - intros p n. unfold regions_of, vcfScan.add_roi.
    rewrite add_positions_inverse by done. simpl.
    case_decide as Hp.
    + rewrite elem_of_elements in Hp. simpl. rewrite elem_of_union, elem_of_singleton.
      split; intros [Hn|Hn]; [by left|by right|by left|by right; destruct Hn].
    + rewrite elem_of_elements in Hp. split; [by left|].
      intros [Hn|[_ Hn]]; done.
Qed.

Lemma add_lineages_spec (names : list string) (self : vcfScan.t) :
  NoDup names →
  (∀ n, n ∈ names → 0 ∉ roi_psns lineage_defining excluded n) →
  let r := add_lineages lineage_defining excluded self names in
  r.2 = None ∧
  (∀ n, vcfScan.roi2psn r.1 !! n
        = if decide (n ∈ names) then Some (roi_psns lineage_defining excluded n)
          else vcfScan.roi2psn self !! n) ∧
  (∀ p n, n ∈ regions_of r.1 p ↔
          n ∈ regions_of self p ∨
          (n ∈ names ∧ p ∈ roi_psns lineage_defining excluded n)).
Proof.
  revert self. induction names as [|name rest IH]; intros self Hnodup Hzero; cbv zeta.
  - cbn [add_lineages fst snd]. split; [done|]. split.
    + intros n. case_decide as Hn; [by apply elem_of_nil in Hn|done].
    + intros p n. split; [by left|]. intros [Hn|[Hn _]]; [done|by apply elem_of_nil in Hn].
  - apply NoDup_cons in Hnodup as [Hname Hnodup].
    destruct (add_roi_lineage self name) as (Hret & Hregion & Hinverse);
      [apply Hzero; by left|].
    cbn [add_lineages].
    destruct (vcfScan.add_roi self name _) as [self1 o]. simpl in Hret, Hregion, Hinverse.
    subst o.
    destruct (IH self1 Hnodup) as (Hret' & Hregion' & Hinverse');
      [intros n Hn; apply Hzero; by right|].
    split; [done|]. split.
    + intros n. rewrite Hregion', Hregion.
      destruct (decide (n = name)) as [->|Hne].
      * rewrite decide_False by done. by rewrite decide_True by (by left).
      * destruct (decide (n ∈ rest)) as [Hin|Hout].
        -- by rewrite decide_True by (by right).
        -- rewrite decide_False; [done|]. by intros [?|?]%elem_of_cons.
    + intros p n. rewrite Hinverse', Hinverse, elem_of_cons. split.
      * intros [[Hn|[-> Hp]]|[Hn Hp]]; [by left|right; split; [by left|done]
                                       |right; split; [by right|done]].
      * intros [Hn|[[->|Hn] Hp]]; [by left; left|by left; right|by right].
Qed.

Lemma add_lineages_raises (names : list string) (self : vcfScan.t) (name : string) :
  name ∈ names → 0 ∈ roi_psns lineage_defining excluded name →
  (add_lineages lineage_defining excluded self names).2 = Some ValueError.
Proof.
  revert self. induction names as [|n rest IH]; intros self Hname Hzero;
    [by apply elem_of_nil in Hname|].
  cbn [add_lineages].
  destruct (decide (0 ∈ roi_psns lineage_defining excluded n)) as [Hn|Hn].
  - assert (Hraise : (vcfScan.add_roi self n
                        (elements (roi_psns lineage_defining excluded n))).2
                     = Some ValueError).
    { unfold vcfScan.add_roi. apply add_positions_zero. by apply elem_of_elements. }
    destruct (vcfScan.add_roi self n _) as [self1 o]. simpl in Hraise. by subst o.
  - destruct (add_roi_lineage self n Hn) as (Hret & _).
    destruct (vcfScan.add_roi self n _) as [self1 o]. simpl in Hret. subst o.
    apply IH; [|done].
    apply elem_of_cons in Hname as [->|Hname]; [done|done].
Qed.

(** X20.  The constructor of [lineageScan], for the table of lineage
    defining positions and the set of excluded positions read from the two
    files.
    - If position 0 is in the table and not excluded, the constructor
      raises [ValueError], whatever the error rate is.
    - Otherwise, if the error rate is no float, it raises [TypeError].
    - Otherwise it returns an object in which every lineage of the table is
      a region whose positions are those of the lineage less the excluded
      ones (a lineage all of whose positions are excluded is a region without
      positions), no other region exists, a position lists exactly the
      lineages that have it and only if it is not excluded, and the two
      directions of the index agree. *)
Theorem lineage_regions (expectedErrorRate : value) (infotag : option string) :
  let made := __init__ expectedErrorRate lineage_defining excluded infotag in
  if decide (0 ∈ lineage_defining.*2 ∧ 0 ∉ excluded) then made = Raise ValueError
  else
    match expectedErrorRate with
    | PyFloat x =>
        ∃ self,
          made = Return self ∧
          (∀ name, vcfScan.roi2psn self !! name
                   = if decide (name ∈ lineage_defining.*1)
                     then Some (roi_psns lineage_defining excluded name)
                     else None) ∧
          (∀ p name, name ∈ regions_of self p ↔
                     (name, p) ∈ lineage_defining ∧ p ∉ excluded) ∧
          consistent self ∧
          vcfScan.bt self = new_tester x
    | _ => made = Raise TypeError
    end.
Proof.
  cbv zeta. unfold __init__.
  set (self0 := {| vcfScan.roi2psn := ∅; vcfScan.psn2roi := ∅;
                   vcfScan.infotag := infotag; vcfScan.fieldtag := None;
                   vcfScan.report_minimum_maf := 0%float;
                   vcfScan.compute_pvalue := true;
                   vcfScan.expectedErrorRate := expectedErrorRate;
                   vcfScan.bt := _; vcfScan.guid := None; vcfScan.bases := None |}).
  set (names := unique [] lineage_defining.*1).
  assert (Hnames : ∀ n, n ∈ names ↔ n ∈ lineage_defining.*1).
  { intros n. unfold names. rewrite elem_of_unique. split; [by intros [? _]|].
    intros Hn. split; [done|]. by intros ?%elem_of_nil. }
  case_decide as Hzero.
  - destruct Hzero as [Hin Hout].
    apply list_elem_of_fmap in Hin as ([name p] & Hp & Hrow). simpl in Hp. subst p.
    assert (Hraise : (add_lineages lineage_defining excluded self0 names).2
                     = Some ValueError).
    { apply (add_lineages_raises names self0 name).
      - apply Hnames. apply list_elem_of_fmap. by exists (name, 0).
      - by apply elem_of_roi_psns. }
    destruct (add_lineages _ _ self0 names) as [self1 o]. simpl in Hraise. by subst o.
  - destruct (add_lineages_spec names self0) as (Hret & Hregion & Hinverse).
    { apply unique_NoDup. }
    { intros n _ Hn. apply elem_of_roi_psns in Hn as [Hrow Hout]. apply Hzero.
      split; [|done]. apply list_elem_of_fmap. by exists (n, 0). }
    destruct (add_lineages _ _ self0 names) as [self1 o].
    simpl in Hret, Hregion, Hinverse. subst o.
    destruct expectedErrorRate as [|b|z|x|s]; try reflexivity. simpl.
    eexists. split; [reflexivity|].
    assert (Hroi : ∀ name, vcfScan.roi2psn self1 !! name
                           = if decide (name ∈ lineage_defining.*1)
                             then Some (roi_psns lineage_defining excluded name)
                             else None).
    { intros name. rewrite Hregion. simpl. rewrite lookup_empty.
      destruct (decide (name ∈ names)) as [Hin|Hout].
      - by rewrite decide_True by (by apply Hnames).
      - rewrite decide_False; [done|]. by rewrite <- Hnames. }
    assert (Hpsn : ∀ p name, name ∈ regions_of self1 p ↔
                             (name, p) ∈ lineage_defining ∧ p ∉ excluded).
    { intros p name. rewrite Hinverse, <- elem_of_roi_psns.
      unfold regions_of at 1. simpl. rewrite lookup_empty. simpl. split.
      - intros [Hn|[_ Hp]]; [by apply elem_of_empty in Hn|done].
      - intros Hp. right. split; [|done]. apply Hnames.
        apply elem_of_roi_psns in Hp as [Hrow _].
        apply list_elem_of_fmap. by exists (name, p). }
    split; [exact Hroi|]. split; [exact Hpsn|]. split; [|reflexivity].
    intros r p. simpl.
    transitivity (r ∈ regions_of self1 p).
    + rewrite Hpsn, Hroi. split.
      * intros (ps & Hps & Hp). case_decide; [|done]. injection Hps as <-.
        by apply elem_of_roi_psns.
      * intros Hp. exists (roi_psns lineage_defining excluded r).
        rewrite decide_True; [by split; [|apply elem_of_roi_psns]|].
        destruct Hp as [Hrow _]. apply list_elem_of_fmap. by exists (r, p).
    + unfold regions_of. destruct (vcfScan.psn2roi self1 !! p) as [rs|]; simpl.
      * split; [intros Hr; by exists rs|by intros (rs' & [= <-] & Hr)].
      * split; [by intros ?%elem_of_empty|by intros (rs' & [=] & _)].
Qed.

End lineages.

(** ** FastaMixtureMarker: a candidate beyond the sequence *)

Section range.
Import FastaMixtureMarker.

Lemma setitem_beyond (l : list ascii) (p : Z) (c : ascii) :
  Z.of_nat (length l) ≤ p → setitem l p c = Raise IndexError.
Proof.
  intros Hp. unfold setitem.
  destruct (Z.leb_spec 0 p); [|lia].
  destruct (Z.ltb_spec p (Z.of_nat (length l))); [lia|]. simpl.
  destruct (Z.ltb_spec p 0); [lia|]. by rewrite andb_false_r.
Qed.

Lemma write_calls_beyond (bases : list Z) (d : calls) (range : list nat)
    (seq : list ascii) :
  (∀ i, i ∈ range → 0 ≤ bases !!! i ∧ bases !!! i ∈ d.*1) →
  (∃ i, i ∈ range ∧ Z.of_nat (length seq) ≤ bases !!! i) →
  write_calls bases d range seq = Raise IndexError.
Proof.
  revert seq. induction range as [|i range IH]; intros seq Hrange (j & Hj & Hbeyond).
  - by apply elem_of_nil in Hj.
  - simpl. destruct (Hrange i) as [Hpos Hkey]; [by left|].
    destruct (dict_get_present _ _ Hkey) as [c ->]. simpl.
    destruct (Z.lt_ge_cases (bases !!! i) (Z.of_nat (length seq))) as [Hin|Hout].
    + rewrite setitem_in_range by lia. simpl. apply IH.
      * intros k Hk. apply Hrange. by right.
      * exists j. rewrite length_insert. split; [|done].
        apply elem_of_cons in Hj as [->|Hj]; [lia|done].
    + by rewrite setitem_beyond.
Qed.

Context `{Numerics}.

(** X21.  Let the loop over the table have collected candidates at
    positions that are not negative.  If a candidate that is neither the
    first nor the last in the order of the positions lies beyond the end of
    the sequence, [mark_mixed] raises [IndexError]: the table and the
    sequence do not belong together.  (A candidate beyond the end that is
    the first or the last is not written and raises nothing.) *)
Theorem a_candidate_beyond_the_sequence_raises (self self' : t) (seq : string)
    (df : list call_row) (variants_to_update : calls) (i : nat) (p : Z) :
  collect self df = (Return variants_to_update, self') →
  Forall (λ q, 0 ≤ q) variants_to_update.*1 →
  sorted_keys variants_to_update !! i = Some p →
  (1 ≤ i)%nat → (i + 1 < length (sorted_keys variants_to_update))%nat →
  Z.of_nat (String.length seq) ≤ p →
  mark_mixed self seq (Some df) = (Raise IndexError, self').
Proof.
  intros Hcollect Hpos Hp Hi1 Hi2 Hbeyond.
  assert (Hlen : length (list_ascii_of_string seq) = String.length seq).
  { clear. induction seq as [|c seq IH]; simpl; [done|]. by rewrite IH. }
  destruct (collect_rows_spec _ _ _ _ _ _ Hcollect) as [Hnodup Hcut];
    [apply NoDup_nil_2|].
  set (bases := sorted_keys variants_to_update) in *.
  assert (Hperm : bases ≡ₚ variants_to_update.*1) by apply sorted_keys_Permutation.
  assert (Hkey : ∀ j, j ∈ interior bases → bases !!! j ∈ variants_to_update.*1).
  { intros j Hj. rewrite <- Hperm. apply list_elem_of_lookup.
    exists j. by apply interior_lookup. }
  destruct (eliminate_clustered_spec (clustering_cutoff self) bases variants_to_update Hkey)
    as [Hkeys _].
  unfold mark_mixed. rewrite Hcollect, Hcut. unfold annotate. fold bases.
  rewrite write_calls_beyond; [done| |].
  - intros j Hj. rewrite Hkeys. split; [|by apply Hkey].
    by apply (proj1 (Forall_forall _ _) Hpos), Hkey.
  - exists i. split; [by apply elem_of_interior|].
    rewrite Hlen. by rewrite (list_lookup_total_correct _ _ _ Hp).
Qed.

End range.

(** Three candidates at the 0-indexed positions 10, 40 and 50 and a sequence
    of thirty bases: the candidate at 40 is written, which raises.  With the
    candidates at 10 and 40 only, nothing is written and nothing raised. *)
Lemma a_candidate_beyond_the_sequence_raises_witness :
  @FastaMixtureMarker.mark_mixed sample_numerics sample_marker thirty_A
    (Some [sample_call 11 10 0 5 0; sample_call 41 10 0 5 0; sample_call 51 10 0 5 0])
  = (Raise IndexError, sample_marker) ∧
  @FastaMixtureMarker.mark_mixed sample_numerics sample_marker thirty_A
    (Some [sample_call 11 10 0 5 0; sample_call 41 10 0 5 0])
  = (Return (Some [(10, "r"%char); (40, "r"%char)], thirty_A), sample_marker).
Proof.
  split; [|vm_compute; reflexivity].
  apply (@a_candidate_beyond_the_sequence_raises sample_numerics sample_marker
           sample_marker thirty_A _ [(10, "r"); (40, "r"); (50, "r")]%char 1 40).
  - vm_compute. reflexivity.
  - apply (bool_decide_unpack _). vm_compute. exact I.
  - vm_compute. reflexivity.
  - lia.
  - vm_compute. lia.
  - vm_compute. discriminate.
Defined.
